(** * discovery-agent: repository scanners and the Gherkin story generator

    A shallow embedding of the scanning tools of [discovery_agent.tools]
    (search_repo_patterns, robust_search_repo_patterns, repo_mcp_tools,
    db_schema_scanner, endpoint_scanner, chunk_tools) and of the tools
    of [user_histories.tools] (the story generator, the analysis reader
    and the markdown writer), with the properties of the specification
    stated over them and further properties of the code.

    Python values are modelled as the code has them: a [str] is a list of
    Unicode code points, an [int] is a [Z], a raised exception is an
    explicit outcome.  Functions of the Python standard library are
    modelled next to the code that calls them; what is not modelled of
    them is taken as a parameter (class [PyLib]). *)

From Stdlib Require Import NArith ZArith Lia Bool.
From stdpp Require Import base option list strings gmap sorting.

#[local] Set Warnings "-register-all".
Local Open Scope N_scope.

(* ===================================================================== *)
(** * Part I: the embedding                                               *)
(* ===================================================================== *)

(* --------------------------------------------------------------------- *)
(** ** Python strings *)
(* --------------------------------------------------------------------- *)

(** A Python [str]: a sequence of code points. *)
Definition str : Type := list N.

(** Decoder for the UTF-8 bytes of a literal of this file, so that the
    constants of the source can be written as they are in the source. *)
Fixpoint utf8_decode (bs : list N) : str :=
  match bs with
  | [] => []
  | b :: r =>
    if b <? 0x80 then b :: utf8_decode r
    else if b <? 0xE0 then
      match r with
      | b1 :: r1 => ((b - 0xC0) * 64 + (b1 - 0x80)) :: utf8_decode r1
      | _ => []
      end
    else if b <? 0xF0 then
      match r with
      | b1 :: b2 :: r2 =>
        ((b - 0xE0) * 4096 + (b1 - 0x80) * 64 + (b2 - 0x80)) :: utf8_decode r2
      | _ => []
      end
    else
      match r with
      | b1 :: b2 :: b3 :: r3 =>
        ((b - 0xF0) * 262144 + (b1 - 0x80) * 4096 + (b2 - 0x80) * 64 + (b3 - 0x80))
          :: utf8_decode r3
      | _ => []
      end
  end.

Definition u (s : string) : str :=
  utf8_decode (map Ascii.N_of_ascii (String.list_ascii_of_string s)).

(** One-character constants. *)
Definition c_nl : N := 10.
Definition c_cr : N := 13.
Definition c_space : N := 32.
Definition c_bang : N := 33.
Definition c_quote : N := 34.
Definition c_lparen : N := 40.
Definition c_rparen : N := 41.
Definition c_star : N := 42.
Definition c_plus : N := 43.
Definition c_hyphen : N := 45.
Definition c_dot : N := 46.
Definition c_slash : N := 47.
Definition c_colon : N := 58.
Definition c_quest : N := 63.
Definition c_lbrack : N := 91.
Definition c_backslash : N := 92.
Definition c_rbrack : N := 93.
Definition c_caret : N := 94.
Definition c_underscore : N := 95.
Definition c_bar : N := 124.

Definition str_eqb (a b : str) : bool := bool_decide (a = b).

(** [t.startswith(k)] *)
Fixpoint startswith (k t : str) : bool :=
  match k, t with
  | [], _ => true
  | _ :: _, [] => false
  | a :: k', b :: t' => (a =? b) && startswith k' t'
  end.

(** [k in t] for two strings: [k] occurs in [t] as a substring. *)
Fixpoint str_in (k t : str) : bool :=
  startswith k t ||
  match t with
  | [] => false
  | _ :: t' => str_in k t'
  end.

(** [sep.join(parts)] *)
Fixpoint join (sep : str) (parts : list str) : str :=
  match parts with
  | [] => []
  | [p] => p
  | p :: rest => p ++ sep ++ join sep rest
  end.

(** [s.replace(a, b)] for one-character [a] and [b]. *)
Definition replace_char (a b : N) (s : str) : str :=
  map (fun c => if c =? a then b else c) s.

(** [str.isspace] on one code point (the whole table of CPython 3.11). *)
Definition isspace (c : N) : bool :=
  ((9 <=? c) && (c <=? 13)) || ((28 <=? c) && (c <=? 32)) ||
  (c =? 0x85) || (c =? 0xA0) || (c =? 0x1680) ||
  ((0x2000 <=? c) && (c <=? 0x200A)) ||
  (c =? 0x2028) || (c =? 0x2029) || (c =? 0x202F) || (c =? 0x205F) ||
  (c =? 0x3000).

Fixpoint lstrip (s : str) : str :=
  match s with
  | c :: s' => if isspace c then lstrip s' else s
  | [] => []
  end.

Definition rstrip (s : str) : str := reverse (lstrip (reverse s)).

(** [s.strip()] *)
Definition strip (s : str) : str := rstrip (lstrip s).

(** Python's slice [l[a:b]] for any two integers. *)
Definition slice_index {A} (l : list A) (i : Z) : nat :=
  let n := Z.of_nat (length l) in
  Z.to_nat (if (i <? 0)%Z then Z.max 0 (i + n) else Z.min i n).

Definition py_slice {A} (a b : Z) (l : list A) : list A :=
  take (slice_index l b - slice_index l a)%nat (drop (slice_index l a) l).

(** Decimal digits of a non-negative integer, [str(n)]. *)
Fixpoint digits_fuel (fuel : nat) (n : N) (acc : str) : str :=
  match fuel with
  | O => acc
  | S f =>
    let acc' := (48 + n mod 10) :: acc in
    if n / 10 =? 0 then acc' else digits_fuel f (n / 10) acc'
  end.

Definition str_of_Z (z : Z) : str :=
  let d := digits_fuel (S (N.to_nat (N.log2 (Z.abs_N z)))) (Z.abs_N z) [] in
  if (z <? 0)%Z then c_hyphen :: d else d.

(* --------------------------------------------------------------------- *)
(** ** fnmatch.fnmatch (POSIX: no case folding)

    [fnmatch.translate] turns a shell pattern into a regular expression
    that must match the whole name: a run of [*] is any sequence of
    characters (the separator [/] included), [?] is any one character,
    [[seq]] and [[!seq]] are character sets with ranges, anything else
    stands for itself. *)
(* --------------------------------------------------------------------- *)

(** One item of a character set: a range of code points (a single
    character is the range from itself to itself). *)
Definition crange : Type := N * N.

Inductive gtok : Type :=
  | GStar
  | GAny
  | GLit (c : N)
  | GSet (negated : bool) (items : list crange).

Definition in_ranges (c : N) (items : list crange) : bool :=
  existsb (fun r => (fst r <=? c) && (c <=? snd r)) items.

Definition gtok_accepts (t : gtok) (c : N) : bool :=
  match t with
  | GStar => true
  | GAny => true
  | GLit a => c =? a
  | GSet neg items => xorb neg (in_ranges c items)
  end.

(** [s.find(a)], [None] for [-1]. *)
Fixpoint find_char (a : N) (s : str) : option nat :=
  match s with
  | [] => None
  | c :: s' => if c =? a then Some O else S <$> find_char a s'
  end.

(** Position of the [']'] that closes a set whose text starts at [s]
    (just after the ['[']): an optional ['!'], then an optional [']'] are
    skipped over first.  [None]: the set is not closed. *)
Definition set_end (s : str) : option nat :=
  let j := match s with c :: _ => if c =? c_bang then 1%nat else 0%nat | [] => 0%nat end in
  let j := match drop j s with c :: _ => if c =? c_rbrack then S j else j | [] => j end in
  (fun k => (j + k)%nat) <$> find_char c_rbrack (drop j s).

(** The chunks of [translate]: the set's text is cut at every hyphen that
    makes a range; a hyphen is looked for from [k], and after one found at
    [p] the next one is looked for from [p + 3]. *)
Fixpoint chunks_from (fuel : nat) (stuff : str) (i k : nat) : list str :=
  match fuel with
  | O => []
  | S f =>
    match find_char c_hyphen (drop k stuff) with
    | Some d =>
      let p := (k + d)%nat in
      take (p - i)%nat (drop i stuff) :: chunks_from f stuff (S p) (p + 3)%nat
    | None => [drop i stuff]
    end
  end.

Definition set_chunks (stuff : str) : list str :=
  let k := match stuff with c :: _ => if c =? c_bang then 2%nat else 1%nat | [] => 1%nat end in
  let cs := chunks_from (S (length stuff)) stuff 0 k in
  match reverse cs with
  | [] :: prev :: before => reverse ((prev ++ [c_hyphen]) :: before)
  | _ => cs
  end.

(** "Remove empty ranges": from the last pair of neighbours to the first,
    a pair whose range is empty is merged, both ends dropped. *)
Fixpoint merge_empty (cs : list str) : list str :=
  match cs with
  | [] => []
  | c :: rest =>
    match merge_empty rest with
    | [] => [c]
    | d :: rest' =>
      match last c, d with
      | Some hi, lo :: d' =>
        if lo <? hi then (removelast c ++ d') :: rest' else c :: d :: rest'
      | _, _ => c :: d :: rest'
      end
    end
  end.

Definition singles (s : str) : list crange := map (fun c => (c, c)) s.

(** The set described by the chunks: between two neighbours, the last
    character of one and the first of the next make a range.  [ended]
    says that the first character of the head chunk closed a range. *)
Fixpoint chunk_items (ended : bool) (cs : list str) : list crange :=
  match cs with
  | [] => []
  | c :: rest =>
    let body := if ended then tail c else c in
    match rest with
    | [] => singles body
    | d :: _ =>
      match last body, d with
      | Some lo, hi :: _ =>
        singles (removelast body) ++ (lo, hi) :: chunk_items true rest
      | _, _ => singles body ++ (c_hyphen, c_hyphen) :: chunk_items false rest
      end
    end
  end.

(** The token of a set whose text (between the brackets) is [stuff]. *)
Definition translate_set (stuff : str) : gtok :=
  let cs :=
    if existsb (N.eqb c_hyphen) stuff then merge_empty (set_chunks stuff)
    else [stuff] in
  match cs with
  | [] | [[]] => GSet false []
  | (c :: c0) :: rest =>
    if c =? c_bang then
      match c0, rest with
      | [], [] => GSet true []
      | _, _ => GSet true (chunk_items false (c0 :: rest))
      end
    else GSet false (chunk_items false cs)
  | [] :: _ => GSet false (chunk_items false cs)
  end.

Fixpoint translate_fuel (fuel : nat) (pat : str) : list gtok :=
  match fuel with
  | O => []
  | S f =>
    match pat with
    | [] => []
    | c :: rest =>
      if c =? c_star then GStar :: translate_fuel f rest
      else if c =? c_quest then GAny :: translate_fuel f rest
      else if c =? c_lbrack then
        match set_end rest with
        | None => GLit c_lbrack :: translate_fuel f rest
        | Some j => translate_set (take j rest) :: translate_fuel f (drop (S j) rest)
        end
      else GLit c :: translate_fuel f rest
    end
  end.

Definition translate (pat : str) : list gtok := translate_fuel (length pat) pat.

(** The translated pattern against a whole name ([re.match] with [\Z]). *)
Fixpoint gmatch (ts : list gtok) : str -> bool :=
  match ts with
  | [] => fun s => match s with [] => true | _ => false end
  | GStar :: ts' =>
    fix star (s : str) : bool :=
      gmatch ts' s || match s with [] => false | _ :: s' => star s' end
  | t :: ts' =>
    fun s => match s with
             | c :: s' => gtok_accepts t c && gmatch ts' s'
             | [] => false
             end
  end.

(** [fnmatch.fnmatch(name, pat)] *)
Definition fnmatch (name pat : str) : bool := gmatch (translate pat) name.

(** [any(fnmatch.fnmatch(name, pattern) for pattern in globs)] *)
Definition any_fnmatch (name : str) (globs : list str) : bool :=
  existsb (fnmatch name) globs.

(* --------------------------------------------------------------------- *)
(** ** pathlib paths (POSIX flavour) *)
(* --------------------------------------------------------------------- *)

(** [s.split(sep)] for a one-character separator. *)
Fixpoint split_acc (sep : N) (acc : str) (s : str) : list str :=
  match s with
  | [] => [reverse acc]
  | c :: r => if c =? sep then reverse acc :: split_acc sep [] r
              else split_acc sep (c :: acc) r
  end.

Definition split_on (sep : N) (s : str) : list str := split_acc sep [] s.

(** A pure path: its root (empty, one slash or two) and its parts. *)
Record pure_path : Type := Path { p_root : str; p_parts : list str }.

Fixpoint leading_slashes (s : str) : nat :=
  match s with
  | c :: r => if c =? c_slash then S (leading_slashes r) else O
  | [] => O
  end.

(** [Path(s)]: empty parts and [.] parts are dropped; exactly two
    leading slashes are kept as the root. *)
Definition path_of_str (s : str) : pure_path :=
  let root :=
    match leading_slashes s with
    | O => []
    | 2%nat => [c_slash; c_slash]
    | _ => [c_slash]
    end in
  Path root (filter (fun p => p ≠ [] ∧ p ≠ [c_dot]) (split_on c_slash s)).

(** [str(p)] *)
Definition path_str (p : pure_path) : str :=
  match p_root p, p_parts p with
  | [], [] => [c_dot]
  | root, parts => root ++ join [c_slash] parts
  end.

(** [a / b]: a rooted right operand replaces the left one. *)
Definition path_div (a b : pure_path) : pure_path :=
  match p_root b with
  | [] => Path (p_root a) (p_parts a ++ p_parts b)
  | _ => b
  end.

(* --------------------------------------------------------------------- *)
(** ** Outcomes, JSON values, parameters *)
(* --------------------------------------------------------------------- *)

(** The exceptions that leave the modelled functions. *)
Inductive exn : Type :=
  | ReError          (* re.error, from re.compile *)
  | TypeError
  | AttributeError
  | OSError          (* FileExistsError, IsADirectoryError, ... *)
  | UnicodeError.    (* UnicodeEncodeError, from write_text *)

Inductive result (A : Type) : Type :=
  | Ret (a : A)
  | Raise (e : exn).
Arguments Ret {A} a.
Arguments Raise {A} e.

#[global] Instance result_ret : MRet result := fun A a => Ret a.

#[global] Instance result_bind : MBind result := fun A B k r =>
  match r with
  | Ret a => k a
  | Raise e => Raise e
  end.

(** The values of [json.loads] and the arguments of [json.dumps].  A
    float keeps the text of its literal; an object keeps its members in
    insertion order, as a [dict] does. *)
Inductive json : Type :=
  | JNull
  | JBool (b : bool)
  | JInt (z : Z)
  | JFloat (literal : str)
  | JStr (s : str)
  | JArr (items : list json)
  | JObj (members : list (str * json)).

(** [d.get(key)] on the members of a dict. *)
Fixpoint obj_get (key : str) (members : list (str * json)) : option json :=
  match members with
  | [] => None
  | (k, v) :: rest => if str_eqb k key then Some v else obj_get key rest
  end.

(** [d[key] = v]: an existing key keeps its place. *)
Fixpoint obj_set (key : str) (v : json) (members : list (str * json)) : list (str * json) :=
  match members with
  | [] => [(key, v)]
  | (k, w) :: rest => if str_eqb k key then (k, v) :: rest
                      else (k, w) :: obj_set key v rest
  end.

(** A match object of [re]: where it starts and ends, the text of the
    whole match and of its groups ([None] for a group that took no part). *)
Record rmatch : Type := RMatch {
  m_start : Z;
  m_end : Z;
  m_group0 : str;
  m_groups : list (option str)
}.

(** What the model takes from the Python library without defining it:
    - [re] on the patterns outside the fragment modelled below
      ([ext_compile] gives [None] where [re.compile] raises [re.error]);
    - the matches of the constant pattern tables of the specialised
      scanners, by category ([finditer]);
    - [str.isalnum] and [str.lower] above Latin-1;
    - the text an f-string gives for a value that is not a [str]. *)
Class PyLib : Type := {
  ext_regex : Type;
  ext_compile : str -> option ext_regex;
  ext_search : ext_regex -> str -> bool;
  finditer : str -> str -> list rmatch;
  isalnum_hi : N -> bool;
  lower_hi : N -> str;
  format_value : json -> str
}.

(* --------------------------------------------------------------------- *)
(** ** re: the modelled fragment

    Literal characters, [.], a backslash before an ASCII character that
    is neither a letter nor a digit, groups [( )], alternation [|] and the
    greedy repeats [*], [+], [?].  A pattern that uses anything else is
    left to [ext_compile]. *)
(* --------------------------------------------------------------------- *)

Inductive rx : Type :=
  | RNone
  | REps
  | RLit (c : N)
  | RDot
  | RCat (a b : rx)
  | RAlt (a b : rx)
  | RStar (a : rx).

Inductive parsed (A : Type) : Type :=
  | POk (a : A) (rest : str)
  | PError
  | POutside.
Arguments POk {A} a rest.
Arguments PError {A}.
Arguments POutside {A}.

Definition is_ascii_alnum (c : N) : bool :=
  ((48 <=? c) && (c <=? 57)) || ((65 <=? c) && (c <=? 90)) || ((97 <=? c) && (c <=? 122)).

Definition is_repeat (c : N) : bool := (c =? c_star) || (c =? c_plus) || (c =? c_quest).

(** Characters that are not literals of the fragment. *)
Definition is_special (c : N) : bool :=
  is_repeat c || (c =? c_dot) || (c =? c_caret) || (c =? 36) ||
  (c =? 123) || (c =? 125) || (c =? c_lbrack) || (c =? c_rbrack) ||
  (c =? c_backslash) || (c =? c_bar) || (c =? c_lparen) || (c =? c_rparen).

Definition apply_repeat (q : N) (a : rx) : rx :=
  if q =? c_star then RStar a
  else if q =? c_plus then RCat a (RStar a)
  else RAlt a REps.

(** After an item: one greedy repeat, not followed by a second repeat
    character (lazy, possessive) nor by a brace. *)
Definition parse_repeat (a : rx) (s : str) : parsed rx :=
  match s with
  | q :: s' =>
    if is_repeat q then
      match s' with
      | q2 :: _ => if is_repeat q2 || (q2 =? 123) then POutside else POk (apply_repeat q a) s'
      | [] => POk (apply_repeat q a) s'
      end
    else if q =? 123 then POutside
    else POk a s
  | [] => POk a s
  end.

Fixpoint parse_alt (fuel : nat) (s : str) : parsed rx :=
  match fuel with
  | O => POutside
  | S f =>
    match parse_seq f s with
    | POk a rest =>
      match rest with
      | c :: rest' =>
        if c =? c_bar then
          match parse_alt f rest' with
          | POk b rest2 => POk (RAlt a b) rest2
          | e => e
          end
        else POk a rest
      | [] => POk a rest
      end
    | e => e
    end
  end
with parse_seq (fuel : nat) (s : str) : parsed rx :=
  match fuel with
  | O => POutside
  | S f =>
    match s with
    | [] => POk REps s
    | c :: _ =>
      if (c =? c_bar) || (c =? c_rparen) then POk REps s
      else
        match parse_atom f s with
        | POk a rest =>
          match parse_repeat a rest with
          | POk a' rest' =>
            match parse_seq f rest' with
            | POk b rest2 => POk (RCat a' b) rest2
            | e => e
            end
          | e => e
          end
        | e => e
        end
    end
  end
with parse_atom (fuel : nat) (s : str) : parsed rx :=
  match fuel with
  | O => POutside
  | S f =>
    match s with
    | [] => PError
    | c :: s' =>
      if c =? c_lparen then
        match s' with
        | q :: _ =>
          if q =? c_quest then POutside
          else
            match parse_alt f s' with
            | POk a rest =>
              match rest with
              | d :: rest' => if d =? c_rparen then POk a rest' else PError
              | [] => PError               (* missing ), unterminated subpattern *)
              end
            | e => e
            end
        | [] => PError                     (* missing ), unterminated subpattern *)
        end
      else if c =? c_backslash then
        match s' with
        | e :: rest =>
          if (e <? 128) && negb (is_ascii_alnum e) then POk (RLit e) rest
          else POutside
        | [] => PError                     (* bad escape (end of pattern) *)
        end
      else if c =? c_dot then POk RDot s'
      else if is_repeat c then PError      (* nothing to repeat *)
      else if is_special c then POutside
      else POk (RLit c) s'
    end
  end.

(** The whole pattern: what is left after the top-level alternation can
    only be an unbalanced parenthesis. *)
Definition parse_pattern (p : str) : parsed rx :=
  match parse_alt (3 * length p + 3) p with
  | POk a [] => POk a []
  | POk _ (_ :: _) => PError
  | e => e
  end.

Fixpoint nullable (r : rx) : bool :=
  match r with
  | RNone | RLit _ | RDot => false
  | REps | RStar _ => true
  | RCat a b => nullable a && nullable b
  | RAlt a b => nullable a || nullable b
  end.

(** Derivative by one character; [.] takes anything but a newline. *)
Fixpoint deriv (c : N) (r : rx) : rx :=
  match r with
  | RNone | REps => RNone
  | RLit a => if c =? a then REps else RNone
  | RDot => if c =? c_nl then RNone else REps
  | RCat a b =>
    if nullable a then RAlt (RCat (deriv c a) b) (deriv c b)
    else RCat (deriv c a) b
  | RAlt a b => RAlt (deriv c a) (deriv c b)
  | RStar a => RCat (deriv c a) (RStar a)
  end.

(** Does some prefix of [s] match? *)
Fixpoint match_prefix (r : rx) (s : str) : bool :=
  nullable r ||
  match s with
  | [] => false
  | c :: s' => match_prefix (deriv c r) s'
  end.

(** Does [r] match somewhere in [s]? *)
Fixpoint rx_search (r : rx) (s : str) : bool :=
  match_prefix r s ||
  match s with
  | [] => false
  | _ :: s' => rx_search r s'
  end.

(** A compiled pattern. *)
Inductive compiled `{PyLib} : Type :=
  | Modelled (r : rx)
  | External (e : ext_regex).

(** [re.compile(p)]: [None] where it raises [re.error]. *)
Definition re_compile `{PyLib} (p : str) : option compiled :=
  match parse_pattern p with
  | POk r _ => Some (Modelled r)
  | PError => None
  | POutside => External <$> ext_compile p
  end.

(** [bool(creg.search(line))] *)
Definition re_search `{PyLib} (creg : compiled) (line : str) : bool :=
  match creg with
  | Modelled r => rx_search r line
  | External e => ext_search e line
  end.

(* --------------------------------------------------------------------- *)
(** ** The scanned tree, os.walk and open *)
(* --------------------------------------------------------------------- *)

(** What a directory holds, in the order [os.scandir] lists it.  A file
    carries its text as decoded with [encoding="utf-8", errors="ignore"],
    before the newline translation of text mode, [None] when opening it
    raises.  Symbolic links are not modelled. *)
Inductive entry : Type :=
  | EFile (name : str) (content : option str)
  | EDir (name : str) (children : list entry).

(** One step of [os.walk]: the directory, as its parts below the root
    ([Path(dirpath).relative_to(root)]), and its [filenames]. *)
Record triple : Type := Triple {
  rel_dir : list str;
  files : list (str * option str)
}.

Definition filenames (es : list entry) : list (str * option str) :=
  omap (fun e => match e with EFile n c => Some (n, c) | EDir _ _ => None end) es.

(** [str(rel_dir / name).replace("\\", "/")] *)
Definition rel_str (rel_dir : list str) (name : str) : str :=
  replace_char c_backslash c_slash (join [c_slash] (rel_dir ++ [name])).

(** The test of the pruning loop: does [full + "/"] match an exclude glob? *)
Definition dir_pruned (exclude_globs : list str) (rel_dir : list str) (d : str) : bool :=
  any_fnmatch (rel_str rel_dir d ++ [c_slash]) exclude_globs.

(** [os.walk], top-down, with the loop body's [dirnames[:] =
    pruned_dirnames] in effect: the walk yields a directory, then descends
    into those of its sub-directories that the body kept.  The pruning
    reads nothing but the exclude globs, so the sequence of steps can be
    given ahead of the loop that consumes it.  [walk_entry] is the walk
    below the entry [e] of the directory [rel_dir]. *)
Fixpoint walk_entry (exclude_globs : list str) (rel_dir : list str) (e : entry) : list triple :=
  match e with
  | EFile _ _ => []
  | EDir d cs =>
    if dir_pruned exclude_globs rel_dir d then []
    else Triple (rel_dir ++ [d]) (filenames cs)
           :: flat_map (walk_entry exclude_globs (rel_dir ++ [d])) cs
  end.

Definition os_walk (exclude_globs : list str) (es : list entry) : list triple :=
  Triple [] (filenames es) :: flat_map (walk_entry exclude_globs []) es.

(** The walk from the root: nothing when there is no directory there. *)
Definition walk_root (exclude_globs : list str) (tree : option (list entry)) : list triple :=
  match tree with
  | Some es => os_walk exclude_globs es
  | None => []
  end.

(** Newline translation of text mode: [\r\n] and [\r] are read as [\n]. *)
Fixpoint universal_newlines (s : str) : str :=
  match s with
  | [] => []
  | c :: r =>
    if c =? c_cr then
      match r with
      | d :: r' => if d =? c_nl then c_nl :: universal_newlines r'
                   else c_nl :: universal_newlines r
      | [] => [c_nl]
      end
    else c :: universal_newlines r
  end.

Fixpoint lines_acc (acc : str) (s : str) : list str :=
  match s with
  | [] => match acc with [] => [] | _ => [reverse acc] end
  | c :: r => if c =? c_nl then reverse (c :: acc) :: lines_acc [] r
              else lines_acc (c :: acc) r
  end.

(** [fh.readlines()]: every line keeps its newline. *)
Definition readlines (text : str) : list str := lines_acc [] (universal_newlines text).

(** [x or default] for an optional list. *)
Definition or_default {A} (x : option (list A)) (default : list A) : list A :=
  match x with
  | Some (a :: l) => a :: l
  | _ => default
  end.

(** The file filter of search_repo_patterns and repo_mcp_tools: an
    excluded file is skipped first, then one that no include glob takes. *)
Definition file_selected (include_globs exclude_globs : list str) (rel : str) : bool :=
  if any_fnmatch rel exclude_globs then false
  else if bool_decide (include_globs ≠ []) && negb (any_fnmatch rel include_globs) then false
  else true.

(* --------------------------------------------------------------------- *)
(** ** search_repo_patterns.py *)
(* --------------------------------------------------------------------- *)

Module SearchRepoPatternsTool.

Definition default_include_globs : list str :=
  map u ["**/*.py"; "**/*.ts"; "**/*.tsx"; "**/*.js"; "**/*.jsx"; "**/*.go";
         "**/*.java"; "**/*.cs"; "**/*.rb"; "**/*.php"; "**/*.kt"; "**/*.scala"]%string.

Definition default_exclude_globs : list str :=
  map u ["**/.git/**"; "**/node_modules/**"; "**/.venv/**"; "**/dist/**";
         "**/build/**"; "**/.next/**"; "**/coverage/**"]%string.

(** One element of [results]. *)
Record evidence : Type := Evidence {
  path : str;
  line_start : Z;
  line_end : Z;
  code_snippet : str
}.

Definition evidence_json (e : evidence) : json :=
  JObj [(u "path", JStr (path e)); (u "line_start", JInt (line_start e));
        (u "line_end", JInt (line_end e)); (u "code_snippet", JStr (code_snippet e))].

(** [compiled = [re.compile(p) for p in patterns if p]] *)
Fixpoint compile_all `{PyLib} (patterns : list str) : result (list compiled) :=
  match patterns with
  | [] => Ret []
  | p :: rest =>
    match p with
    | [] => compile_all rest
    | _ =>
      match re_compile p with
      | None => Raise ReError
      | Some c => cs ← compile_all rest; Ret (c :: cs)
      end
    end
  end.

(** The dict appended for a match on line [idx]. *)
Definition make_evidence (abs_path : str) (lines : list str) (context_lines idx : Z) : evidence :=
  let start := Z.max 1 (idx - context_lines) in
  let end_ := Z.min (Z.of_nat (length lines)) (idx + context_lines) in
  Evidence abs_path start end_ (strip (concat (py_slice (start - 1) end_ lines))).

(** [for creg in compiled]: the state is [results] and [matches_in_file]. *)
Fixpoint scan_patterns `{PyLib} (max_matches_per_file : Z) (ev : evidence) (line : str)
    (cregs : list compiled) (st : list evidence * Z) : list evidence * Z :=
  match cregs with
  | [] => st
  | creg :: rest =>
    if re_search creg line then
      let st' := (fst st ++ [ev], (snd st + 1)%Z) in
      if (snd st' >=? max_matches_per_file)%Z then st'
      else scan_patterns max_matches_per_file ev line rest st'
    else scan_patterns max_matches_per_file ev line rest st
  end.

(** [for idx, line in enumerate(lines, start=1)], on the lines from [idx]. *)
Fixpoint scan_lines `{PyLib} (compiled : list compiled) (max_matches_per_file context_lines : Z)
    (abs_path : str) (all_lines : list str) (idx : Z) (lines : list str)
    (st : list evidence * Z) : list evidence * Z :=
  match lines with
  | [] => st
  | line :: rest =>
    let st' := scan_patterns max_matches_per_file
                 (make_evidence abs_path all_lines context_lines idx) line compiled st in
    if (snd st' >=? max_matches_per_file)%Z then st'
    else scan_lines compiled max_matches_per_file context_lines abs_path all_lines
           (idx + 1)%Z rest st'
  end.

(** The records one opened file adds to [results]. *)
Definition scan_file `{PyLib} (compiled : list compiled) (max_matches_per_file context_lines : Z)
    (abs_path : str) (lines : list str) (results : list evidence) : list evidence :=
  fst (scan_lines compiled max_matches_per_file context_lines abs_path lines 1%Z lines
         (results, 0%Z)).

(** The state of the walk: [results], [file_count], and the paths handed
    to [open] so far. *)
Record scan_state : Type := ScanState {
  results : list evidence;
  file_count : Z;
  opened : list str
}.

Section Scan.
Context `{PyLib}.
Variables (root : pure_path) (compiled : list compiled).
Variables (include_globs exclude_globs : list str).
Variables (max_matches_per_file context_lines max_files : Z).

(** [for f in filenames] in one directory; the [break] leaves the state
    with [file_count > max_files]. *)
Fixpoint scan_filenames (rel_dir : list str) (fs : list (str * option str))
    (st : scan_state) : scan_state :=
  match fs with
  | [] => st
  | (f, content) :: rest =>
    let rel := rel_str rel_dir f in
    if negb (file_selected include_globs exclude_globs rel) then scan_filenames rel_dir rest st
    else
      let abs_path := path_str (path_div root (path_of_str rel)) in
      let count := (file_count st + 1)%Z in
      if (count >? max_files)%Z then ScanState (results st) count (opened st)
      else
        let opened' := opened st ++ [abs_path] in
        match content with
        | None => scan_filenames rel_dir rest (ScanState (results st) count opened')
        | Some text =>
          scan_filenames rel_dir rest
            (ScanState
               (scan_file compiled max_matches_per_file context_lines abs_path
                  (readlines text) (results st))
               count opened')
        end
  end.

(** [for dirpath, dirnames, filenames in os.walk(root)] *)
Fixpoint scan_walk (steps : list triple) (st : scan_state) : scan_state :=
  match steps with
  | [] => st
  | t :: rest =>
    let st' := scan_filenames (rel_dir t) (files t) st in
    if (file_count st' >? max_files)%Z then st'
    else scan_walk rest st'
  end.

End Scan.

(** The walk of [_run], from the compiled patterns on. *)
Definition scan `{PyLib} (tree : option (list entry)) (repo_root : str)
    (compiled : list compiled) (include_globs exclude_globs : list str)
    (max_matches_per_file context_lines max_files : Z) : scan_state :=
  scan_walk (path_of_str repo_root) compiled include_globs exclude_globs
    max_matches_per_file context_lines max_files
    (walk_root exclude_globs tree) (ScanState [] 0%Z []).

(** [SearchRepoPatternsTool._run], on the directory [tree] found at
    [repo_root]; the value returned is the one given to [json.dumps]. *)
Definition _run `{PyLib} (tree : option (list entry)) (repo_root : str) (patterns : list str)
    (include_globs exclude_globs : option (list str))
    (max_matches_per_file context_lines max_files : Z) : result json :=
  let include_globs := or_default include_globs default_include_globs in
  let exclude_globs := or_default exclude_globs default_exclude_globs in
  compiled ← compile_all patterns;
  match compiled with
  | [] => Ret (JObj [(u "matches", JArr [])])
  | _ =>
    let st := scan tree repo_root compiled include_globs exclude_globs
                max_matches_per_file context_lines max_files in
    Ret (JObj [(u "matches", JArr (map evidence_json (results st)))])
  end.

End SearchRepoPatternsTool.

(* --------------------------------------------------------------------- *)
(** ** repo_mcp_tools.py: the file lister *)
(* --------------------------------------------------------------------- *)

Module ListRepositoryFilesTool.

Definition default_include_globs : list str := [u "**/*"].

Definition default_exclude_globs : list str :=
  map u ["**/.git/**"; "**/node_modules/**"; "**/.venv/**"]%string.

(** [for f in filenames] of [_scan_local_fs]: the paths one directory
    adds to [matched]. *)
Definition matched_in (root : pure_path) (include_globs exclude_globs : list str)
    (t : triple) : list str :=
  omap (fun f =>
    let rel := rel_str (rel_dir t) (fst f) in
    if file_selected include_globs exclude_globs rel
    then Some (path_str (path_div root (path_of_str rel)))
    else None) (files t).

(** [_scan_local_fs]: [tree] is the directory at [repo_root]; with none
    there, [root.exists()] is false or [os.walk] yields nothing. *)
Definition _scan_local_fs (tree : option (list entry)) (repo_root : str)
    (include_globs exclude_globs : list str) : list str :=
  flat_map (matched_in (path_of_str repo_root) include_globs exclude_globs)
    (walk_root exclude_globs tree).

(** [_run] up to the cap: the list that becomes the [files] member of
    the result. *)
Definition _run_files (tree : option (list entry)) (repo_root : str)
    (include_globs exclude_globs : option (list str)) (max_files : Z) : list str :=
  let include_globs := or_default include_globs default_include_globs in
  let exclude_globs := or_default exclude_globs default_exclude_globs in
  let files := _scan_local_fs tree repo_root include_globs exclude_globs in
  if (Z.of_nat (length files) >? max_files)%Z then py_slice 0 max_files files
  else files.

End ListRepositoryFilesTool.

(* --------------------------------------------------------------------- *)
(** ** db_schema_scanner.py and endpoint_scanner.py *)
(* --------------------------------------------------------------------- *)

(** The file filter of the specialised scanners: the include globs are
    tested first, then the exclude globs. *)
Definition file_selected_incl_first (include_globs exclude_globs : list str) (rel : str) : bool :=
  if bool_decide (include_globs ≠ []) && negb (any_fnmatch rel include_globs) then false
  else if any_fnmatch rel exclude_globs then false
  else true.

(** [s.count("\n")] *)
Definition count_newlines (s : str) : Z :=
  Z.of_nat (length (filter (fun c => c = c_nl) s)).

Module DbSchemaScannerTool.

(** The keys of [patterns], in the order of the dict. *)
Definition categories : list str :=
  map u ["prisma_model"; "typeorm_entity"; "typeorm_relation"; "sequelize_define";
         "sqlalchemy_model"; "sql_create_table"; "sql_foreign_key"; "django_model"]%string.

Record evidence : Type := Evidence {
  path : str;
  line_numbers : str;
  category : str;
  code_snippet : str
}.

Definition evidence_json (e : evidence) : json :=
  JObj [(u "path", JStr (path e)); (u "line_numbers", JStr (line_numbers e));
        (u "category", JStr (category e)); (u "code_snippet", JStr (code_snippet e))].

(** [f"L{a}-{b}"] *)
Definition line_range (a b : Z) : str :=
  u "L" ++ str_of_Z a ++ u "-" ++ str_of_Z b.

(** The dict appended for the match [m] of category [key]. *)
Definition make_evidence (abs_path content key : str) (m : rmatch) : evidence :=
  let start := m_start m in
  let line_start := (count_newlines (py_slice 0 start content) + 1)%Z in
  let snippet := py_slice (Z.max 0 (start - 160)) (m_end m + 160) content in
  let line_end := (line_start + count_newlines snippet)%Z in
  Evidence abs_path (line_range line_start line_end) key (strip snippet).

(** The matches of one file, [content] being what [fh.read()] gave:
    [for key, rx in patterns.items(): for m in rx.finditer(content)]. *)
Definition scan_content `{PyLib} (abs_path content : str) : list evidence :=
  flat_map (fun key => map (make_evidence abs_path content key) (finditer key content))
    categories.

Definition scan_step `{PyLib} (root : pure_path) (include_globs exclude_globs : list str)
    (t : triple) : list evidence :=
  flat_map (fun f =>
    let rel := rel_str (rel_dir t) (fst f) in
    if file_selected_incl_first include_globs exclude_globs rel then
      match snd f with
      | Some text =>
        scan_content (path_str (path_div root (path_of_str rel))) (universal_newlines text)
      | None => []
      end
    else []) (files t).

Definition matches `{PyLib} (tree : option (list entry)) (repo_root : str)
    (include_globs exclude_globs : list str) : list evidence :=
  flat_map (scan_step (path_of_str repo_root) include_globs exclude_globs)
    (walk_root exclude_globs tree).

(** [DbSchemaScannerTool._run]: an argument left out is an empty list. *)
Definition _run `{PyLib} (tree : option (list entry)) (repo_root : str)
    (include_globs exclude_globs : option (list str)) : json :=
  JObj [(u "db_schema_matches",
         JArr (map evidence_json
                 (matches tree repo_root (or_default include_globs [])
                    (or_default exclude_globs []))))].

End DbSchemaScannerTool.

Module EndpointScannerTool.

Definition categories : list str :=
  map u ["http_url"; "fetch_literal"; "fetch_tmpl"; "axios_create"; "axios_call_literal";
         "axios_call_tmpl"; "got_literal"; "graphql_http"; "socket_io"; "websocket_new";
         "env_url"]%string.

Record evidence : Type := Evidence {
  path : str;
  line_numbers : str;
  category : str;
  value : option str;
  code_snippet : str
}.

(** [m.group(1) if m.groups() else m.group(0)] *)
Definition match_value (m : rmatch) : option str :=
  match m_groups m with
  | g :: _ => g
  | [] => Some (m_group0 m)
  end.

(** The dicts one pattern adds for one line: one for every match of
    [regex.finditer(line)]. *)
Definition scan_pattern `{PyLib} (abs_path : str) (idx : Z) (line key : str) : list evidence :=
  map (fun m =>
         Evidence abs_path (DbSchemaScannerTool.line_range idx idx) key
           (match_value m) (strip line))
      (finditer key line).

(** [for key, regex in patterns.items()] on one line. *)
Definition scan_line `{PyLib} (abs_path : str) (idx : Z) (line : str) : list evidence :=
  flat_map (scan_pattern abs_path idx line) categories.

(** [for idx, line in enumerate(lines, start=1)] from line [idx] on. *)
Fixpoint scan_lines `{PyLib} (abs_path : str) (idx : Z) (lines : list str) : list evidence :=
  match lines with
  | [] => []
  | line :: rest => scan_line abs_path idx line ++ scan_lines abs_path (idx + 1)%Z rest
  end.

Definition scan_step `{PyLib} (root : pure_path) (include_globs exclude_globs : list str)
    (t : triple) : list evidence :=
  flat_map (fun f =>
    let rel := rel_str (rel_dir t) (fst f) in
    if file_selected_incl_first include_globs exclude_globs rel then
      match snd f with
      | Some text => scan_lines (path_str (path_div root (path_of_str rel))) 1%Z (readlines text)
      | None => []
      end
    else []) (files t).

(** The [results] of [EndpointScannerTool._run]. *)
Definition endpoint_matches `{PyLib} (tree : option (list entry)) (repo_root : str)
    (include_globs exclude_globs : option (list str)) : list evidence :=
  flat_map (scan_step (path_of_str repo_root) (or_default include_globs [])
              (or_default exclude_globs []))
    (walk_root (or_default exclude_globs []) tree).

End EndpointScannerTool.

(* --------------------------------------------------------------------- *)
(** ** json.loads

    The decoder of CPython's [_json] scanner: surrounding blanks, objects
    with string keys, arrays, strings with their escapes (no raw control
    character), numbers, [true], [false], [null], [NaN], [Infinity] and
    [-Infinity].  [None] where it raises; an integer of more digits than
    the interpreter converts ([sys.int_info.default_max_str_digits]) makes
    it raise [ValueError].  The interpreter's recursion limit is not
    modelled. *)
(* --------------------------------------------------------------------- *)

Definition is_json_ws (c : N) : bool :=
  (c =? 32) || (c =? 9) || (c =? 10) || (c =? 13).

Fixpoint skip_ws (s : str) : str :=
  match s with
  | c :: r => if is_json_ws c then skip_ws r else s
  | [] => []
  end.

Definition is_digit (c : N) : bool := (48 <=? c) && (c <=? 57).

Definition hex_val (c : N) : option N :=
  if is_digit c then Some (c - 48)
  else if (97 <=? c) && (c <=? 102) then Some (c - 87)
  else if (65 <=? c) && (c <=? 70) then Some (c - 55)
  else None.

Definition hex4 (a b c d : N) : option N :=
  x ← hex_val a; y ← hex_val b; z ← hex_val c; w ← hex_val d;
  Some (((x * 16 + y) * 16 + z) * 16 + w).

(** The character a one-letter escape stands for. *)
Definition simple_escape (e : N) : option N :=
  if (e =? c_quote) || (e =? c_backslash) || (e =? c_slash) then Some e
  else if e =? 98 then Some 8
  else if e =? 102 then Some 12
  else if e =? 110 then Some 10
  else if e =? 114 then Some 13
  else if e =? 116 then Some 9
  else None.

(** The body of a string literal, up to its closing quote.  Every item
    says whether it was written as a [\u] escape. *)
Fixpoint scan_string (s : str) (acc : list (N * bool)) : option (list (N * bool) * str) :=
  match s with
  | [] => None
  | c :: r =>
    if c =? c_quote then Some (reverse acc, r)
    else if c =? c_backslash then
      match r with
      | e :: r1 =>
        if e =? 117 then
          match r1 with
          | h1 :: h2 :: h3 :: h4 :: r2 =>
            match hex4 h1 h2 h3 h4 with
            | Some v => scan_string r2 ((v, true) :: acc)
            | None => None
            end
          | _ => None
          end
        else
          match simple_escape e with
          | Some v => scan_string r1 ((v, false) :: acc)
          | None => None
          end
      | [] => None
      end
    else if c <? 32 then None
    else scan_string r ((c, false) :: acc)
  end.

(** An escaped high surrogate followed by an escaped low one is one
    code point. *)
Fixpoint join_surrogates (l : list (N * bool)) : str :=
  match l with
  | [] => []
  | (c, esc) :: rest =>
    match rest with
    | (d, true) :: rest' =>
      if esc && (0xD800 <=? c) && (c <=? 0xDBFF) && (0xDC00 <=? d) && (d <=? 0xDFFF)
      then (0x10000 + (c - 0xD800) * 1024 + (d - 0xDC00)) :: join_surrogates rest'
      else c :: join_surrogates rest
    | _ => c :: join_surrogates rest
    end
  end.

Definition parse_string (s : str) : option (str * str) :=
  '(items, rest) ← scan_string s []; Some (join_surrogates items, rest).

Fixpoint span_digits (s : str) : str * str :=
  match s with
  | c :: r => if is_digit c then let '(d, r') := span_digits r in (c :: d, r') else ([], s)
  | [] => ([], [])
  end.

Definition digits_value (ds : str) : Z :=
  fold_left (fun acc d => (acc * 10 + Z.of_N (d - 48))%Z) ds 0%Z.

(** The most digits [int] takes from a string: the sign is not counted. *)
Definition int_max_str_digits : N := 4300.

(** A number: an integer part without leading zero, then an optional
    fraction and an optional exponent, each taken only when complete.
    Without fraction and exponent it is an [int], and converting it
    raises when it has too many digits; otherwise it is a [float]. *)
Definition parse_number (s : str) : option (json * str) :=
  let '(sign, s1) :=
    match s with
    | c :: r => if c =? c_hyphen then ([c], r) else ([], s)
    | [] => ([], s)
    end in
  match s1 with
  | d :: r1 =>
    if is_digit d then
      let '(ipart, s2) := if d =? 48 then ([d], r1) else span_digits s1 in
      let '(frac, s3) :=
        match s2 with
        | c :: r =>
          if c =? c_dot then
            match span_digits r with
            | ([], _) => ([], s2)
            | (fd, r') => (c :: fd, r')
            end
          else ([], s2)
        | [] => ([], s2)
        end in
      let '(ex, s4) :=
        match s3 with
        | c :: r =>
          if (c =? 101) || (c =? 69) then
            let '(sg, r1) :=
              match r with
              | g :: r' => if (g =? c_plus) || (g =? c_hyphen) then ([g], r') else ([], r)
              | [] => ([], r)
              end in
            match span_digits r1 with
            | ([], _) => ([], s3)
            | (ed, r2) => (c :: sg ++ ed, r2)
            end
          else ([], s3)
        | [] => ([], s3)
        end in
      match frac, ex with
      | [], [] =>
        if int_max_str_digits <? N.of_nat (length ipart) then None
        else
          Some (JInt (match sign with [] => digits_value ipart | _ => - digits_value ipart end)%Z,
                s4)
      | _, _ => Some (JFloat (sign ++ ipart ++ frac ++ ex), s4)
      end
    else None
  | [] => None
  end.

Definition parse_constant (s : str) : option (json * str) :=
  if startswith (u "null") s then Some (JNull, drop 4 s)
  else if startswith (u "true") s then Some (JBool true, drop 4 s)
  else if startswith (u "false") s then Some (JBool false, drop 5 s)
  else if startswith (u "NaN") s then Some (JFloat (u "NaN"), drop 3 s)
  else if startswith (u "Infinity") s then Some (JFloat (u "Infinity"), drop 8 s)
  else if startswith (u "-Infinity") s then Some (JFloat (u "-Infinity"), drop 9 s)
  else None.

Fixpoint parse_value (fuel : nat) (s : str) : option (json * str) :=
  match fuel with
  | O => None
  | S f =>
    match s with
    | [] => None
    | c :: r =>
      if c =? c_quote then
        '(v, rest) ← parse_string r; Some (JStr v, rest)
      else if c =? 123 then
        match skip_ws r with
        | d :: r' => if d =? 125 then Some (JObj [], r') else parse_members f (d :: r') []
        | [] => None
        end
      else if c =? c_lbrack then
        match skip_ws r with
        | d :: r' => if d =? c_rbrack then Some (JArr [], r') else parse_items f (d :: r') []
        | [] => None
        end
      else
        match parse_constant s with
        | Some v => Some v
        | None => parse_number s
        end
    end
  end
with parse_members (fuel : nat) (s : str) (acc : list (str * json)) : option (json * str) :=
  match fuel with
  | O => None
  | S f =>
    match s with
    | c :: r =>
      if c =? c_quote then
        '(key, r1) ← parse_string r;
        match skip_ws r1 with
        | colon :: r2 =>
          if colon =? c_colon then
            '(v, r3) ← parse_value f (skip_ws r2);
            let acc' := obj_set key v acc in
            match skip_ws r3 with
            | d :: r4 =>
              if d =? 125 then Some (JObj acc', r4)
              else if d =? 44 then parse_members f (skip_ws r4) acc'
              else None
            | [] => None
            end
          else None
        | [] => None
        end
      else None
    | [] => None
    end
  end
with parse_items (fuel : nat) (s : str) (acc : list json) : option (json * str) :=
  match fuel with
  | O => None
  | S f =>
    '(v, r1) ← parse_value f s;
    match skip_ws r1 with
    | d :: r2 =>
      if d =? c_rbrack then Some (JArr (reverse (v :: acc)), r2)
      else if d =? 44 then parse_items f (skip_ws r2) (v :: acc)
      else None
    | [] => None
    end
  end.

(** [json.loads(s)] *)
Definition json_loads (s : str) : option json :=
  if startswith [0xFEFF] s then None
  else
    match parse_value (2 * length s + 4) (skip_ws s) with
    | Some (v, rest) => match skip_ws rest with [] => Some v | _ => None end
    | None => None
    end.

(* --------------------------------------------------------------------- *)
(** ** robust_search_repo_patterns.py *)
(* --------------------------------------------------------------------- *)

Module RobustSearchRepoPatternsTool.

(** [isinstance(item, dict) and "repo_root" in item and "patterns" in item] *)
Definition is_config (v : json) : bool :=
  match v with
  | JObj ms => bool_decide (is_Some (obj_get (u "repo_root") ms))
               && bool_decide (is_Some (obj_get (u "patterns") ms))
  | _ => false
  end.

Definition _try_parse (payload : str) : option json :=
  match json_loads payload with
  | None => None
  | Some data =>
    if is_config data then Some data
    else
      match data with
      | JArr items => List.find is_config items
      | _ => None
      end
  end.

Fixpoint take_while (p : N -> bool) (s : str) : str :=
  match s with
  | c :: r => if p c then c :: take_while p r else []
  | [] => []
  end.

Definition is_ascii_letter (c : N) : bool :=
  ((65 <=? c) && (c <=? 90)) || ((97 <=? c) && (c <=? 122)).

Definition not_quote_nl (c : N) : bool := negb ((c =? c_quote) || (c =? c_nl)).

(** A match, at the start of [s], of the first alternative of the path
    pattern: a letter, a colon, two backslashes, then as many characters
    as follow that are neither a quote nor a newline, one at least. *)
Definition drive_token (s : str) : option str :=
  match s with
  | l :: c :: b1 :: b2 :: r =>
    if is_ascii_letter l && (c =? c_colon) && (b1 =? c_backslash) && (b2 =? c_backslash) then
      match take_while not_quote_nl r with
      | [] => None
      | run => Some (l :: c :: b1 :: b2 :: run)
      end
    else None
  | _ => None
  end.

(** The second alternative: a slash, then as many characters as follow
    that are neither a quote, a newline nor a blank, one at least. *)
Definition slash_token (s : str) : option str :=
  match s with
  | c :: r =>
    if c =? c_slash then
      match take_while (fun c => not_quote_nl c && negb (isspace c)) r with
      | [] => None
      | run => Some (c :: run)
      end
    else None
  | [] => None
  end.

(** [re.search] of the path pattern: the leftmost match, its first
    alternative tried first. *)
Fixpoint path_search (s : str) : option str :=
  match drive_token s with
  | Some m => Some m
  | None =>
    match slash_token s with
    | Some m => Some m
    | None => match s with [] => None | _ :: r => path_search r end
    end
  end.

(** The raw strings of the source, character for character. *)
Definition default_patterns : list str :=
  map u ["export default"; "export const"; "export function";
         "class\\s+\\w+"; "def\\s+\\w+\\("]%string.

Definition _heuristic_extract (payload : str) : json :=
  let repo_root := default [c_dot] (path_search payload) in
  JObj [(u "repo_root", JStr repo_root); (u "patterns", JArr (map JStr default_patterns))].

(** The arguments handed to the strict tool. *)
Record config : Type := Config {
  repo_root : str;
  patterns : list str;
  include_globs : option (list str);
  exclude_globs : option (list str);
  max_matches_per_file : Z;
  context_lines : Z;
  max_files : Z
}.

Definition as_str (v : json) : option str :=
  match v with JStr s => Some s | _ => None end.

Definition as_str_list (v : json) : option (list str) :=
  match v with JArr items => mapM as_str items | _ => None end.

Definition as_globs (v : option json) : option (option (list str)) :=
  match v with
  | None | Some JNull => Some None
  | Some w => Some <$> as_str_list w
  end.

Definition as_int (v : option json) (d : Z) : option Z :=
  match v with
  | None => Some d
  | Some (JInt z) => Some z
  | Some _ => None
  end.

(** The [cfg.get] lines of [_run], for a configuration whose members
    have the types of the strict tool's signature; [None] for any other
    (what Python's dynamic typing then does is not modelled). *)
Definition read_config (cfg : json) : option config :=
  match cfg with
  | JObj ms =>
    root ← as_str (default (JStr [c_dot]) (obj_get (u "repo_root") ms));
    pats ← as_str_list (default (JArr []) (obj_get (u "patterns") ms));
    incl ← as_globs (obj_get (u "include_globs") ms);
    excl ← as_globs (obj_get (u "exclude_globs") ms);
    mm ← as_int (obj_get (u "max_matches_per_file") ms) 5%Z;
    cl ← as_int (obj_get (u "context_lines") ms) 2%Z;
    mf ← as_int (obj_get (u "max_files") ms) 2000%Z;
    Some (Config root pats incl excl mm cl mf)
  | _ => None
  end.

(** [RobustSearchRepoPatternsTool._run]; [tree_at] gives the directory
    found at a path.  [None]: the configuration is outside the model. *)
Definition _run `{PyLib} (tree_at : str -> option (list entry)) (payload : str)
    : option (result json) :=
  let cfg :=
    match _try_parse payload with
    | Some cfg => cfg
    | None => _heuristic_extract payload
    end in
  c ← read_config cfg;
  Some (SearchRepoPatternsTool._run (tree_at (repo_root c)) (repo_root c) (patterns c)
          (include_globs c) (exclude_globs c)
          (max_matches_per_file c) (context_lines c) (max_files c)).

End RobustSearchRepoPatternsTool.

(* --------------------------------------------------------------------- *)
(** ** The file system of the story generator

    A finite map from paths, as [str(Path(...))] writes them, to what is
    there.  [..] and symbolic links are not resolved and permissions are
    not modelled; the root and the working directory are directories.
    The map is taken to be a tree: what lies above an entry is a
    directory. *)
(* --------------------------------------------------------------------- *)

Inductive node : Type :=
  | NDir
  | NFile (text : option str).   (* [None]: [read_text] raises *)

Definition lookup_path (fs : gmap str node) (p : pure_path) : option node :=
  match p_parts p with
  | [] => Some NDir
  | _ => fs !! path_str p
  end.

(** [p.exists()] *)
Definition path_exists (fs : gmap str node) (p : pure_path) : bool :=
  bool_decide (is_Some (lookup_path fs p)).

(** [p.read_text(encoding="utf-8")], [None] where it raises: the file is
    read in text mode, so [\r\n] and [\r] come back as [\n]. *)
Definition read_text (fs : gmap str node) (p : pure_path) : option str :=
  match lookup_path fs p with
  | Some (NFile (Some text)) => Some (universal_newlines text)
  | _ => None
  end.

(** The path and what lies above it, from the top. *)
Definition ancestors (p : pure_path) : list pure_path :=
  map (fun n => Path (p_root p) (take n (p_parts p))) (seq 1 (length (p_parts p))).

Definition is_file (fs : gmap str node) (p : pure_path) : bool :=
  match lookup_path fs p with
  | Some (NFile _) => true
  | _ => false
  end.

(** [p.mkdir(parents=True, exist_ok=True)] *)
Definition mkdir_parents (fs : gmap str node) (p : pure_path) : gmap str node * result unit :=
  if existsb (is_file fs) (ancestors p) then (fs, Raise OSError)
  else (foldl (fun m q => <[path_str q := NDir]> m) fs (ancestors p), Ret tt).

Definition is_surrogate (c : N) : bool := (0xD800 <=? c) && (c <=? 0xDFFF).

Definition parent (p : pure_path) : pure_path :=
  Path (p_root p) (removelast (p_parts p)).

(** [p.write_text(content, encoding="utf-8")]: the file is opened, and so
    emptied, before the text is encoded. *)
Definition write_text (fs : gmap str node) (p : pure_path) (content : str)
    : gmap str node * result unit :=
  match lookup_path fs p, lookup_path fs (parent p) with
  | Some NDir, _ => (fs, Raise OSError)
  | _, Some NDir =>
    if existsb is_surrogate content
    then (<[path_str p := NFile (Some [])]> fs, Raise UnicodeError)
    else (<[path_str p := NFile (Some content)]> fs, Ret tt)
  | _, _ => (fs, Raise OSError)
  end.

(* --------------------------------------------------------------------- *)
(** ** user_histories/tools.py: the Gherkin story generator *)
(* --------------------------------------------------------------------- *)

Module GenerateGherkinStoriesTool.

(** [str.lower] on one code point: ASCII and Latin-1 here, the rest of
    the table in [lower_hi]. *)
Definition lower_char `{PyLib} (c : N) : str :=
  if (65 <=? c) && (c <=? 90) then [c + 32]
  else if c <? 0xC0 then [c]
  else if (c <=? 0xDE) && negb (c =? 0xD7) then [c + 32]
  else if c <? 0x100 then [c]
  else lower_hi c.

(** [s.lower()] *)
Definition lower `{PyLib} (s : str) : str := flat_map lower_char s.

(** [any(k in text for k in keywords)] *)
Definition any_in (keywords : list str) (text : str) : bool :=
  existsb (fun k => str_in k text) keywords.

Definition _detect_persona `{PyLib} (rule_text : str) : str :=
  let text := lower rule_text in
  if any_in (map u ["admin"; "administrador"; "moderador"; "operador"]%string) text
  then u "Administrador"
  else if any_in (map u ["jogador"; "player"]%string) text
  then u "Jogador"
  else if any_in (map u ["sistema"; "api"; "serviço"; "servico"]%string) text
  then u "Sistema"
  else if any_in (map u ["usuário"; "usuario"; "user"]%string) text
  then u "Usuário"
  else u "Usuário".

(** [c.isalnum()] for a string: not empty, every character a letter or
    a digit. *)
Definition isalnum_char `{PyLib} (c : N) : bool :=
  if c <? 128 then is_ascii_alnum c else isalnum_hi c.

Definition isalnum `{PyLib} (s : str) : bool :=
  bool_decide (s ≠ []) && forallb isalnum_char s.

(** What [for c in name] goes through, for any value of the analysis. *)
Definition name_items (name : json) : result (list str) :=
  match name with
  | JStr s => Ret (map (fun c => [c]) s)
  | JArr items =>
    if forallb (fun i => match i with JStr _ => true | _ => false end) items
    then Ret (omap (fun i => match i with JStr s => Some s | _ => None end) items)
    else Raise AttributeError
  | JObj ms => Ret (map fst ms)
  | _ => Raise TypeError
  end.

Definition keep_item `{PyLib} (c : str) : bool :=
  isalnum c || bool_decide (c ∈ [[c_space]; [c_hyphen]; [c_underscore]]).

Definition _sanitize_filename `{PyLib} (name : json) : result str :=
  items ← name_items name;
  let safe := concat (filter (fun c => keep_item c = true) items) in
  match replace_char c_space c_underscore (strip safe) with
  | [] => Ret (u "module")
  | s => Ret s
  end.

(** [d.get(key, default)]; only a dict has [get]. *)
Definition get (d : json) (key : string) (default_ : json) : result json :=
  match d with
  | JObj ms => Ret (default default_ (obj_get (u key) ms))
  | _ => Raise AttributeError
  end.

(** What a [for] loop goes through. *)
Definition iterate (v : json) : result (list json) :=
  match v with
  | JArr items => Ret items
  | JObj ms => Ret (map (fun kv => JStr (fst kv)) ms)
  | JStr s => Ret (map (fun c => JStr [c]) s)
  | _ => Raise TypeError
  end.

(** A value inside an f-string. *)
Definition fmt `{PyLib} (v : json) : str :=
  match v with
  | JStr s => s
  | _ => format_value v
  end.

(** [persona_to_rules.setdefault(persona, []).append(br)] *)
Fixpoint append_rule (persona : str) (br : json) (groups : list (str * list json))
    : list (str * list json) :=
  match groups with
  | [] => [(persona, [br])]
  | (p, rules) :: rest =>
    if str_eqb p persona then (p, rules ++ [br]) :: rest
    else (p, rules) :: append_rule persona br rest
  end.

(** [for br in business_rules]: the rules grouped by persona. *)
Fixpoint group_rules `{PyLib} (business_rules : list json) (groups : list (str * list json))
    : result (list (str * list json)) :=
  match business_rules with
  | [] => Ret groups
  | br :: rest =>
    rule_text ← get br "rule" (JStr []);
    match rule_text with
    | JStr s => group_rules rest (append_rule (_detect_persona s) br groups)
    | _ => Raise AttributeError
    end
  end.

(** [for fref in files] *)
Fixpoint evidence_lines `{PyLib} (files : list json) : result (list str) :=
  match files with
  | [] => Ret []
  | fref :: rest =>
    path ← get fref "path" (JStr []);
    ln ← get fref "line_numbers" (JStr []);
    more ← evidence_lines rest;
    Ret ((u "  # evidence: " ++ fmt path ++ u " " ++ fmt ln) :: more)
  end.

(** The lines of one rule. *)
Definition scenario_lines `{PyLib} (br : json) : result (list str) :=
  title ← get br "rule" (JStr (u "Regra"));
  files ← get br "files" (JArr []);
  frefs ← iterate files;
  ev ← evidence_lines frefs;
  Ret ([u "Scenario: " ++ fmt title;
        u "  Given uma situação relevante para a regra";
        u "  When a condição descrita na regra ocorre";
        u "  Then " ++ fmt title] ++ ev ++ [[]]).

Fixpoint rules_lines `{PyLib} (rules : list json) : result (list str) :=
  match rules with
  | [] => Ret []
  | br :: rest =>
    ls ← scenario_lines br;
    more ← rules_lines rest;
    Ret (ls ++ more)
  end.

(** The text of the file of one persona of one module. *)
Definition feature_text `{PyLib} (module_name functional_domain : json) (persona : str)
    (rules : list json) : result str :=
  body ← rules_lines rules;
  Ret (join [c_nl]
         ([u "Feature: " ++ fmt module_name ++ u " (" ++ fmt functional_domain ++ u ")";
           [];
           u "# Persona: " ++ persona;
           []] ++ body)).

Section Run.
Context `{PyLib}.
Variables (output_dir : str) (group_by_persona : bool).

(** One turn of [for persona, rules in persona_to_rules.items()]. *)
Definition write_feature (module_name functional_domain : json) (persona : str)
    (rules : list json) (fs : gmap str node) : gmap str node * result str :=
  match feature_text module_name functional_domain persona rules with
  | Raise e => (fs, Raise e)
  | Ret content =>
    let base_dir :=
      if group_by_persona then path_div (path_of_str output_dir) (path_of_str persona)
      else path_of_str output_dir in
    match mkdir_parents fs base_dir with
    | (fs1, Raise e) => (fs1, Raise e)
    | (fs1, Ret _) =>
      match _sanitize_filename module_name with
      | Raise e => (fs1, Raise e)
      | Ret safe =>
        let filepath := path_div base_dir (path_of_str (safe ++ u ".md")) in
        match write_text fs1 filepath content with
        | (fs2, Raise e) => (fs2, Raise e)
        | (fs2, Ret _) => (fs2, Ret (path_str filepath))
        end
      end
    end
  end.

Fixpoint write_groups (module_name functional_domain : json) (groups : list (str * list json))
    (fs : gmap str node) (written : list str) : gmap str node * result (list str) :=
  match groups with
  | [] => (fs, Ret written)
  | (persona, rules) :: rest =>
    match write_feature module_name functional_domain persona rules fs with
    | (fs', Raise e) => (fs', Raise e)
    | (fs', Ret filepath) =>
      write_groups module_name functional_domain rest fs' (written ++ [filepath])
    end
  end.

(** One turn of [for module in modules]. *)
Definition write_module (module : json) (fs : gmap str node) (written : list str)
    : gmap str node * result (list str) :=
  match
    (module_name ← get module "name" (JStr (u "Module"));
     functional_domain ← get module "functional_domain" (JStr []);
     business_rules ← get module "business_rules" (JArr []);
     brs ← iterate business_rules;
     groups ← group_rules brs [];
     Ret (module_name, functional_domain, groups))
  with
  | Raise e => (fs, Raise e)
  | Ret (module_name, functional_domain, groups) =>
    write_groups module_name functional_domain groups fs written
  end.

Fixpoint write_modules (modules : list json) (fs : gmap str node) (written : list str)
    : gmap str node * result (list str) :=
  match modules with
  | [] => (fs, Ret written)
  | module :: rest =>
    match write_module module fs written with
    | (fs', Raise e) => (fs', Raise e)
    | (fs', Ret written') => write_modules rest fs' written'
    end
  end.

End Run.

(** The result for an analysis that is missing or does not parse. *)
Definition error_result (analysis_path : str) : json :=
  JObj [(u "written", JArr []);
        (u "error", JStr (u "analysis.json não encontrado ou inválido em " ++ analysis_path))].

(** The analysis the generator works from: the file is there, can be
    read and parses. *)
Definition load_analysis (fs : gmap str node) (analysis_path : str) : option json :=
  let p := path_of_str analysis_path in
  if path_exists fs p then text ← read_text fs p; json_loads text
  else None.

(** [GenerateGherkinStoriesTool._run]: the file system it leaves and the
    value it gives to [json.dumps], or the exception that leaves it.
    [strict_mode] is not read by the source. *)
Definition _run `{PyLib} (fs : gmap str node) (analysis_path output_dir : str)
    (group_by_persona strict_mode : bool) : gmap str node * result json :=
  match load_analysis fs analysis_path with
  | None => (fs, Ret (error_result analysis_path))
  | Some analysis =>
    match (modules ← get analysis "modules" (JArr []); iterate modules) with
    | Raise e => (fs, Raise e)
    | Ret modules =>
      match write_modules output_dir group_by_persona modules fs [] with
      | (fs', Raise e) => (fs', Raise e)
      | (fs', Ret written) => (fs', Ret (JObj [(u "written", JArr (map JStr written))]))
      end
    end
  end.

End GenerateGherkinStoriesTool.

(* --------------------------------------------------------------------- *)
(** ** Reference descriptions and inputs used by the properties *)
(* --------------------------------------------------------------------- *)

Module SearchSpec.
Import SearchRepoPatternsTool.

(** Per-line presence: a line and a pattern give one record when the
    pattern is found in the line, none otherwise. *)
Definition line_hits `{PyLib} (compiled : list compiled) (context_lines : Z) (abs_path : str)
    (all_lines : list str) (idx : Z) (line : str) : list evidence :=
  flat_map (fun creg =>
              if re_search creg line
              then [make_evidence abs_path all_lines context_lines idx]
              else []) compiled.

(** The records of the lines from [idx] on, line by line, and for one
    line in the order of the patterns. *)
Fixpoint hits_from `{PyLib} (compiled : list compiled) (context_lines : Z) (abs_path : str)
    (all_lines : list str) (idx : Z) (lines : list str) : list evidence :=
  match lines with
  | [] => []
  | line :: rest =>
    line_hits compiled context_lines abs_path all_lines idx line
      ++ hits_from compiled context_lines abs_path all_lines (idx + 1)%Z rest
  end.

Definition all_hits `{PyLib} (compiled : list compiled) (context_lines : Z) (abs_path : str)
    (lines : list str) : list evidence :=
  hits_from compiled context_lines abs_path lines 1%Z lines.

(** The files of one directory that pass the filter, with the path each
    is opened under. *)
Definition step_candidates (root : pure_path) (include_globs exclude_globs : list str)
    (t : triple) : list (str * option str) :=
  omap (fun f =>
    let rel := rel_str (rel_dir t) (fst f) in
    if file_selected include_globs exclude_globs rel
    then Some (path_str (path_div root (path_of_str rel)), snd f)
    else None) (files t).

(** All of them, in the order of the walk. *)
Definition candidates (tree : option (list entry)) (repo_root : str)
    (include_globs exclude_globs : list str) : list (str * option str) :=
  flat_map (step_candidates (path_of_str repo_root) include_globs exclude_globs)
    (walk_root exclude_globs tree).

(** What one candidate contributes once opened. *)
Definition file_matches `{PyLib} (compiled : list compiled)
    (max_matches_per_file context_lines : Z) (f : str * option str) : list evidence :=
  match snd f with
  | Some text =>
    scan_file compiled max_matches_per_file context_lines (fst f) (readlines text) []
  | None => []
  end.

(** The lines of a file from [line_start] to [line_end], both counted
    from one and both included. *)
Definition lines_between (lines : list str) (line_start line_end : Z) : list str :=
  take (Z.to_nat (line_end - line_start + 1)) (drop (Z.to_nat (line_start - 1)) lines).

End SearchSpec.

(** A library in which [re] knows no pattern outside the modelled
    fragment and the tables above Latin-1 are trivial. *)
Definition plain_lib : PyLib := {|
  ext_regex := Empty_set;
  ext_compile := fun _ => None;
  ext_search := fun e _ => match e with end;
  finditer := fun _ _ => [];
  isalnum_hi := fun _ => false;
  lower_hi := fun c => [c];
  format_value := fun _ => []
|}.

(** A repository whose only directory is a top-level [node_modules]. *)
Definition node_modules_repo : list entry :=
  [EDir (u "node_modules") [EFile (u "index.js") (Some (u "export default 1"))]].

(** A repository with one file, directly in the root. *)
Definition readme_repo : list entry :=
  [EFile (u "README.md") (Some (u "hello"))].

(** A repository with three source files in [src]. *)
Definition three_files_repo : list entry :=
  [EDir (u "src")
     [EFile (u "a.py") (Some (u "export default a"));
      EFile (u "b.py") (Some (u "export default b"));
      EFile (u "c.py") (Some (u "export default c"))]].

Module GherkinSpec.
Import GenerateGherkinStoriesTool.

(** The four keyword groups of the specification, in their order, each
    with the persona it stands for. *)
Definition persona_groups : list (list str * str) :=
  [(map u ["admin"; "administrador"; "moderador"; "operador"]%string, u "Administrador");
   (map u ["jogador"; "player"]%string, u "Jogador");
   (map u ["sistema"; "api"; "serviço"; "servico"]%string, u "Sistema");
   (map u ["usuário"; "usuario"; "user"]%string, u "Usuário")].

(** [k] occurs in [t]. *)
Definition occurs_in (k t : str) : Prop := exists a b, t = a ++ k ++ b.

(** The text with its capital letters made small: the capitals of ASCII
    ([A] to [Z]) and of Latin-1 ([À] to [Þ], the sign [×] apart) are 32
    below their small letters; above Latin-1 the table of the library. *)
Definition spec_lower_char `{PyLib} (c : N) : str :=
  if c <? 0x100 then
    [if ((65 <=? c) && (c <=? 90)) || ((0xC0 <=? c) && (c <=? 0xDE) && negb (c =? 0xD7))
     then c + 32 else c]
  else lower_hi c.

Definition spec_lower `{PyLib} (s : str) : str := flat_map spec_lower_char s.

(** A group matches a text when one of its keywords occurs in it. *)
Definition group_matches (text : str) (g : list str * str) : Prop :=
  exists k, k ∈ fst g /\ occurs_in k text.

(** The classification as the specification words it: the first group
    that matches wins, and the persona is User when there is none. *)
Inductive first_match (text : str) : list (list str * str) -> str -> Prop :=
  | first_match_none : first_match text [] (u "Usuário")
  | first_match_here g gs :
      group_matches text g -> first_match text (g :: gs) (snd g)
  | first_match_next g gs persona :
      ~ group_matches text g -> first_match text gs persona ->
      first_match text (g :: gs) persona.

(** Does the value returned carry an [error] member? *)
Definition has_error_field (r : result json) : bool :=
  match r with
  | Ret (JObj ms) => bool_decide (is_Some (obj_get (u "error") ms))
  | _ => false
  end.

(** The analysis document of the scenario-literal test. *)
Definition auth_rule : json :=
  JObj [(u "rule", JStr (u "Password must be 8+ characters"));
        (u "files", JArr [JObj [(u "path", JStr (u "/repo/auth.ts"));
                                (u "line_numbers", JStr (u "L10-L12"))]])].

Definition auth_analysis : json :=
  JObj [(u "modules",
         JArr [JObj [(u "name", JStr (u "Auth"));
                     (u "functional_domain", JStr (u "Security"));
                     (u "business_rules", JArr [auth_rule])]])].

(** The same document as the text of a file. *)
Definition auth_analysis_text : str :=
  u "{'modules': [{'name': 'Auth', 'functional_domain': 'Security', 'business_rules': [{'rule': 'Password must be 8+ characters', 'files': [{'path': '/repo/auth.ts', 'line_numbers': 'L10-L12'}]}]}]}".

(** The lines of the file the generator writes for it. *)
Definition auth_feature_lines : list str :=
  [u "Feature: Auth (Security)";
   [];
   u "# Persona: Usuário";
   [];
   u "Scenario: Password must be 8+ characters";
   u "  Given uma situação relevante para a regra";
   u "  When a condição descrita na regra ocorre";
   u "  Then Password must be 8+ characters";
   u "  # evidence: /repo/auth.ts L10-L12";
   []].

(** A file system that holds the analysis of the test and nothing else. *)
Definition auth_fs : gmap str node :=
  {[ u "/work" := NDir;
     u "/work/analysis.json" := NFile (Some (replace_char 39 c_quote auth_analysis_text)) ]}.

(** A file system whose analysis file is not JSON. *)
Definition broken_fs : gmap str node :=
  {[ u "/work" := NDir; u "/work/analysis.json" := NFile (Some (u "{not json")) ]}.

(** A file system whose analysis file is JSON by its grammar, with an
    integer of 4301 digits: [json.loads] raises on it. *)
Definition long_integer_fs : gmap str node :=
  {[ u "/work" := NDir;
     u "/work/analysis.json" :=
       NFile (Some (replace_char 39 c_quote (u "{'modules': [], 'n': ")
                    ++ replicate 4301 49 ++ u "}")) ]}.

End GherkinSpec.

(** Every step below [rel] along [names] is one the pruning test of the
    loop body let through. *)
Fixpoint kept (exclude_globs : list str) (rel : list str) (names : list str) : bool :=
  match names with
  | [] => true
  | d :: rest => negb (dir_pruned exclude_globs rel d) && kept exclude_globs (rel ++ [d]) rest
  end.

(** The one pattern [export default], compiled. *)
Definition export_default : list (@compiled plain_lib) :=
  match SearchRepoPatternsTool.compile_all (H := plain_lib) [u "export default"] with
  | Ret cregs => cregs
  | Raise _ => []
  end.

(** A file of six lines whose third line has the pattern. *)
Definition six_lines : list str :=
  readlines (replace_char 124 c_nl (u "l1|l2|export default|l4|l5|l6")).


(* --------------------------------------------------------------------- *)
(** ** repo_mcp_tools.py: the rest of the lister, and the file reader *)
(* --------------------------------------------------------------------- *)

(** [s.rfind(a)], [None] for [-1]. *)
Fixpoint rfind_char (a : N) (s : str) : option nat :=
  match s with
  | [] => None
  | c :: s' =>
    match rfind_char a s' with
    | Some i => Some (S i)
    | None => if c =? a then Some O else None
    end
  end.

(** [os.path.splitext(p)[1]]: the text from the last dot of the last
    component on, when something other than a dot comes before it there. *)
Definition splitext_ext (p : str) : str :=
  let start := match rfind_char c_slash p with Some i => S i | None => O end in
  match rfind_char c_dot p with
  | Some d =>
    if bool_decide (start <= d)%nat
       && existsb (fun c => negb (c =? c_dot)) (take (d - start) (drop start p))
    then drop d p
    else []
  | None => []
  end.

(** The characters at which [str.splitlines] cuts. *)
Definition is_linebreak (c : N) : bool :=
  ((10 <=? c) && (c <=? 13)) || ((28 <=? c) && (c <=? 30)) ||
  (c =? 0x85) || (c =? 0x2028) || (c =? 0x2029).

Fixpoint splitlines_acc (acc : str) (s : str) : list str :=
  match s with
  | [] => match acc with [] => [] | _ => [reverse acc] end
  | c :: r =>
    if c =? c_cr then
      match r with
      | d :: r' => if d =? c_nl then reverse acc :: splitlines_acc [] r'
                   else reverse acc :: splitlines_acc [] r
      | [] => [reverse acc]
      end
    else if is_linebreak c then reverse acc :: splitlines_acc [] r
    else splitlines_acc (c :: acc) r
  end.

(** [s.splitlines()] *)
Definition splitlines (s : str) : list str := splitlines_acc [] s.

(** The text less its last character when that is a newline. *)
Fixpoint chomp (s : str) : str :=
  match s with
  | [] => []
  | c :: r =>
    match r with
    | [] => if c =? c_nl then [] else [c]
    | _ => c :: chomp r
    end
  end.

(** [json.dumps], taken from the library as it is. *)
Class JsonLib : Type := { json_dumps : json -> str }.

(** [open(name, "w")] and a write of text that encodes, [None] where it
    raises: the name must not end with a separator, the target must not
    be a directory and must lie in one. *)
Definition write_file (fs : gmap str node) (name : str) (content : str)
    : option (gmap str node) :=
  let p := path_of_str name in
  match last name, lookup_path fs p, lookup_path fs (parent p) with
  | None, _, _ => None
  | Some c, Some NDir, _ => None
  | Some c, _, Some NDir =>
    if c =? c_slash then None
    else Some (<[path_str p := NFile (Some content)]> fs)
  | _, _, _ => None
  end.

Module ListRepositoryFilesRun.
Import ListRepositoryFilesTool.

(** [extensions[ext] = extensions.get(ext, 0) + 1] *)
Fixpoint count_ext (ext : str) (extensions : list (str * Z)) : list (str * Z) :=
  match extensions with
  | [] => [(ext, 1%Z)]
  | (k, n) :: rest =>
    if str_eqb k ext then (k, (n + 1)%Z) :: rest
    else (k, n) :: count_ext ext rest
  end.

(** [os.path.splitext(path)[1].lower() or "<no_ext>"] *)
Definition ext_key `{PyLib} (path : str) : str :=
  match GenerateGherkinStoriesTool.lower (splitext_ext path) with
  | [] => u "<no_ext>"
  | e => e
  end.

(** [for path in files], from the statistics so far. *)
Definition extension_stats `{PyLib} (files : list str) : list (str * Z) :=
  foldl (fun exts path => count_ext (ext_key path) exts) [] files.

(** One step of the stable sort by count, largest first. *)
Fixpoint insert_by_count (x : str * Z) (l : list (str * Z)) : list (str * Z) :=
  match l with
  | [] => [x]
  | y :: rest =>
    if (snd y <=? snd x)%Z then x :: y :: rest
    else y :: insert_by_count x rest
  end.

(** [sorted(extensions.items(), key=lambda x: x[1], reverse=True)] *)
Definition sorted_by_count (l : list (str * Z)) : list (str * Z) :=
  foldr insert_by_count [] l.

(** The sum of the counts. *)
Definition stats_total (extensions : list (str * Z)) : Z :=
  foldr Z.add 0%Z (map snd extensions).

Definition result_json (files : list str) (extensions : list (str * Z)) : json :=
  JObj [(u "files", JArr (map JStr files));
        (u "extensions", JObj (map (fun kv => (fst kv, JInt (snd kv))) extensions));
        (u "count", JInt (Z.of_nat (length files)))].

Definition summary_json (output_file : str) (files : list str) (extensions : list (str * Z))
    : json :=
  JObj [(u "message", JStr (u "files written"));
        (u "output_file", JStr output_file);
        (u "count", JInt (Z.of_nat (length files)));
        (u "ext_top",
         JArr (map (fun kv => JArr [JStr (fst kv); JInt (snd kv)])
                 (take 10 (sorted_by_count extensions))))].

(** [ListRepositoryFilesTool._run]: the value given to [json.dumps], and
    the file system it leaves.  [tree] is the directory at [repo_root];
    [fs] is where [output_file] is written. *)
Definition _run `{PyLib} `{JsonLib} (tree : option (list entry)) (fs : gmap str node)
    (repo_root : str) (include_globs exclude_globs : option (list str))
    (max_files : Z) (output_file : option str) : gmap str node * json :=
  let files := _run_files tree repo_root include_globs exclude_globs max_files in
  let extensions := extension_stats files in
  let result := result_json files extensions in
  match output_file with
  | Some (c :: name) =>
    match write_file fs (c :: name) (json_dumps result) with
    | Some fs' => (fs', summary_json (c :: name) files extensions)
    | None => (fs, result)
    end
  | _ => (fs, result)
  end.

End ListRepositoryFilesRun.

Module ReadRepositoryFileTool.

(** [ReadRepositoryFileTool._run]; [file] is the text of the file as
    decoded, [None] when opening it raises. *)
Definition _run (file : option str) (start_line end_line : option Z) : str :=
  match file with
  | None => []
  | Some text =>
    let content := universal_newlines text in
    match start_line, end_line with
    | None, None => content
    | _, _ =>
      let lines := splitlines content in
      let s := match start_line with None => 1%Z | Some a => Z.max 1 a end in
      let e := match end_line with
               | None => Z.of_nat (length lines)
               | Some b => Z.max s b
               end in
      join [c_nl] (py_slice (s - 1) e lines)
    end
  end.

End ReadRepositoryFileTool.

(* --------------------------------------------------------------------- *)
(** ** chunk_tools.py *)
(* --------------------------------------------------------------------- *)

Module GetFileInfoTool.

(** [for _ in fh: line_count += 1] *)
Definition line_count (text : str) : Z := Z.of_nat (length (readlines text)).

(** [GetFileInfoTool._run]: [size] is what [os.path.getsize] gives and
    [file] the text of the file, [None] where the call raises; the file
    is not opened when the size cannot be had. *)
Definition _run (size : option Z) (file : option str) (file_path : str) : json :=
  let '(size_bytes, lines) :=
    match size, file with
    | None, _ => (0%Z, 0%Z)
    | Some n, None => (n, 0%Z)
    | Some n, Some text => (n, line_count text)
    end in
  JObj [(u "path", JStr file_path); (u "size_bytes", JInt size_bytes);
        (u "line_count", JInt lines)].

End GetFileInfoTool.

Module ReadFileChunkTool.

Record chunk : Type := Chunk {
  path : str;
  line_start : Z;
  line_end : Z;
  code_snippet : str
}.

Definition chunk_json (c : chunk) : json :=
  JObj [(u "path", JStr (path c)); (u "line_start", JInt (line_start c));
        (u "line_end", JInt (line_end c)); (u "code_snippet", JStr (code_snippet c))].

(** [for idx, line in enumerate(fh, start=1)] from line [idx] on, with
    [content] and [actual_end] as they are there. *)
Fixpoint read_lines (start_line end_line idx : Z) (lines : list str)
    (content : str) (actual_end : Z) : str * Z :=
  match lines with
  | [] => (content, actual_end)
  | line :: rest =>
    if (idx <? start_line)%Z then
      read_lines start_line end_line (idx + 1)%Z rest content actual_end
    else if (end_line <? idx)%Z then (content, actual_end)
    else read_lines start_line end_line (idx + 1)%Z rest (content ++ line) idx
  end.

(** [ReadFileChunkTool._run]: the dict given to [json.dumps]. *)
Definition _run (file : option str) (file_path : str) (start_line num_lines : Z)
    (max_chars : option Z) : chunk :=
  let start_line := if (start_line <? 1)%Z then 1%Z else start_line in
  let end_line := (start_line + num_lines - 1)%Z in
  let '(content, actual_end) :=
    match file with
    | Some text =>
      read_lines start_line end_line 1%Z (readlines text) [] (start_line - 1)%Z
    | None => ([], (start_line - 1)%Z)
    end in
  let content :=
    match max_chars with
    | Some n => if (n <? Z.of_nat (length content))%Z then py_slice 0 n content else content
    | None => content
    end in
  Chunk file_path start_line actual_end (strip content).

End ReadFileChunkTool.

(* --------------------------------------------------------------------- *)
(** ** user_histories/tools.py: the two file tools *)
(* --------------------------------------------------------------------- *)

Module ReadAnalysisJSONTool.

Definition _run (fs : gmap str node) (analysis_path : str) : str :=
  let p := path_of_str analysis_path in
  if path_exists fs p then default (u "{}") (read_text fs p)
  else u "{}".

End ReadAnalysisJSONTool.

Module WriteMarkdownTool.

Definition _run (fs : gmap str node) (output_dir filename content : str)
    : gmap str node * result str :=
  let out := path_of_str output_dir in
  match mkdir_parents fs out with
  | (fs1, Raise e) => (fs1, Raise e)
  | (fs1, Ret _) =>
    let path := path_div out (path_of_str filename) in
    match write_text fs1 path content with
    | (fs2, Raise e) => (fs2, Raise e)
    | (fs2, Ret _) => (fs2, Ret (path_str path))
    end
  end.

End WriteMarkdownTool.


(* --------------------------------------------------------------------- *)
(** ** What the theorems on the generator and the file tools speak of *)
(* --------------------------------------------------------------------- *)

Module GeneratorSpec.
Import GenerateGherkinStoriesTool.

(** The four names [_detect_persona] can return. *)
Definition personas : list str :=
  map u ["Administrador"; "Jogador"; "Sistema"; "Usuário"]%string.

(** The persona the grouping loop finds for a rule, when it finds one. *)
Definition rule_persona `{PyLib} (br : json) : option str :=
  match get br "rule" (JStr []) with
  | Ret (JStr s) => Some (_detect_persona s)
  | _ => None
  end.

(** A character a sanitized file name can hold. *)
Definition filename_char `{PyLib} (c : N) : bool :=
  isalnum_char c || (c =? c_hyphen) || (c =? c_underscore).

(** Nothing of [fs] is gone in [fs'], and what was a directory or a file
    still is one. *)
Definition kinds_kept (fs fs' : gmap str node) : Prop :=
  forall k n, fs !! k = Some n ->
    exists n', fs' !! k = Some n' /\ (n = NDir <-> n' = NDir).

(** There is a regular file at [k]. *)
Definition is_file_at (fs : gmap str node) (k : str) : Prop :=
  exists text, fs !! k = Some (NFile text).

(** A module that has no business rule: an object whose
    [business_rules] is missing or an empty list. *)
Definition no_rules (module : json) : bool :=
  match module with
  | JObj ms =>
    match obj_get (u "business_rules") ms with
    | None | Some (JArr []) => true
    | _ => false
    end
  | _ => false
  end.

End GeneratorSpec.

(* --------------------------------------------------------------------- *)
(** ** More inputs used by the properties *)
(* --------------------------------------------------------------------- *)

(** A library whose [re] finds one thing: the URL in the line
    [see http://a.b/c], as the pattern [http_url] does. *)
Definition url_lib : PyLib := {|
  ext_regex := Empty_set;
  ext_compile := fun _ => None;
  ext_search := fun e _ => match e with end;
  finditer := fun key text =>
    if str_eqb key (u "http_url") && str_eqb text (u "see http://a.b/c")
    then [RMatch 4 16 (u "http://a.b/c") []]
    else [];
  isalnum_hi := fun _ => false;
  lower_hi := fun c => [c];
  format_value := fun _ => []
|}.

(** A repository with one file, which holds that line. *)
Definition url_repo : list entry :=
  [EDir (u "src") [EFile (u "api.js") (Some (u "see http://a.b/c"))]].

(** A schema file of two lines, and the match of [CREATE TABLE t (] on
    its second line. *)
Definition schema_text : str := u "-- users" ++ [c_nl] ++ u "CREATE TABLE t (".

Definition schema_match : rmatch := RMatch 9 25 (u "CREATE TABLE t (") [].

(** A payload that is a configuration. *)
Definition config_payload : str :=
  replace_char 39 c_quote (u "{'repo_root': '/r', 'patterns': ['a']}").

(** A file system whose analysis has two modules and no business rule,
    and one whose analysis is a list. *)
Definition no_rules_fs : gmap str node :=
  {[ u "/work" := NDir;
     u "/work/analysis.json" :=
       NFile (Some (replace_char 39 c_quote
                      (u "{'modules': [{'name': 'A'}, {'name': 'B', 'business_rules': []}]}"))) ]}.

Definition list_analysis_fs : gmap str node :=
  {[ u "/work" := NDir; u "/work/analysis.json" := NFile (Some (u "[1, 2]")) ]}.

(** Four rules of three personas: the first and the third go to the
    administrator, though the first also names the player. *)
Definition rule_of (text : string) : json := JObj [(u "rule", JStr (u text))].

Definition four_rules : list json :=
  [rule_of "Admin can ban a player"; rule_of "Player earns points";
   rule_of "Moderador reviews reports"; rule_of "Password must be 8+ characters"].

Definition four_rules_groups : list (str * list json) :=
  [(u "Administrador", [rule_of "Admin can ban a player"; rule_of "Moderador reviews reports"]);
   (u "Jogador", [rule_of "Player earns points"]);
   (u "Usuário", [rule_of "Password must be 8+ characters"])].


(** A text of three lines. *)
Definition three_lines : str := replace_char 124 c_nl (u "one|two|three").

(* ===================================================================== *)
(** * Part II: the properties                                             *)
(* ===================================================================== *)

Section SearchProps.
Context `{PyLib}.
Import SearchRepoPatternsTool SearchSpec.

Variables (cregs : list compiled) (max_matches_per_file context_lines : Z).
Variable abs_path : str.

Local Abbreviation m := max_matches_per_file.

Lemma scan_patterns_spec ev line cs res n :
  (n < m)%Z ->
  let hs := flat_map (fun creg => if re_search creg line then [ev] else []) cs in
  scan_patterns m ev line cs (res, n)
  = (res ++ take (Z.to_nat (m - n)) hs,
     (n + Z.of_nat (length (take (Z.to_nat (m - n)) hs)))%Z).
Proof.
  revert res n. induction cs as [|creg rest IH]; intros res n Hn; simpl.
  - rewrite take_nil, app_nil_r. simpl. f_equal. lia.
  - destruct (re_search creg line); simpl.
    + destruct (Z.geb_spec (n + 1) m) as [Hge|Hlt].
      * replace (Z.to_nat (m - n)) with 1%nat by lia. simpl.
        rewrite take_0. reflexivity.
      * rewrite IH by lia.
        replace (Z.to_nat (m - n)) with (S (Z.to_nat (m - (n + 1)))) by lia.
        simpl. rewrite <- app_assoc. simpl. f_equal. lia.
    + apply IH; lia.
Qed.

(** Once the count has reached the cap, the first match on a line ends the loop. *)
Lemma scan_patterns_capped ev line cs res n :
  (m <= n + 1)%Z ->
  let hs := flat_map (fun creg => if re_search creg line then [ev] else []) cs in
  scan_patterns m ev line cs (res, n)
  = (res ++ take 1 hs, (n + Z.of_nat (length (take 1 hs)))%Z).
Proof.
  revert res n. induction cs as [|creg rest IH]; intros res n Hn; simpl.
  - rewrite app_nil_r. f_equal. lia.
  - destruct (re_search creg line); simpl.
    + destruct (Z.geb_spec (n + 1) m) as [Hge|Hlt]; [|lia].
      rewrite take_0. reflexivity.
    + apply IH; lia.
Qed.

Lemma scan_lines_spec all_lines idx lines res n :
  (n < m)%Z ->
  let hs := hits_from cregs context_lines abs_path all_lines idx lines in
  scan_lines cregs m context_lines abs_path all_lines idx lines (res, n)
  = (res ++ take (Z.to_nat (m - n)) hs,
     (n + Z.of_nat (length (take (Z.to_nat (m - n)) hs)))%Z).
Proof.
  revert idx res n. induction lines as [|line rest IH]; intros idx res n Hn; simpl.
  - rewrite take_nil, app_nil_r. simpl. f_equal. lia.
  - rewrite scan_patterns_spec by lia.
    fold (line_hits cregs context_lines abs_path all_lines idx line).
    set (lh := line_hits cregs context_lines abs_path all_lines idx line).
    set (rh := hits_from cregs context_lines abs_path all_lines (idx + 1) rest).
    cbn [snd].
    destruct (Z.geb_spec (n + Z.of_nat (length (take (Z.to_nat (m - n)) lh))) m) as [Hge|Hlt].
    + rewrite length_take in Hge.
      assert (Hle : (Z.to_nat (m - n) <= length lh)%nat).
      { destruct (Nat.min_spec (Z.to_nat (m - n)) (length lh)) as [[? E]|[? E]];
          rewrite E in Hge; lia. }
      rewrite take_app_le by exact Hle. reflexivity.
    + rewrite length_take in Hlt.
      assert (Hle : (length lh <= Z.to_nat (m - n))%nat).
      { destruct (Nat.min_spec (Z.to_nat (m - n)) (length lh)) as [[? E]|[? E]];
          rewrite E in Hlt; lia. }
      rewrite Nat.min_r in Hlt by exact Hle.
      rewrite IH by (rewrite length_take, Nat.min_r by exact Hle; lia).
      rewrite length_take.
      rewrite (take_ge lh) by exact Hle.
      rewrite Nat.min_r by exact Hle.
      rewrite take_app_ge by exact Hle.
      replace (Z.to_nat (m - (n + Z.of_nat (length lh)))) with (Z.to_nat (m - n) - length lh)%nat by lia.
      rewrite <- app_assoc. f_equal.
      rewrite length_app, !length_take. subst lh rh. lia.
Qed.

(** With a cap of at least one, a file gives its first [m] hits. *)
Lemma scan_file_spec lines res :
  (1 <= m)%Z ->
  scan_file cregs m context_lines abs_path lines res
  = res ++ take (Z.to_nat m) (SearchSpec.all_hits cregs context_lines abs_path lines).
Proof.
  intros Hm. unfold scan_file, SearchSpec.all_hits.
  rewrite scan_lines_spec by lia. cbn [fst]. now rewrite Z.sub_0_r.
Qed.

(** With a cap below one, only the first line is looked at, and its
    first hit is taken. *)
Lemma scan_file_capped line rest res :
  (m <= 0)%Z ->
  scan_file cregs m context_lines abs_path (line :: rest) res
  = res ++ take 1 (line_hits cregs context_lines abs_path (line :: rest) 1 line).
Proof.
  intros Hm. unfold scan_file. cbn [scan_lines].
  rewrite scan_patterns_capped by lia. cbn [snd fst].
  destruct (Z.geb_spec (0 + Z.of_nat (length (take 1 (flat_map
    (λ creg, if re_search creg line
             then [make_evidence abs_path (line :: rest) context_lines 1] else [])
    cregs)))) m) as [_|Hlt]; [reflexivity|lia].
Qed.

Lemma scan_file_nil res :
  scan_file cregs m context_lines abs_path [] res = res.
Proof. reflexivity. Qed.

(** What a file adds does not depend on what was found before it. *)
Lemma scan_file_app lines res :
  scan_file cregs m context_lines abs_path lines res
  = res ++ scan_file cregs m context_lines abs_path lines [].
Proof.
  destruct (Z.le_gt_cases 1 m) as [Hm|Hm].
  - now rewrite !scan_file_spec.
  - destruct lines as [|line rest].
    + now rewrite !scan_file_nil, app_nil_r.
    + now rewrite !scan_file_capped by lia.
Qed.

(** The records of a file are the first ones of its hits. *)
Lemma scan_file_prefix lines :
  scan_file cregs m context_lines abs_path lines []
    `prefix_of` all_hits cregs context_lines abs_path lines.
Proof.
  destruct (Z.le_gt_cases 1 m) as [Hm|Hm].
  - rewrite scan_file_spec by lia. apply prefix_take.
  - destruct lines as [|line rest].
    + rewrite scan_file_nil. apply prefix_nil.
    + rewrite scan_file_capped by lia. cbn [app].
      unfold all_hits. cbn [hits_from].
      etransitivity; [apply prefix_take|]. now apply prefix_app_r.
Qed.

(** A file never gives more than [max(1, m)] records. *)
Lemma scan_file_length lines :
  (length (scan_file cregs m context_lines abs_path lines []) <= Z.to_nat (Z.max 1 m))%nat.
Proof.
  destruct (Z.le_gt_cases 1 m) as [Hm|Hm].
  - rewrite scan_file_spec by lia. cbn [app]. rewrite length_take. lia.
  - destruct lines as [|line rest].
    + rewrite scan_file_nil. simpl. lia.
    + rewrite scan_file_capped by lia. cbn [app]. rewrite length_take. lia.
Qed.

(** Where a hit comes from. *)
Lemma elem_of_hits_from all_lines idx lines e :
  e ∈ hits_from cregs context_lines abs_path all_lines idx lines ->
  exists (k : nat) (line : str) (creg : compiled),
    lines !! k = Some line /\ creg ∈ cregs /\ re_search creg line = true /\
    e = make_evidence abs_path all_lines context_lines (idx + Z.of_nat k).
Proof.
  revert idx. induction lines as [|line rest IH]; intros idx; cbn [hits_from].
  - intros Hin. inversion Hin.
  - rewrite elem_of_app. intros [Hin|Hin].
    + unfold line_hits in Hin. apply list_elem_of_In, in_flat_map in Hin.
      destruct Hin as (creg & Hc & Hin).
      destruct (re_search creg line) eqn:Hs; [|inversion Hin].
      destruct Hin as [<-|[]].
      exists 0%nat, line, creg. rewrite Z.add_0_r.
      split; [reflexivity|]. split; [now apply list_elem_of_In|]. now split.
    + destruct (IH _ Hin) as (k & l & creg & Hk & Hc & Hs & ->).
      exists (S k), l, creg. split; [exact Hk|]. split; [exact Hc|].
      split; [exact Hs|]. f_equal. lia.
Qed.

End SearchProps.

Section WalkProps.
Context `{PyLib}.
Import SearchRepoPatternsTool SearchSpec.

Variables (root : pure_path) (cregs : list compiled).
Variables (include_globs exclude_globs : list str).
Variables (max_matches_per_file context_lines max_files : Z).

Local Abbreviation fm := (file_matches cregs max_matches_per_file context_lines).
Local Abbreviation cands_of := (step_candidates root include_globs exclude_globs).
Local Abbreviation filenames_loop :=
  (scan_filenames root cregs include_globs exclude_globs
     max_matches_per_file context_lines max_files).
Local Abbreviation walk_loop :=
  (scan_walk root cregs include_globs exclude_globs
     max_matches_per_file context_lines max_files).

(** The loop over the files of one directory: the candidates are taken
    while the count stays within the cap; the first one beyond it ends
    the loop and leaves the count above the cap. *)
Lemma scan_filenames_spec rel fs st :
  let cs := cands_of (Triple rel fs) in
  let room := Z.to_nat (max_files - file_count st) in
  filenames_loop rel fs st =
  if decide (length cs <= room)%nat
  then ScanState (results st ++ flat_map fm cs)
                 (file_count st + Z.of_nat (length cs))
                 (opened st ++ map fst cs)
  else ScanState (results st ++ flat_map fm (take room cs))
                 (file_count st + Z.of_nat room + 1)
                 (opened st ++ map fst (take room cs)).
Proof.
  revert st. induction fs as [|[f content] rest IH]; intros st; cbn zeta.
  - cbn. rewrite !app_nil_r, Z.add_0_r. destruct st; cbn.
    destruct (decide _); [reflexivity|lia].
  - assert (Hcs : cands_of (Triple rel ((f, content) :: rest))
                  = (if file_selected include_globs exclude_globs (rel_str rel f)
                     then [(path_str (path_div root (path_of_str (rel_str rel f))), content)]
                     else []) ++ cands_of (Triple rel rest)).
    { unfold step_candidates. cbn [files rel_dir omap list_omap fst snd].
      now destruct (file_selected _ _ _). }
    rewrite Hcs. clear Hcs. cbn [scan_filenames].
    set (cs := cands_of (Triple rel rest)) in *.
    set (abs := path_str (path_div root (path_of_str (rel_str rel f)))).
    destruct (file_selected include_globs exclude_globs (rel_str rel f)) eqn:Hsel;
      cbn [negb app]; [|apply IH].
    destruct (Z.gtb_spec (file_count st + 1) max_files) as [Hgt|Hle].
    + replace (Z.to_nat (max_files - file_count st)) with 0%nat by lia.
      cbn [length]. destruct (decide _) as [Hd|_]; [lia|].
      cbn. rewrite !app_nil_r. f_equal. lia.
    + assert (IH' := fun r => IH (ScanState r (file_count st + 1) (opened st ++ [abs]))).
      cbn [file_count results opened] in IH'.
      replace (Z.to_nat (max_files - file_count st))
        with (S (Z.to_nat (max_files - (file_count st + 1)))) by lia.
      set (room := Z.to_nat (max_files - (file_count st + 1))) in *.
      cbn [length take flat_map map fst].
      assert (Hfm : (match content with
                 | Some text => scan_file cregs max_matches_per_file context_lines abs
                                  (readlines text) (results st)
                 | None => results st end) = results st ++ fm (abs, content)).
      { unfold file_matches. cbn [fst snd]. destruct content.
        - apply scan_file_app.
        - now rewrite app_nil_r. }
      assert (Hgoal : forall r, r = results st ++ fm (abs, content) ->
        filenames_loop rel rest (ScanState r (file_count st + 1) (opened st ++ [abs])) =
        if decide (S (length cs) <= S room)%nat
        then ScanState (results st ++ fm (abs, content) ++ flat_map fm cs)
               (file_count st + Z.of_nat (S (length cs)))
               (opened st ++ abs :: map fst cs)
        else ScanState (results st ++ fm (abs, content) ++ flat_map fm (take room cs))
               (file_count st + Z.of_nat (S room) + 1)
               (opened st ++ abs :: map fst (take room cs))).
      { intros r ->. rewrite IH'.
        destruct (decide (length cs <= room)%nat), (decide (S (length cs) <= S room)%nat);
          try lia; rewrite <- !app_assoc; cbn [app]; f_equal; lia. }
      destruct content as [text|]; apply Hgoal; [exact Hfm|].
      unfold file_matches. cbn [snd]. now rewrite app_nil_r.
Qed.

(** The loop over the walk: what has been opened and what has been found
    when it ends. *)
Lemma scan_walk_spec steps st :
  let cs := flat_map cands_of steps in
  let room := Z.to_nat (max_files - file_count st) in
  results (walk_loop steps st) = results st ++ flat_map fm (take room cs) /\
  opened (walk_loop steps st) = opened st ++ map fst (take room cs).
Proof.
  revert st. induction steps as [|t rest IH]; intros st; cbn zeta.
  - cbn. now rewrite take_nil, !app_nil_r.
  - cbn [scan_walk flat_map]. destruct t as [rel fs]. cbn [rel_dir files].
    rewrite scan_filenames_spec. cbn zeta.
    set (cs := cands_of (Triple rel fs)).
    set (room := Z.to_nat (max_files - file_count st)).
    destruct (decide (length cs <= room)%nat) as [Hfit|Hover].
    + cbn [file_count].
      destruct (Z.gtb_spec (file_count st + Z.of_nat (length cs)) max_files) as [Hgt|Hle].
      * assert (room = 0%nat) by (subst room; lia).
        assert (cs = []) by (destruct cs; [reflexivity|cbn in Hfit; lia]).
        cbn [results opened]. replace room with 0%nat. rewrite !take_0.
        subst cs. replace (cands_of (Triple rel fs)) with (@nil (str * option str)).
        cbn. now rewrite !app_nil_r.
      * specialize (IH (ScanState (results st ++ flat_map fm cs)
                          (file_count st + Z.of_nat (length cs))
                          (opened st ++ map fst cs))).
        cbn zeta in IH. cbn [file_count results opened] in IH.
        destruct IH as [IHr IHo]. rewrite IHr, IHo.
        replace (Z.to_nat (max_files - (file_count st + Z.of_nat (length cs))))
          with (room - length cs)%nat by (subst room; lia).
        rewrite take_app_ge by exact Hfit.
        rewrite flat_map_app, map_app, <- !app_assoc. split; reflexivity.
    + cbn [file_count].
      destruct (Z.gtb_spec (file_count st + Z.of_nat room + 1) max_files) as [Hgt|Hle];
        [|subst room; lia].
      cbn [results opened]. rewrite take_app_le by lia. split; reflexivity.
Qed.

End WalkProps.

Section SearchTheorems.
Context `{PyLib}.
Import SearchRepoPatternsTool SearchSpec.

Lemma length_remove_dups_le (l : list str) :
  (length (remove_dups l) <= length l)%nat.
Proof.
  induction l as [|x l IH]; cbn; [lia|].
  destruct (decide_rel _ x l); cbn; lia.
Qed.

Lemma all_hits_no_pattern context_lines abs_path all_lines idx lines :
  hits_from [] context_lines abs_path all_lines idx lines = [].
Proof.
  revert idx. induction lines as [|l rest IH]; intros idx; cbn; [reflexivity|apply IH].
Qed.

Lemma file_matches_no_pattern max_matches_per_file context_lines f :
  file_matches [] max_matches_per_file context_lines f = [].
Proof.
  unfold file_matches. destruct (snd f) as [text|]; [|reflexivity].
  pose proof (scan_file_prefix [] max_matches_per_file context_lines (fst f) (readlines text))
    as Hp.
  unfold all_hits in Hp. rewrite all_hits_no_pattern in Hp.
  now apply prefix_nil_inv in Hp.
Qed.

(** What the walk of [_run] opens and finds, for any cap. *)
Lemma scan_spec tree repo_root cregs include_globs exclude_globs
    max_matches_per_file context_lines max_files :
  let cands := candidates tree repo_root include_globs exclude_globs in
  let st := scan tree repo_root cregs include_globs exclude_globs
              max_matches_per_file context_lines max_files in
  results st = flat_map (file_matches cregs max_matches_per_file context_lines)
                 (take (Z.to_nat max_files) cands) /\
  opened st = map fst (take (Z.to_nat max_files) cands).
Proof.
  cbn zeta. unfold scan, candidates.
  pose proof (scan_walk_spec (path_of_str repo_root) cregs include_globs exclude_globs
                max_matches_per_file context_lines max_files
                (walk_root exclude_globs tree) (ScanState [] 0%Z [])) as Hw.
  cbn zeta in Hw. cbn [file_count results opened app] in Hw.
  now rewrite Z.sub_0_r in Hw.
Qed.

(** C2. Cap invariant of the generic pattern scan: with [max_files = k],
    the files opened are exactly the first [k] files that pass the glob
    filter, in walk order, so at most [k] distinct files are opened and
    none once the cap is reached; the run does not fail, and returns the
    records found in the files opened up to that point. *)
Theorem cap_invariant tree repo_root patterns cregs include_globs exclude_globs
    max_matches_per_file context_lines k :
  compile_all patterns = Ret cregs ->
  (0 <= k)%Z ->
  let incl := or_default include_globs default_include_globs in
  let excl := or_default exclude_globs default_exclude_globs in
  let cands := candidates tree repo_root incl excl in
  let st := scan tree repo_root cregs incl excl max_matches_per_file context_lines k in
  opened st = map fst (take (Z.to_nat k) cands) /\
  (Z.of_nat (length (remove_dups (opened st))) <= k)%Z /\
  results st = flat_map (file_matches cregs max_matches_per_file context_lines)
                 (take (Z.to_nat k) cands) /\
  _run tree repo_root patterns include_globs exclude_globs
    max_matches_per_file context_lines k
  = Ret (JObj [(u "matches", JArr (map evidence_json (results st)))]).
Proof.
  intros Hc Hk incl excl cands st.
  destruct (scan_spec tree repo_root cregs incl excl max_matches_per_file context_lines k)
    as [Hr Ho].
  fold cands st in Hr, Ho.
  split; [exact Ho|]. split; [|split; [exact Hr|]].
  - pose proof (length_remove_dups_le (opened st)) as Hd.
    assert (Hl : (length (opened st) <= Z.to_nat k)%nat).
    { rewrite Ho, length_map, length_take. apply Nat.le_min_l. }
    lia.
  - unfold _run. rewrite Hc. cbn [mbind result_bind]. fold incl excl st.
    destruct cregs as [|creg rest]; [|reflexivity].
    rewrite Hr.
    replace (flat_map (file_matches [] max_matches_per_file context_lines)
               (take (Z.to_nat k) cands)) with (@nil evidence); [reflexivity|].
    clear. induction (take (Z.to_nat k) cands) as [|f fs IH]; [reflexivity|].
    cbn [flat_map]. rewrite file_matches_no_pattern. exact IH.
Qed.

(** C3, at the failing input: with [max_matches_per_file = 0] every one
    of the three files still contributes one record. *)
Theorem zero_cap_emits_one_record_per_file :
  _run (Some three_files_repo) (u "/repo") [u "export default"] None None 0 2 2000
  = Ret (JObj [(u "matches", JArr (map evidence_json
        [Evidence (u "/repo/src/a.py") 1 1 (u "export default a");
         Evidence (u "/repo/src/b.py") 1 1 (u "export default b");
         Evidence (u "/repo/src/c.py") 1 1 (u "export default c")]))]).
Proof. vm_compute. reflexivity. Qed.

(** C7, amended. Context bounds of the generic scanner: with
    [context_lines = c >= 0], every record a file of [total] lines gives
    comes from a line [i] (counted from one) in which one of the patterns
    is found; it has [line_start = max(1, i - c)] and [line_end =
    min(total, i + c)], so [1 <= line_start <= line_end <= total], and its
    snippet is the joined lines from [line_start] to [line_end] with the
    blanks at both ends stripped. *)
Theorem context_bounds cregs max_matches_per_file c abs_path lines e :
  (0 <= c)%Z ->
  e ∈ scan_file cregs max_matches_per_file c abs_path lines [] ->
  let total := Z.of_nat (length lines) in
  exists (i : Z) (line : str) (creg : compiled),
    lines !! Z.to_nat (i - 1) = Some line /\ (1 <= i <= total)%Z /\
    creg ∈ cregs /\ re_search creg line = true /\
    path e = abs_path /\
    line_start e = Z.max 1 (i - c) /\
    line_end e = Z.min total (i + c) /\
    (1 <= line_start e)%Z /\ (line_end e <= total)%Z /\ (line_start e <= line_end e)%Z /\
    code_snippet e = strip (concat (lines_between lines (line_start e) (line_end e))).
Proof.
  intros Hc Hin total.
  pose proof (scan_file_prefix cregs max_matches_per_file c abs_path lines) as [rest Hp].
  assert (Hall : e ∈ all_hits cregs c abs_path lines).
  { rewrite Hp. apply elem_of_app. now left. }
  apply elem_of_hits_from in Hall as (k & line & creg & Hk & Hcreg & Hs & ->).
  pose proof (lookup_lt_Some _ _ _ Hk) as Hlt.
  exists (1 + Z.of_nat k)%Z, line, creg.
  replace (Z.to_nat (1 + Z.of_nat k - 1)) with k by lia.
  split; [exact Hk|]. split; [subst total; lia|].
  split; [exact Hcreg|]. split; [exact Hs|].
  cbn [make_evidence path line_start line_end code_snippet]. fold total.
  split; [reflexivity|]. split; [reflexivity|]. split; [reflexivity|].
  split; [lia|]. split; [lia|]. split; [subst total; lia|].
  f_equal. f_equal. unfold py_slice, lines_between, slice_index. fold total.
  set (s := Z.max 1 (1 + Z.of_nat k - c)). set (t := Z.min total (1 + Z.of_nat k + c)).
  assert (1 <= s <= t)%Z by (subst s t total; lia).
  assert (t <= total)%Z by (subst t; lia).
  destruct (Z.ltb_spec (s - 1) 0); [lia|]. destruct (Z.ltb_spec t 0); [lia|].
  f_equal; [|f_equal]; lia.
Qed.

(** C10. Per-line presence in the generic scanner: the records of a file
    are the first ones of the sequence that has, for every line in order
    and every pattern in order, one record when the pattern is found in
    the line and none otherwise; for one line that is as many records as
    patterns found in it, however often each occurs.  The endpoint
    scanner, for one line and one pattern, gives as many records as
    [finditer] gives matches. *)
Theorem one_record_per_line_and_pattern cregs max_matches_per_file context_lines
    abs_path lines :
  scan_file cregs max_matches_per_file context_lines abs_path lines []
    `prefix_of` all_hits cregs context_lines abs_path lines /\
  (forall all_lines idx line,
     length (line_hits cregs context_lines abs_path all_lines idx line)
     = length (filter (fun creg => re_search creg line = true) cregs)) /\
  (forall all_lines idx line creg,
     (length (line_hits [creg] context_lines abs_path all_lines idx line) <= 1)%nat) /\
  (forall idx line key,
     length (EndpointScannerTool.scan_pattern abs_path idx line key)
     = length (finditer key line)).
Proof.
  split; [apply scan_file_prefix|]. split; [|split].
  - intros all_lines idx line. unfold line_hits.
    induction cregs as [|creg rest IH]; [reflexivity|].
    cbn [flat_map filter list_filter].
    destruct (decide (re_search creg line = true)) as [->|Hn].
    + cbn. now rewrite IH.
    + destruct (re_search creg line); [congruence|]. cbn. exact IH.
  - intros all_lines idx line creg. unfold line_hits. cbn.
    destruct (re_search creg line); cbn; lia.
  - intros idx line key. unfold EndpointScannerTool.scan_pattern. apply length_map.
Qed.

End SearchTheorems.

(** The cap at work: of three files, a cap of two opens the first two. *)
Lemma cap_invariant_witness :
  SearchRepoPatternsTool.opened
    (SearchRepoPatternsTool.scan (H := plain_lib) (Some three_files_repo) (u "/repo")
       export_default SearchRepoPatternsTool.default_include_globs
       SearchRepoPatternsTool.default_exclude_globs 5 2 2)
  = [u "/repo/src/a.py"; u "/repo/src/b.py"] /\
  SearchRepoPatternsTool._run (H := plain_lib) (Some three_files_repo) (u "/repo")
    [u "export default"] None None 5 2 2
  = Ret (JObj [(u "matches", JArr (map SearchRepoPatternsTool.evidence_json
        [SearchRepoPatternsTool.Evidence (u "/repo/src/a.py") 1 1 (u "export default a");
         SearchRepoPatternsTool.Evidence (u "/repo/src/b.py") 1 1 (u "export default b")]))]).
Proof.
  destruct (cap_invariant (H := plain_lib) (Some three_files_repo) (u "/repo")
              [u "export default"] export_default None None 5 2 2)
    as (Ho & _ & _ & Hrun).
  - vm_compute. reflexivity.
  - lia.
  - split.
    + etransitivity; [exact Ho|]. vm_compute. reflexivity.
    + etransitivity; [exact Hrun|]. vm_compute. reflexivity.
Defined.

(** The bounds at work: a match on line 3 of 6 with two lines of context. *)
Lemma context_bounds_witness :
  exists (i : Z) (line : str),
    six_lines !! Z.to_nat (i - 1) = Some line /\ (1 <= i <= 6)%Z /\
    Z.max 1 (i - 2) = 1%Z /\ Z.min 6 (i + 2) = 5%Z.
Proof.
  destruct (context_bounds (H := plain_lib) export_default 5 2 (u "/repo/a.py") six_lines
              (SearchRepoPatternsTool.Evidence (u "/repo/a.py") 1 5
                 (replace_char 124 c_nl (u "l1|l2|export default|l4|l5"))))
    as (i & line & creg & Hl & Hi & _ & _ & _ & Hs & He & _).
  - lia.
  - vm_compute. constructor.
  - exists i, line. split; [exact Hl|]. split; [exact Hi|].
    split; [symmetry; exact Hs|]. symmetry; exact He.
Defined.

(** C7, as stated, fails: a file whose only line is [export default 1]
    followed by a newline gives, with two lines of context, one record
    for lines 1 to 1 whose snippet is not the joined lines of that range:
    the newline at the end has been stripped. *)
Lemma snippet_is_not_the_joined_lines :
  let lines := readlines (u "export default 1" ++ [c_nl]) in
  exists e,
    e ∈ SearchRepoPatternsTool.scan_file (H := plain_lib) export_default 5 2
          (u "/repo/a.py") lines [] /\
    SearchRepoPatternsTool.code_snippet e
    <> concat (SearchSpec.lines_between lines (SearchRepoPatternsTool.line_start e)
                 (SearchRepoPatternsTool.line_end e)).
Proof.
  exists (SearchRepoPatternsTool.Evidence (u "/repo/a.py") 1 1 (u "export default 1")).
  split.
  - vm_compute. constructor.
  - vm_compute. discriminate.
Qed.

Section Pruning.
Context `{PyLib}.

(** The steps of the walk of [node_modules_repo] under the default
    exclude globs. *)
Lemma node_modules_walk :
  walk_root SearchRepoPatternsTool.default_exclude_globs (Some node_modules_repo)
  = [Triple [] []; Triple [u "node_modules"] [(u "index.js", Some (u "export default 1"))]].
Proof. vm_compute. reflexivity. Qed.

(** C1, at the failing input: a [node_modules] directly under the root
    is not matched by the default exclude glob, the walk descends into it
    and its file is in the output of the generic scanner; the walk of the
    schema scanner, given the same exclude list, reads the same file. *)
Theorem top_level_node_modules_is_scanned :
  u "**/node_modules/**" ∈ SearchRepoPatternsTool.default_exclude_globs /\
  dir_pruned SearchRepoPatternsTool.default_exclude_globs [] (u "node_modules") = false /\
  SearchRepoPatternsTool._run (Some node_modules_repo) (u "/repo") [u "export default"]
    None None 5 2 2000
  = Ret (JObj [(u "matches", JArr [SearchRepoPatternsTool.evidence_json
        (SearchRepoPatternsTool.Evidence (u "/repo/node_modules/index.js") 1 1
           (u "export default 1"))])]) /\
  DbSchemaScannerTool.matches (Some node_modules_repo) (u "/repo")
    [u "**/*.js"] SearchRepoPatternsTool.default_exclude_globs
  = DbSchemaScannerTool.scan_content (u "/repo/node_modules/index.js") (u "export default 1").
Proof.
  split; [vm_compute; repeat constructor|]. split; [vm_compute; reflexivity|].
  split; [vm_compute; reflexivity|].
  unfold DbSchemaScannerTool.matches. rewrite node_modules_walk.
  cbn [flat_map DbSchemaScannerTool.scan_step files rel_dir fst snd app].
  replace (file_selected_incl_first [u "**/*.js"] SearchRepoPatternsTool.default_exclude_globs
             (rel_str [u "node_modules"] (u "index.js"))) with true
    by (vm_compute; reflexivity).
  replace (path_str (path_div (path_of_str (u "/repo"))
             (path_of_str (rel_str [u "node_modules"] (u "index.js")))))
    with (u "/repo/node_modules/index.js") by (vm_compute; reflexivity).
  replace (universal_newlines (u "export default 1")) with (u "export default 1")
    by (vm_compute; reflexivity).
  now rewrite !app_nil_r.
Qed.

(** C9, at the failing input: with no include glob given, a file that
    lies directly in the root is not in the list. *)
Theorem root_file_is_not_listed :
  ListRepositoryFilesTool._run_files (Some readme_repo) (u "/repo") None None 5000 = [].
Proof. vm_compute. reflexivity. Qed.

(** C8, at the failing input: on a payload that is not JSON the lenient
    tool falls back to the default patterns, and compiling them raises. *)
Theorem fallback_raises tree_at :
  RobustSearchRepoPatternsTool._try_parse (u "hello") = None /\
  RobustSearchRepoPatternsTool._run tree_at (u "hello") = Some (Raise ReError).
Proof. split; vm_compute; reflexivity. Qed.


(** Whatever the payload, the fallback configuration cannot be run. *)
Lemma fallback_always_raises tree_at payload :
  RobustSearchRepoPatternsTool._try_parse payload = None ->
  RobustSearchRepoPatternsTool._run tree_at payload = Some (Raise ReError).
Proof.
  intros Hnone. unfold RobustSearchRepoPatternsTool._run. rewrite Hnone.
  reflexivity.
Qed.

(** A name without a separator is not matched by the include glob that
    is meant to take everything. *)
Lemma fnmatch_everything_needs_slash name :
  c_slash ∉ name -> fnmatch name (u "**/*") = false.
Proof.
  intros Hno.
  change (fnmatch name (u "**/*")) with (gmatch [GStar; GStar; GLit c_slash; GStar] name).
  assert (H1 : forall s, c_slash ∉ s -> gmatch [GLit c_slash; GStar] s = false).
  { intros [|c s] Hs; [reflexivity|]. cbn [gmatch gtok_accepts].
    destruct (N.eqb_spec c c_slash) as [->|_]; [|reflexivity].
    exfalso. apply Hs. constructor. }
  assert (H2 : forall s, c_slash ∉ s -> gmatch [GStar; GLit c_slash; GStar] s = false).
  { induction s as [|c s IH]; intros Hs.
    - reflexivity.
    - change (gmatch [GStar; GLit c_slash; GStar] (c :: s))
        with (gmatch [GLit c_slash; GStar] (c :: s)
              || gmatch [GStar; GLit c_slash; GStar] s).
      rewrite H1 by exact Hs. rewrite IH; [reflexivity|].
      intros Hin. apply Hs. now constructor. }
  induction name as [|c s IH].
  - reflexivity.
  - change (gmatch [GStar; GStar; GLit c_slash; GStar] (c :: s))
      with (gmatch [GStar; GLit c_slash; GStar] (c :: s)
            || gmatch [GStar; GStar; GLit c_slash; GStar] s).
    rewrite H2 by exact Hno. rewrite IH; [reflexivity|].
    intros Hin. apply Hno. now constructor.
Qed.

(** So no file that lies directly in the root passes the default filter
    of the lister. *)
Lemma root_files_not_selected exclude_globs name :
  c_slash ∉ name -> c_backslash ∉ name ->
  file_selected ListRepositoryFilesTool.default_include_globs exclude_globs
    (rel_str [] name) = false.
Proof.
  intros Hs Hb.
  assert (Hrel : rel_str [] name = name).
  { unfold rel_str. cbn [app join]. unfold replace_char.
    induction name as [|c s IH]; [reflexivity|]. cbn [map].
    destruct (N.eqb_spec c c_backslash) as [->|_].
    - exfalso. apply Hb. constructor.
    - f_equal. apply IH; intros Hin; [apply Hs|apply Hb]; now constructor. }
  rewrite Hrel. unfold file_selected.
  destruct (any_fnmatch name exclude_globs); [reflexivity|].
  unfold ListRepositoryFilesTool.default_include_globs, any_fnmatch. cbn [existsb].
  rewrite fnmatch_everything_needs_slash by exact Hs. reflexivity.
Qed.

Lemma walk_entry_kept exclude_globs e :
  forall rel t, t ∈ walk_entry exclude_globs rel e ->
  exists names, rel_dir t = rel ++ names /\ kept exclude_globs rel names = true.
Proof.
  revert e. fix IH 1. intros [name content|d cs] rel t Hin.
  - inversion Hin.
  - cbn [walk_entry] in Hin.
    destruct (dir_pruned exclude_globs rel d) eqn:Hp; [inversion Hin|].
    apply elem_of_cons in Hin as [->|Hin].
    + exists [d]. cbn [rel_dir kept]. now rewrite Hp.
    + assert (Hsub : exists names, rel_dir t = (rel ++ [d]) ++ names /\
                       kept exclude_globs (rel ++ [d]) names = true).
      { revert Hin. generalize (rel ++ [d]) as rel'. intros rel'.
        induction cs as [|c cs IHcs]; cbn [flat_map].
        - intros Hin. inversion Hin.
        - rewrite elem_of_app. intros [Hin|Hin].
          + exact (IH c rel' t Hin).
          + exact (IHcs Hin). }
      destruct Hsub as (names & Hrel & Hk).
      exists (d :: names). cbn [kept]. rewrite Hp, Hk.
      now rewrite Hrel, <- app_assoc.
Qed.

(** The walk never yields a directory below one that the pruning test
    of the loop body rejected. *)
Lemma walk_root_kept exclude_globs tree t :
  t ∈ walk_root exclude_globs tree -> kept exclude_globs [] (rel_dir t) = true.
Proof.
  destruct tree as [es|]; [|intros Hin; inversion Hin].
  unfold walk_root, os_walk. rewrite elem_of_cons. intros [->|Hin]; [reflexivity|].
  induction es as [|e es IH]; cbn [flat_map] in Hin; [inversion Hin|].
  apply elem_of_app in Hin as [Hin|Hin]; [|exact (IH Hin)].
  destruct (walk_entry_kept exclude_globs e [] t Hin) as (names & -> & Hk). exact Hk.
Qed.

End Pruning.

Section GherkinProps.
Context `{PyLib}.
Import GenerateGherkinStoriesTool GherkinSpec.

Lemma startswith_app k rest : startswith k (k ++ rest) = true.
Proof.
  induction k as [|c k IH]; [reflexivity|]. cbn. now rewrite N.eqb_refl, IH.
Qed.

Lemma str_in_app a k b : str_in k (a ++ k ++ b) = true.
Proof.
  induction a as [|c a IH]; cbn [app].
  - assert (Hs := startswith_app k b).
    destruct (k ++ b); cbn [str_in]; now rewrite Hs.
  - cbn [str_in]. rewrite IH. apply orb_true_r.
Qed.

Lemma lower_app a b : lower (a ++ b) = lower a ++ lower b.
Proof. unfold lower. apply flat_map_app. Qed.

Lemma startswith_occurs k t : startswith k t = true -> exists b, t = k ++ b.
Proof.
  revert t. induction k as [|c k IH]; intros t Hs; [now exists t|].
  destruct t as [|d t]; [discriminate|]. cbn [startswith] in Hs.
  apply andb_true_iff in Hs as [Hc Hs]. apply N.eqb_eq in Hc. subst d.
  destruct (IH t Hs) as [b ->]. now exists b.
Qed.

Lemma str_in_occurs k t : str_in k t = true <-> occurs_in k t.
Proof.
  split.
  - induction t as [|c t IH]; cbn [str_in]; intros Hs.
    + rewrite orb_false_r in Hs. destruct (startswith_occurs _ _ Hs) as [b Hb].
      now exists [], b.
    + apply orb_true_iff in Hs as [Hs|Hs].
      * destruct (startswith_occurs _ _ Hs) as [b Hb]. now exists [], b.
      * destruct (IH Hs) as (a & b & ->). now exists (c :: a), b.
  - intros (a & b & ->). apply str_in_app.
Qed.

Lemma any_in_matches ks persona text :
  any_in ks text = true <-> group_matches text (ks, persona).
Proof.
  unfold any_in, group_matches. cbn [fst]. rewrite existsb_exists. split.
  - intros (k & Hk & Hin). exists k. split; [now apply list_elem_of_In|].
    now apply str_in_occurs.
  - intros (k & Hk & Hin). exists k. split; [now apply list_elem_of_In|].
    now apply str_in_occurs.
Qed.

Lemma lower_char_spec c : lower_char c = spec_lower_char c.
Proof.
  unfold lower_char, spec_lower_char.
  destruct (N.leb_spec 65 c), (N.leb_spec c 90), (N.ltb_spec c 0xC0), (N.leb_spec 0xC0 c),
    (N.leb_spec c 0xDE), (N.eqb_spec c 0xD7), (N.ltb_spec c 0x100);
    cbn [andb orb negb]; try reflexivity; lia.
Qed.

Lemma lower_spec s : lower s = spec_lower s.
Proof.
  unfold lower, spec_lower. induction s as [|c s IH]; [reflexivity|].
  cbn [flat_map]. now rewrite IH, lower_char_spec.
Qed.

Lemma first_match_unique text groups p q :
  first_match text groups p -> first_match text groups q -> p = q.
Proof.
  induction 1 as [|g gs Hg|g gs p Hg Hp IH]; inversion 1; subst;
    try reflexivity; try contradiction. now apply IH.
Qed.

Lemma detect_persona_first_match rule_text :
  first_match (spec_lower rule_text) persona_groups (_detect_persona rule_text).
Proof.
  unfold _detect_persona, persona_groups. rewrite lower_spec.
  set (text := spec_lower rule_text).
  repeat match goal with
  | |- context [any_in ?ks text] =>
    let Hm := fresh "Hm" in
    destruct (any_in ks text) eqn:Hm;
    [ apply (first_match_here text (ks, _)); eapply any_in_matches; exact Hm
    | apply first_match_next;
      [ intros Hg; apply (any_in_matches ks) in Hg; congruence | ] ]
  end.
  apply first_match_none.
Qed.

(** C5. Persona classification: the persona of a rule text is the one
    of the first of the four keyword groups, in their order
    (Administrator, Player, System, User), one of whose keywords occurs
    in the text once its capital letters are made small, and User when
    no group has one; so texts that differ only by case classify alike,
    and every text that contains [administrador] classifies as
    [Administrador], whatever surrounds it.  At work: capitals ([ADMIN],
    [SERVIÇO]), each of the four groups, the default, and the order of
    the groups. *)
Theorem persona_classification :
  (forall rule_text persona,
     first_match (spec_lower rule_text) persona_groups persona <->
     _detect_persona rule_text = persona) /\
  (forall t1 t2, spec_lower t1 = spec_lower t2 -> _detect_persona t1 = _detect_persona t2) /\
  (forall a b, _detect_persona (a ++ u "administrador" ++ b) = u "Administrador") /\
  _detect_persona (u "ADMIN panel") = u "Administrador" /\
  _detect_persona (u "O Jogador vence a partida") = u "Jogador" /\
  _detect_persona (u "Chamada de API externa") = u "Sistema" /\
  _detect_persona (u "SERVIÇO de pagamento") = u "Sistema" /\
  _detect_persona (u "USER must confirm e-mail") = u "Usuário" /\
  _detect_persona (u "Password must be 8+ characters") = u "Usuário" /\
  _detect_persona (u "player banned by the operador") = u "Administrador" /\
  _detect_persona (u "usuario do sistema") = u "Sistema".
Proof.
  split; [|split; [|split]].
  - intros t persona. split.
    + intros Hm. exact (first_match_unique _ _ _ _ (detect_persona_first_match t) Hm).
    + intros <-. apply detect_persona_first_match.
  - intros t1 t2 Heq. unfold _detect_persona. now rewrite !lower_spec, Heq.
  - intros a b. unfold _detect_persona.
    rewrite !lower_app.
    replace (lower (u "administrador")) with (u "admin" ++ u "istrador")
      by (vm_compute; reflexivity).
    rewrite <- app_assoc.
    unfold any_in. cbn [map existsb]. now rewrite str_in_app.
  - repeat split; vm_compute; reflexivity.
Qed.

(** C4. Missing or invalid analysis: when the analysis file is absent,
    or cannot be read, or its content does not parse as JSON, the
    generator returns [{"written": [], "error": <message>}], the message
    being [analysis.json não encontrado ou inválido em] and the path,
    leaves the file system as it was and raises nothing; when the file
    is there and parses, whatever the generator returns is an object
    with the one member [written]: it has no [error] member. *)
Theorem missing_or_invalid_analysis fs analysis_path output_dir group_by_persona strict_mode :
  let p := path_of_str analysis_path in
  let run := _run fs analysis_path output_dir group_by_persona strict_mode in
  ((path_exists fs p = false \/
    (forall text, read_text fs p = Some text -> json_loads text = None)) ->
   run = (fs, Ret (JObj [(u "written", JArr []);
                         (u "error",
                          JStr (u "analysis.json não encontrado ou inválido em "
                                ++ analysis_path))])) /\
   has_error_field (snd run) = true) /\
  (forall text analysis,
     path_exists fs p = true -> read_text fs p = Some text ->
     json_loads text = Some analysis ->
     has_error_field (snd run) = false /\
     forall v, snd run = Ret v ->
       exists written, v = JObj [(u "written", JArr (map JStr written))]).
Proof.
  cbn zeta. split.
  - intros Hbad.
    assert (Hload : load_analysis fs analysis_path = None).
    { unfold load_analysis. destruct Hbad as [->|Hbad]; [reflexivity|].
      destruct (path_exists _ _); [|reflexivity].
      destruct (read_text _ _) as [text|] eqn:Hr; [|reflexivity].
      cbn. now apply Hbad. }
    unfold _run. rewrite Hload. split; [reflexivity|].
    vm_compute. reflexivity.
  - intros text analysis Hex Hread Hparse.
    assert (Hload : load_analysis fs analysis_path = Some analysis).
    { unfold load_analysis. rewrite Hex, Hread. exact Hparse. }
    unfold _run. rewrite Hload.
    destruct (_ ← get analysis "modules" (JArr []); iterate _) as [modules|e].
    + destruct (write_modules output_dir group_by_persona modules fs []) as [fs' [written|e]].
      * split; [vm_compute; reflexivity|]. intros v [= <-]. now exists written.
      * split; [reflexivity|]. intros v Heq. discriminate Heq.
    + split; [reflexivity|]. intros v Heq. discriminate Heq.
Qed.


Lemma auth_groups :
  group_rules [auth_rule] [] = Ret [(u "Usuário", [auth_rule])].
Proof. vm_compute. reflexivity. Qed.

Lemma auth_feature_text :
  feature_text (JStr (u "Auth")) (JStr (u "Security")) (u "Usuário") [auth_rule]
  = Ret (join [c_nl] auth_feature_lines).
Proof. vm_compute. reflexivity. Qed.

Lemma auth_filename : _sanitize_filename (JStr (u "Auth")) = Ret (u "Auth").
Proof. vm_compute. reflexivity. Qed.

(** [mkdir] adds directories and nothing else. *)
Lemma mkdir_parents_lookup fs p fs1 r key :
  mkdir_parents fs p = (fs1, r) -> fs1 !! key = fs !! key \/ fs1 !! key = Some NDir.
Proof.
  unfold mkdir_parents. destruct (existsb _ _).
  - intros [= <- _]. now left.
  - intros [= <- _]. induction (ancestors p) as [|q qs IH] using rev_ind.
    + now left.
    + rewrite foldl_app. cbn [foldl].
      destruct (decide (path_str q = key)) as [->|Hne].
      * right. apply lookup_insert_eq.
      * rewrite lookup_insert_ne by exact Hne. exact IH.
Qed.

(** C6. Scenario-literal test: for the analysis with the one module
    [Auth] of domain [Security] and its one rule, the generator grouped
    by persona, once the directory [output_dir/Usuário] is made and the
    file written, returns the single path [output_dir/Usuário/Auth.md];
    apart from the directories made on the way, that file is the only
    change to the file system, and its text is the header [Feature: Auth
    (Security)], the persona marker, the block [Scenario: Password must
    be 8+ characters] with the generic Given and When lines and a Then
    line that ends with the rule text, and last the comment line
    [# evidence: /repo/auth.ts L10-L12]. *)
Theorem scenario_literal fs analysis_path output_dir strict_mode fs1 fs2 :
  let base := path_div (path_of_str output_dir) (path_of_str (u "Usuário")) in
  let target := path_div base (path_of_str (u "Auth.md")) in
  let content := join [c_nl] auth_feature_lines in
  load_analysis fs analysis_path = Some auth_analysis ->
  mkdir_parents fs base = (fs1, Ret tt) ->
  write_text fs1 target content = (fs2, Ret tt) ->
  _run fs analysis_path output_dir true strict_mode
  = (fs2, Ret (JObj [(u "written", JArr [JStr (path_str target)])])) /\
  p_parts target = p_parts (path_of_str output_dir) ++ [u "Usuário"; u "Auth.md"] /\
  fs2 !! path_str target = Some (NFile (Some content)) /\
  (forall key, key <> path_str target ->
     fs2 !! key = fs !! key \/ fs2 !! key = Some NDir) /\
  content = u "Feature: Auth (Security)" ++ [c_nl] ++ [c_nl]
            ++ u "# Persona: Usuário" ++ [c_nl] ++ [c_nl]
            ++ u "Scenario: Password must be 8+ characters" ++ [c_nl]
            ++ u "  Given uma situação relevante para a regra" ++ [c_nl]
            ++ u "  When a condição descrita na regra ocorre" ++ [c_nl]
            ++ (u "  Then " ++ u "Password must be 8+ characters") ++ [c_nl]
            ++ u "  # evidence: /repo/auth.ts L10-L12" ++ [c_nl].
Proof.
  intros base target content Hload Hmk Hwr.
  assert (Hfs2 : fs2 = <[path_str target := NFile (Some content)]> fs1).
  { unfold write_text in Hwr. repeat case_match; simplify_eq; reflexivity. }
  split; [|split; [|split; [|split]]].
  - unfold _run. rewrite Hload.
    change (_ ← get auth_analysis "modules" (JArr []); iterate _)
      with (Ret [JObj [(u "name", JStr (u "Auth"));
                       (u "functional_domain", JStr (u "Security"));
                       (u "business_rules", JArr [auth_rule])]] : result (list json)).
    cbn [write_modules]. unfold write_module.
    change (get (JObj _) "name" (JStr (u "Module"))) with (Ret (JStr (u "Auth")) : result json).
    change (get (JObj _) "functional_domain" (JStr [])) with (Ret (JStr (u "Security")) : result json).
    change (get (JObj _) "business_rules" (JArr [])) with (Ret (JArr [auth_rule]) : result json).
    cbn [mbind result_bind iterate]. rewrite auth_groups. cbn [mbind result_bind mret result_ret].
    cbn [write_groups]. unfold write_feature.
    rewrite auth_feature_text. fold base. rewrite Hmk.
    rewrite auth_filename.
    change (path_div base (path_of_str (u "Auth" ++ u ".md"))) with target.
    fold content. rewrite Hwr.
    reflexivity.
  - subst target base.
    replace (path_of_str (u "Usuário")) with (Path [] [u "Usuário"])
      by (vm_compute; reflexivity).
    replace (path_of_str (u "Auth.md")) with (Path [] [u "Auth.md"])
      by (vm_compute; reflexivity).
    unfold path_div. cbn [p_root p_parts]. now rewrite <- app_assoc.
  - rewrite Hfs2. apply lookup_insert_eq.
  - intros key Hne. rewrite Hfs2, lookup_insert_ne by congruence.
    eapply mkdir_parents_lookup, Hmk.
  - vm_compute. reflexivity.
Qed.

End GherkinProps.

(** Both outcomes at work: an analysis that is not JSON, one whose
    integer has too many digits to be read, and one that parses. *)
Lemma missing_or_invalid_analysis_witness :
  GenerateGherkinStoriesTool._run (H := plain_lib) GherkinSpec.broken_fs
    (u "/work/analysis.json") (u "/out") true true
  = (GherkinSpec.broken_fs,
     Ret (JObj [(u "written", JArr []);
                (u "error",
                 JStr (u "analysis.json não encontrado ou inválido em /work/analysis.json"))]))
  /\
  GenerateGherkinStoriesTool._run (H := plain_lib) GherkinSpec.long_integer_fs
    (u "/work/analysis.json") (u "/out") true true
  = (GherkinSpec.long_integer_fs,
     Ret (JObj [(u "written", JArr []);
                (u "error",
                 JStr (u "analysis.json não encontrado ou inválido em /work/analysis.json"))]))
  /\
  GherkinSpec.has_error_field
    (snd (GenerateGherkinStoriesTool._run (H := plain_lib) GherkinSpec.auth_fs
            (u "/work/analysis.json") (u "/out") true true)) = false.
Proof.
  split; [|split].
  - etransitivity.
    + apply (proj1 (missing_or_invalid_analysis (H := plain_lib) GherkinSpec.broken_fs
                      (u "/work/analysis.json") (u "/out") true true)).
      right. intros text Hread. vm_compute in Hread. injection Hread as <-.
      vm_compute. reflexivity.
    + vm_compute. reflexivity.
  - etransitivity.
    + apply (proj1 (missing_or_invalid_analysis (H := plain_lib) GherkinSpec.long_integer_fs
                      (u "/work/analysis.json") (u "/out") true true)).
      right. intros text Hread. vm_compute in Hread. injection Hread as <-.
      vm_compute. reflexivity.
    + vm_compute. reflexivity.
  - apply (proj2 (missing_or_invalid_analysis (H := plain_lib) GherkinSpec.auth_fs
                    (u "/work/analysis.json") (u "/out") true true)
             (replace_char 39 c_quote GherkinSpec.auth_analysis_text)
             GherkinSpec.auth_analysis);
      vm_compute; reflexivity.
Defined.

(** The scenario at work, from a file system that holds the analysis only. *)
Lemma scenario_literal_witness :
  GenerateGherkinStoriesTool._run (H := plain_lib) GherkinSpec.auth_fs
    (u "/work/analysis.json") (u "/out") true true
  = (<[u "/out/Usuário/Auth.md" :=
         NFile (Some (join [c_nl] GherkinSpec.auth_feature_lines))]>
       (<[u "/out/Usuário" := NDir]> (<[u "/out" := NDir]> GherkinSpec.auth_fs)),
     Ret (JObj [(u "written", JArr [JStr (u "/out/Usuário/Auth.md")])])).
Proof.
  refine (proj1 (scenario_literal (H := plain_lib) GherkinSpec.auth_fs (u "/work/analysis.json")
            (u "/out") true _ _ _ _ _)).
  - vm_compute. reflexivity.
  - vm_compute. reflexivity.
  - vm_compute. reflexivity.
Defined.

(* ===================================================================== *)
(** * Part III: further properties of the code                            *)
(* ===================================================================== *)

(* --------------------------------------------------------------------- *)
(** ** search_repo_patterns.py: compiling, caps and what is cited *)
(* --------------------------------------------------------------------- *)

Section MoreSearch.
Context `{PyLib}.
Import SearchRepoPatternsTool SearchSpec.

Lemma compile_all_raises patterns p :
  p ∈ patterns -> p <> [] -> re_compile p = None ->
  compile_all patterns = Raise ReError.
Proof.
  intros Hin Hne Hbad. induction patterns as [|q rest IH]; [inversion Hin|].
  cbn [compile_all]. destruct q as [|c q'] eqn:Hq.
  - apply IH. apply elem_of_cons in Hin as [->|Hin]; [congruence|exact Hin].
  - rewrite <- Hq in *. destruct (re_compile q) as [creg|] eqn:Hc; [|reflexivity].
    apply elem_of_cons in Hin as [->|Hin]; [congruence|].
    now rewrite (IH Hin).
Qed.

(** X1. One pattern that does not compile makes the whole scan raise
    [re.error]: no file is walked and nothing is returned for the
    patterns that do compile. *)
Theorem invalid_pattern_aborts_scan tree repo_root patterns include_globs exclude_globs
    max_matches_per_file context_lines max_files p :
  p ∈ patterns -> p <> [] -> re_compile p = None ->
  _run tree repo_root patterns include_globs exclude_globs
    max_matches_per_file context_lines max_files = Raise ReError.
Proof.
  intros Hin Hne Hbad. unfold _run.
  now rewrite (compile_all_raises patterns p Hin Hne Hbad).
Qed.

Lemma compile_all_empty patterns :
  Forall (fun p => p = []) patterns -> compile_all patterns = Ret [].
Proof.
  induction 1 as [|p rest -> _ IH]; [reflexivity|]. exact IH.
Qed.

(** X2. Empty patterns are dropped before compiling; when none is left
    the scan returns an empty match list without walking the tree,
    whatever the tree and the caps. *)
Theorem no_pattern_gives_no_match tree repo_root patterns include_globs exclude_globs
    max_matches_per_file context_lines max_files :
  Forall (fun p => p = []) patterns ->
  _run tree repo_root patterns include_globs exclude_globs
    max_matches_per_file context_lines max_files
  = Ret (JObj [(u "matches", JArr [])]).
Proof.
  intros Hall. unfold _run. now rewrite (compile_all_empty patterns Hall).
Qed.

Lemma take_prefix_le {A} (l : list A) (a b : nat) :
  (a <= b)%nat -> take a l `prefix_of` take b l.
Proof.
  intros Hab. replace (take a l) with (take a (take b l)).
  - apply prefix_take.
  - rewrite take_take. f_equal. lia.
Qed.

Lemma flat_map_prefix {A B} (f : A -> list B) (l1 l2 : list A) :
  l1 `prefix_of` l2 -> flat_map f l1 `prefix_of` flat_map f l2.
Proof.
  intros [k ->]. rewrite flat_map_app. now apply prefix_app_r.
Qed.

Lemma map_prefix {A B} (f : A -> B) (l1 l2 : list A) :
  l1 `prefix_of` l2 -> map f l1 `prefix_of` map f l2.
Proof.
  intros [k ->]. rewrite map_app. now apply prefix_app_r.
Qed.

(** X3. Raising the file cap only appends: with a smaller [max_files]
    the files opened and the records found are the first ones of what a
    larger cap opens and finds. *)
Theorem cap_is_monotone tree repo_root cregs include_globs exclude_globs
    max_matches_per_file context_lines k k' :
  (k <= k')%Z ->
  let st := scan tree repo_root cregs include_globs exclude_globs
              max_matches_per_file context_lines k in
  let st' := scan tree repo_root cregs include_globs exclude_globs
               max_matches_per_file context_lines k' in
  opened st `prefix_of` opened st' /\ results st `prefix_of` results st'.
Proof.
  intros Hk st st'.
  destruct (scan_spec tree repo_root cregs include_globs exclude_globs
              max_matches_per_file context_lines k) as [Hr Ho].
  destruct (scan_spec tree repo_root cregs include_globs exclude_globs
              max_matches_per_file context_lines k') as [Hr' Ho'].
  fold st in Hr, Ho. fold st' in Hr', Ho'.
  rewrite Hr, Ho, Hr', Ho'.
  split; [apply map_prefix|apply flat_map_prefix]; apply take_prefix_le; lia.
Qed.

Lemma file_matches_path cregs max_matches_per_file context_lines f e :
  e ∈ file_matches cregs max_matches_per_file context_lines f -> path e = fst f.
Proof.
  unfold file_matches. destruct (snd f) as [text|]; [|intros Hin; inversion Hin].
  intros Hin.
  pose proof (scan_file_prefix cregs max_matches_per_file context_lines (fst f)
                (readlines text)) as [rest Hp].
  assert (Hall : e ∈ all_hits cregs context_lines (fst f) (readlines text)).
  { rewrite Hp. apply elem_of_app. now left. }
  apply elem_of_hits_from in Hall as (k & line & creg & _ & _ & _ & ->). reflexivity.
Qed.

(** X4. Every record of the result cites a file that was opened during
    the scan. *)
Theorem records_cite_opened_files tree repo_root cregs include_globs exclude_globs
    max_matches_per_file context_lines max_files e :
  let st := scan tree repo_root cregs include_globs exclude_globs
              max_matches_per_file context_lines max_files in
  e ∈ results st -> path e ∈ opened st.
Proof.
  intros st.
  destruct (scan_spec tree repo_root cregs include_globs exclude_globs
              max_matches_per_file context_lines max_files) as [Hr Ho].
  fold st in Hr, Ho. rewrite Hr, Ho. intros Hin.
  apply list_elem_of_In, in_flat_map in Hin as (f & Hf & He).
  apply list_elem_of_In in He. apply file_matches_path in He. rewrite He.
  apply list_elem_of_In, in_map. exact Hf.
Qed.

Lemma length_flat_map_le {A B} (f : A -> list B) (l : list A) (b : nat) :
  (forall x, length (f x) <= b)%nat -> (length (flat_map f l) <= b * length l)%nat.
Proof.
  intros Hf. induction l as [|x l IH]; cbn [flat_map length]; [lia|].
  rewrite length_app. specialize (Hf x). lia.
Qed.

(** X5. Bounded output: with [max_matches_per_file = m >= 1] and
    [max_files = k >= 0] the result has at most [m * k] records. *)
Theorem result_size_is_bounded tree repo_root cregs include_globs exclude_globs
    m context_lines k :
  (1 <= m)%Z -> (0 <= k)%Z ->
  let st := scan tree repo_root cregs include_globs exclude_globs m context_lines k in
  (Z.of_nat (length (results st)) <= m * k)%Z.
Proof.
  intros Hm Hk st.
  destruct (scan_spec tree repo_root cregs include_globs exclude_globs m context_lines k)
    as [Hr _].
  fold st in Hr. rewrite Hr.
  pose proof (length_flat_map_le (file_matches cregs m context_lines)
                (take (Z.to_nat k) (candidates tree repo_root include_globs exclude_globs))
                (Z.to_nat m)) as Hb.
  assert (Hfile : forall f,
            (length (file_matches cregs m context_lines f) <= Z.to_nat m)%nat).
  { intros f. unfold file_matches. destruct (snd f) as [text|]; [|cbn; lia].
    pose proof (scan_file_length cregs m context_lines (fst f) (readlines text)). lia. }
  specialize (Hb Hfile). rewrite length_take in Hb. nia.
Qed.

End MoreSearch.

(** X1 at work: an unclosed group beside a pattern that compiles. *)
Lemma invalid_pattern_aborts_scan_witness :
  SearchRepoPatternsTool._run (H := plain_lib) (Some three_files_repo) (u "/repo")
    [u "export default"; u "("] None None 5 2 2 = Raise ReError.
Proof.
  apply (invalid_pattern_aborts_scan (H := plain_lib) (Some three_files_repo) (u "/repo")
           [u "export default"; u "("] None None 5 2 2 (u "(")).
  - apply list_elem_of_further, list_elem_of_here.
  - intros Heq. vm_compute in Heq. discriminate Heq.
  - vm_compute. reflexivity.
Defined.

(** X2 at work: two empty patterns. *)
Lemma no_pattern_gives_no_match_witness :
  SearchRepoPatternsTool._run (H := plain_lib) (Some three_files_repo) (u "/repo")
    [[]; []] None None 5 2 2 = Ret (JObj [(u "matches", JArr [])]).
Proof.
  apply (no_pattern_gives_no_match (H := plain_lib)). repeat constructor.
Defined.

(** X3 at work: a cap of one against a cap of two. *)
Lemma cap_is_monotone_witness :
  SearchRepoPatternsTool.opened
    (SearchRepoPatternsTool.scan (H := plain_lib) (Some three_files_repo) (u "/repo")
       export_default SearchRepoPatternsTool.default_include_globs
       SearchRepoPatternsTool.default_exclude_globs 5 2 1)
  `prefix_of`
  SearchRepoPatternsTool.opened
    (SearchRepoPatternsTool.scan (H := plain_lib) (Some three_files_repo) (u "/repo")
       export_default SearchRepoPatternsTool.default_include_globs
       SearchRepoPatternsTool.default_exclude_globs 5 2 2).
Proof.
  apply (cap_is_monotone (H := plain_lib) (Some three_files_repo) (u "/repo")
           export_default SearchRepoPatternsTool.default_include_globs
           SearchRepoPatternsTool.default_exclude_globs 5 2 1 2).
  lia.
Defined.

(** X4 at work: the record of the first file. *)
Lemma records_cite_opened_files_witness :
  u "/repo/src/a.py" ∈
  SearchRepoPatternsTool.opened
    (SearchRepoPatternsTool.scan (H := plain_lib) (Some three_files_repo) (u "/repo")
       export_default SearchRepoPatternsTool.default_include_globs
       SearchRepoPatternsTool.default_exclude_globs 5 2 2).
Proof.
  apply (records_cite_opened_files (H := plain_lib) (Some three_files_repo) (u "/repo")
           export_default SearchRepoPatternsTool.default_include_globs
           SearchRepoPatternsTool.default_exclude_globs 5 2 2
           (SearchRepoPatternsTool.Evidence (u "/repo/src/a.py") 1 1 (u "export default a"))).
  vm_compute. constructor.
Defined.

(** X5 at work: five matches a file, two files. *)
Lemma result_size_is_bounded_witness :
  (Z.of_nat (length (SearchRepoPatternsTool.results
     (SearchRepoPatternsTool.scan (H := plain_lib) (Some three_files_repo) (u "/repo")
        export_default SearchRepoPatternsTool.default_include_globs
        SearchRepoPatternsTool.default_exclude_globs 5 2 2))) <= 5 * 2)%Z.
Proof.
  apply (result_size_is_bounded (H := plain_lib) (Some three_files_repo) (u "/repo")
           export_default SearchRepoPatternsTool.default_include_globs
           SearchRepoPatternsTool.default_exclude_globs 5 2 2); lia.
Defined.

(* --------------------------------------------------------------------- *)
(** ** The walk and the file filter, across the tools *)
(* --------------------------------------------------------------------- *)

Section Selection.
Context `{PyLib}.
Import SearchRepoPatternsTool SearchSpec.

Lemma file_selected_true include_globs exclude_globs rel :
  file_selected include_globs exclude_globs rel = true <->
  any_fnmatch rel exclude_globs = false /\
  (include_globs = [] \/ any_fnmatch rel include_globs = true).
Proof.
  unfold file_selected.
  destruct (any_fnmatch rel exclude_globs); [split; [discriminate|intros [? _]; discriminate]|].
  destruct (decide (include_globs = [])) as [->|Hne].
  - cbn. split; [intros _; split; [reflexivity|now left]|reflexivity].
  - rewrite bool_decide_eq_true_2 by exact Hne. cbn [andb].
    destruct (any_fnmatch rel include_globs); cbn.
    + split; [intros _; split; [reflexivity|now right]|reflexivity].
    + split; [discriminate|]. intros [_ [?|?]]; [contradiction|discriminate].
Qed.

Lemma elem_of_step_candidates root include_globs exclude_globs t c :
  c ∈ step_candidates root include_globs exclude_globs t <->
  exists f, f ∈ files t /\
    file_selected include_globs exclude_globs (rel_str (rel_dir t) (fst f)) = true /\
    c = (path_str (path_div root (path_of_str (rel_str (rel_dir t) (fst f)))), snd f).
Proof.
  unfold step_candidates. rewrite list_elem_of_omap. split.
  - intros (f & Hf & Hsel). exists f. split; [exact Hf|].
    destruct (file_selected _ _ _); [|discriminate]. split; [reflexivity|congruence].
  - intros (f & Hf & Hsel & ->). exists f. split; [exact Hf|]. now rewrite Hsel.
Qed.

(** X6. Exclusion wins over inclusion for what is opened: every file
    the scan opens lies in a directory that the walk reached through
    directories the pruning test let through, its relative path matches
    no exclude glob and, when include globs are given, matches one. *)
Theorem opened_files_pass_the_filter tree repo_root cregs include_globs exclude_globs
    max_matches_per_file context_lines max_files p :
  p ∈ opened (scan tree repo_root cregs include_globs exclude_globs
                max_matches_per_file context_lines max_files) ->
  exists (t : triple) (f : str * option str),
    t ∈ walk_root exclude_globs tree /\ f ∈ files t /\
    kept exclude_globs [] (rel_dir t) = true /\
    any_fnmatch (rel_str (rel_dir t) (fst f)) exclude_globs = false /\
    (include_globs = [] \/ any_fnmatch (rel_str (rel_dir t) (fst f)) include_globs = true) /\
    p = path_str (path_div (path_of_str repo_root)
                    (path_of_str (rel_str (rel_dir t) (fst f)))).
Proof.
  destruct (scan_spec tree repo_root cregs include_globs exclude_globs
              max_matches_per_file context_lines max_files) as [_ Ho].
  cbn zeta in Ho. rewrite Ho. intros Hin.
  apply list_elem_of_In, in_map_iff in Hin as (c & <- & Hc).
  apply list_elem_of_In in Hc. apply (subseteq_take (Z.to_nat max_files)) in Hc.
  unfold candidates in Hc.
  apply list_elem_of_In, in_flat_map in Hc as (t & Ht & Hc).
  apply list_elem_of_In in Ht, Hc.
  apply elem_of_step_candidates in Hc as (f & Hf & Hsel & ->).
  apply file_selected_true in Hsel as [Hex Hinc].
  exists t, f. split; [exact Ht|]. split; [exact Hf|].
  split; [eapply walk_root_kept, Ht|]. split; [exact Hex|]. split; [exact Hinc|reflexivity].
Qed.


Lemma gmatch_star_unfold ts s :
  gmatch (GStar :: ts) s
  = gmatch ts s || match s with [] => false | _ :: s' => gmatch (GStar :: ts) s' end.
Proof. destruct s; reflexivity. Qed.



Lemma gmatch_needs_slash ts name :
  c_slash ∉ name -> gmatch (GStar :: GStar :: GLit c_slash :: ts) name = false.
Proof.
  assert (H1 : forall s, c_slash ∉ s -> gmatch (GLit c_slash :: ts) s = false).
  { intros [|c s] Hs; [reflexivity|]. cbn [gmatch gtok_accepts].
    destruct (N.eqb_spec c c_slash) as [->|_]; [|reflexivity].
    exfalso. apply Hs. constructor. }
  assert (H2 : forall s, c_slash ∉ s -> gmatch (GStar :: GLit c_slash :: ts) s = false).
  { induction s as [|c s IH]; intros Hs; rewrite gmatch_star_unfold, H1 by exact Hs.
    - reflexivity.
    - apply IH. intros Hin. apply Hs. now constructor. }
  induction name as [|c s IH]; intros Hs; rewrite gmatch_star_unfold, H2 by exact Hs.
  - reflexivity.
  - apply IH. intros Hin. apply Hs. now constructor.
Qed.

Lemma rel_str_root name : c_backslash ∉ name -> rel_str [] name = name.
Proof.
  intros Hb. unfold rel_str. cbn [app join]. unfold replace_char.
  induction name as [|c s IH]; [reflexivity|]. cbn [map].
  destruct (N.eqb_spec c c_backslash) as [->|_].
  - exfalso. apply Hb. constructor.
  - f_equal. apply IH. intros Hin. apply Hb. now constructor.
Qed.

(** X7. With [include_globs] left out, the generic scanner takes no
    file that lies directly in the root: each of its default globs starts
    with [**/], which [fnmatch] only matches against a path with a
    separator in it. *)
Theorem root_level_files_are_not_scanned root exclude_globs fs :
  Forall (fun f => (c_slash ∉ fst f) /\ (c_backslash ∉ fst f)) fs ->
  step_candidates root default_include_globs exclude_globs (Triple [] fs) = [].
Proof.
  intros Hall. unfold step_candidates. cbn [rel_dir files].
  induction Hall as [|f rest [Hs Hb] _ IH]; [reflexivity|].
  cbn [omap list_omap]. rewrite rel_str_root by exact Hb.
  assert (Hsel : file_selected default_include_globs exclude_globs (fst f) = false).
  { unfold file_selected. destruct (any_fnmatch (fst f) exclude_globs); [reflexivity|].
    assert (Hinc : any_fnmatch (fst f) default_include_globs = false).
    { unfold any_fnmatch, default_include_globs. cbn [map existsb].
      unfold fnmatch.
      repeat match goal with
      | |- context [gmatch (translate ?g) (fst f)] =>
        let ts := eval vm_compute in (translate g) in
        change (translate g) with ts; rewrite gmatch_needs_slash by exact Hs
      end. reflexivity. }
    rewrite Hinc. reflexivity. }
  rewrite Hsel. exact IH.
Qed.










(** X9. The lister and the generic scanner walk alike: for the same
    globs the lister lists the paths of the scanner's candidates, in the
    same order, so the files the scanner opens under a cap are the first
    ones of the lister's list. *)
Theorem scanner_opens_what_the_lister_lists tree repo_root cregs include_globs exclude_globs
    max_matches_per_file context_lines max_files :
  ListRepositoryFilesTool._scan_local_fs tree repo_root include_globs exclude_globs
  = map fst (candidates tree repo_root include_globs exclude_globs) /\
  opened (scan tree repo_root cregs include_globs exclude_globs
            max_matches_per_file context_lines max_files)
  = take (Z.to_nat max_files)
      (ListRepositoryFilesTool._scan_local_fs tree repo_root include_globs exclude_globs).
Proof.
  assert (Heq : ListRepositoryFilesTool._scan_local_fs tree repo_root include_globs
                  exclude_globs
                = map fst (candidates tree repo_root include_globs exclude_globs)).
  { unfold ListRepositoryFilesTool._scan_local_fs, candidates.
    induction (walk_root exclude_globs tree) as [|t ts IH]; [reflexivity|].
    cbn [flat_map]. rewrite map_app, IH. f_equal.
    unfold ListRepositoryFilesTool.matched_in, step_candidates.
    induction (files t) as [|f fs IHf]; [reflexivity|].
    cbn [omap list_omap]. destruct (file_selected _ _ _); cbn; now rewrite IHf. }
  split; [exact Heq|].
  destruct (scan_spec tree repo_root cregs include_globs exclude_globs
              max_matches_per_file context_lines max_files) as [_ Ho].
  cbn zeta in Ho. rewrite Ho, Heq. clear.
  generalize (Z.to_nat max_files) as n.
  induction (candidates tree repo_root include_globs exclude_globs) as [|c cs IH];
    intros [|n]; cbn; [reflexivity..|]. now rewrite IH.
Qed.

Lemma file_selected_orders include_globs exclude_globs rel :
  file_selected_incl_first include_globs exclude_globs rel
  = file_selected include_globs exclude_globs rel.
Proof.
  unfold file_selected_incl_first, file_selected.
  destruct (bool_decide _), (any_fnmatch rel include_globs),
    (any_fnmatch rel exclude_globs); reflexivity.
Qed.

(** X10. The schema scanner tests the include globs before the exclude
    globs and the generic scanner the other way round; both take the
    same files: the schema scanner reads exactly the generic scanner's
    candidates, in the same order. *)
Theorem schema_scanner_reads_the_candidates tree repo_root include_globs exclude_globs :
  DbSchemaScannerTool.matches tree repo_root include_globs exclude_globs
  = flat_map (fun c => match snd c with
                       | Some text =>
                         DbSchemaScannerTool.scan_content (fst c) (universal_newlines text)
                       | None => []
                       end)
      (candidates tree repo_root include_globs exclude_globs).
Proof.
  unfold DbSchemaScannerTool.matches, candidates.
  induction (walk_root exclude_globs tree) as [|t ts IH]; [reflexivity|].
  cbn [flat_map]. rewrite flat_map_app, IH. f_equal.
  unfold DbSchemaScannerTool.scan_step, step_candidates.
  induction (files t) as [|f fs IHf]; [reflexivity|].
  cbn [flat_map omap list_omap]. rewrite file_selected_orders.
  destruct (file_selected _ _ _); cbn [flat_map fst snd app]; now rewrite IHf.
Qed.

End Selection.

(** X6 at work: the first file opened. *)
Lemma opened_files_pass_the_filter_witness :
  exists (t : triple) (f : str * option str),
    t ∈ walk_root SearchRepoPatternsTool.default_exclude_globs (Some three_files_repo) /\
    f ∈ files t /\
    kept SearchRepoPatternsTool.default_exclude_globs [] (rel_dir t) = true /\
    any_fnmatch (rel_str (rel_dir t) (fst f))
      SearchRepoPatternsTool.default_exclude_globs = false /\
    (SearchRepoPatternsTool.default_include_globs = [] \/
     any_fnmatch (rel_str (rel_dir t) (fst f))
       SearchRepoPatternsTool.default_include_globs = true) /\
    u "/repo/src/a.py"
    = path_str (path_div (path_of_str (u "/repo"))
                  (path_of_str (rel_str (rel_dir t) (fst f)))).
Proof.
  apply (opened_files_pass_the_filter (H := plain_lib) (Some three_files_repo) (u "/repo")
           export_default SearchRepoPatternsTool.default_include_globs
           SearchRepoPatternsTool.default_exclude_globs 5 2 2).
  vm_compute. constructor.
Defined.

(** X7 at work: a README directly in the root. *)
Lemma root_level_files_are_not_scanned_witness :
  SearchSpec.step_candidates (path_of_str (u "/repo"))
    SearchRepoPatternsTool.default_include_globs
    SearchRepoPatternsTool.default_exclude_globs
    (Triple [] [(u "README.md", Some (u "hello"))]) = [].
Proof.
  apply root_level_files_are_not_scanned.
  repeat constructor; cbn [fst]; apply (bool_decide_unpack _); vm_compute; exact I.
Defined.


(* --------------------------------------------------------------------- *)
(** ** repo_mcp_tools.py: the lister *)
(* --------------------------------------------------------------------- *)

Section Lister.
Context `{PyLib}.
Import ListRepositoryFilesTool ListRepositoryFilesRun.

(** X11. The lister's cap: with [max_files = k >= 0] the list returned
    is the first [k] paths of the scan, so it has at most [k] entries and
    keeps the order of the walk. *)
Theorem lister_cap tree repo_root include_globs exclude_globs k :
  (0 <= k)%Z ->
  let all := _scan_local_fs tree repo_root
               (or_default include_globs default_include_globs)
               (or_default exclude_globs default_exclude_globs) in
  _run_files tree repo_root include_globs exclude_globs k = take (Z.to_nat k) all /\
  (Z.of_nat (length (_run_files tree repo_root include_globs exclude_globs k)) <= k)%Z.
Proof.
  intros Hk all.
  assert (Heq : _run_files tree repo_root include_globs exclude_globs k
                = take (Z.to_nat k) all).
  { unfold _run_files. fold all.
    destruct (Z.gtb_spec (Z.of_nat (length all)) k) as [Hgt|Hle].
    - unfold py_slice, slice_index.
      destruct (Z.ltb_spec 0 0); [lia|]. destruct (Z.ltb_spec k 0); [lia|].
      replace (Z.to_nat (Z.min 0 (Z.of_nat (length all)))) with 0%nat by lia.
      rewrite drop_0, Nat.sub_0_r. f_equal. lia.
    - symmetry. apply take_ge. lia. }
  split; [exact Heq|]. rewrite Heq, length_take. lia.
Qed.

Lemma count_ext_total ext l : stats_total (count_ext ext l) = (stats_total l + 1)%Z.
Proof.
  unfold stats_total. induction l as [|[k n] l IH]; cbn; [lia|].
  destruct (str_eqb k ext); cbn; lia.
Qed.

Lemma count_ext_keys ext l k :
  k ∈ map fst (count_ext ext l) <-> k = ext \/ k ∈ map fst l.
Proof.
  induction l as [|[k' n] l IH]; cbn [count_ext map fst].
  - rewrite list_elem_of_singleton. split; [now left|]. intros [?|Hin]; [done|inversion Hin].
  - unfold str_eqb. destruct (bool_decide_reflect (k' = ext)) as [->|Hne];
      cbn [map fst]; rewrite !elem_of_cons.
    + tauto.
    + rewrite IH. tauto.
Qed.

Lemma count_ext_NoDup ext l : NoDup (map fst l) -> NoDup (map fst (count_ext ext l)).
Proof.
  induction l as [|[k n] l IH]; cbn [count_ext map fst]; intros Hnd.
  - apply NoDup_singleton.
  - apply NoDup_cons in Hnd as [Hk Hnd]. unfold str_eqb.
    destruct (bool_decide_reflect (k = ext)) as [->|Hne]; cbn [map fst].
    + now apply NoDup_cons.
    + apply NoDup_cons. split; [|now apply IH].
      rewrite count_ext_keys. intros [?|?]; congruence.
Qed.

Lemma count_ext_positive ext l :
  ext <> [] ->
  Forall (fun kv => fst kv <> [] /\ (1 <= snd kv)%Z) l ->
  Forall (fun kv => fst kv <> [] /\ (1 <= snd kv)%Z) (count_ext ext l).
Proof.
  intros Hext. induction 1 as [|[k n] l [Hk Hn] Hall IH]; cbn [count_ext].
  - constructor; [|constructor]. split; [exact Hext|cbn; lia].
  - cbn [fst snd] in Hk, Hn. destruct (str_eqb k ext).
    + constructor; [|exact Hall]. cbn [fst snd]. split; [exact Hk|lia].
    + constructor; [|exact IH]. cbn [fst snd]. split; [exact Hk|exact Hn].
Qed.

Lemma ext_key_nonempty path : ext_key path <> [].
Proof.
  unfold ext_key. destruct (GenerateGherkinStoriesTool.lower _); [|discriminate].
  vm_compute. discriminate.
Qed.


Lemma extension_stats_invariant files acc :
  NoDup (map fst acc) ->
  Forall (fun kv => fst kv <> [] /\ (1 <= snd kv)%Z) acc ->
  let stats := foldl (fun exts path => count_ext (ext_key path) exts) acc files in
  stats_total stats = (stats_total acc + Z.of_nat (length files))%Z /\
  NoDup (map fst stats) /\
  Forall (fun kv => fst kv <> [] /\ (1 <= snd kv)%Z) stats.
Proof.
  revert acc. induction files as [|path files IH]; intros acc Hnd Hpos; cbn zeta.
  - cbn [foldl length]. split; [lia|]. split; assumption.
  - cbn [foldl length].
    destruct (IH (count_ext (ext_key path) acc)) as (Ht & Hn & Hp).
    + now apply count_ext_NoDup.
    + apply count_ext_positive; [apply ext_key_nonempty|exact Hpos].
    + split; [|split; assumption]. rewrite Ht, count_ext_total. lia.
Qed.

(** X12. The extension statistics of the lister: the counts add up to
    the number of files returned (the [count] member), no extension is
    listed twice, every key is non-empty ([<no_ext>] stands for no
    extension) and every count is at least one. *)
Theorem extension_counts_add_up files :
  let stats := extension_stats files in
  stats_total stats = Z.of_nat (length files) /\
  NoDup (map fst stats) /\
  Forall (fun kv => fst kv <> [] /\ (1 <= snd kv)%Z) stats.
Proof.
  cbn zeta. unfold extension_stats.
  destruct (extension_stats_invariant files []) as (Ht & Hn & Hp).
  - constructor.
  - constructor.
  - split; [|split; assumption]. etransitivity; [exact Ht|]. reflexivity.
Qed.

Lemma insert_by_count_perm x l : insert_by_count x l ≡ₚ x :: l.
Proof.
  induction l as [|y l IH]; cbn [insert_by_count]; [reflexivity|].
  destruct (snd y <=? snd x)%Z; [reflexivity|].
  rewrite IH. apply Permutation_swap.
Qed.

Lemma sorted_by_count_perm l : sorted_by_count l ≡ₚ l.
Proof.
  induction l as [|x l IH]; [reflexivity|].
  cbn [sorted_by_count foldr]. fold (sorted_by_count l).
  now rewrite insert_by_count_perm, IH.
Qed.

Lemma insert_by_count_sorted x l :
  StronglySorted (fun a b => (snd b <= snd a)%Z) l ->
  StronglySorted (fun a b => (snd b <= snd a)%Z) (insert_by_count x l).
Proof.
  induction 1 as [|y l Hs IH Hall]; cbn [insert_by_count].
  - repeat constructor.
  - destruct (Z.leb_spec (snd y) (snd x)) as [Hle|Hgt].
    + constructor; [now constructor|]. constructor; [exact Hle|].
      eapply Forall_impl; [exact Hall|]. cbn. intros z Hz. lia.
    + constructor; [exact IH|].
      rewrite insert_by_count_perm. constructor; [lia|exact Hall].
Qed.

Lemma sorted_by_count_sorted l :
  StronglySorted (fun a b => (snd b <= snd a)%Z) (sorted_by_count l).
Proof.
  induction l as [|x l IH]; [constructor|].
  cbn [sorted_by_count foldr]. fold (sorted_by_count l). now apply insert_by_count_sorted.
Qed.

(** X13. The [ext_top] member of the summary: at most ten entries of the
    extension statistics, in order of decreasing count, and no entry left
    out has a larger count than one that is in. *)
Theorem ext_top_holds_the_largest extensions :
  let top := take 10 (sorted_by_count extensions) in
  (length top <= 10)%nat /\
  top ⊆ extensions /\
  StronglySorted (fun a b => (snd b <= snd a)%Z) top /\
  exists rest, extensions ≡ₚ top ++ rest /\
    forall x y, x ∈ top -> y ∈ rest -> (snd y <= snd x)%Z.
Proof.
  intros top. split; [unfold top; rewrite length_take; lia|]. split; [|split].
  - intros x Hx. apply (subseteq_take 10) in Hx. now rewrite sorted_by_count_perm in Hx.
  - pose proof (sorted_by_count_sorted extensions) as Hs.
    rewrite <- (take_drop 10 (sorted_by_count extensions)) in Hs.
    apply StronglySorted_app in Hs. tauto.
  - exists (drop 10 (sorted_by_count extensions)). split.
    + unfold top. now rewrite take_drop, sorted_by_count_perm.
    + intros x y Hx Hy.
      pose proof (sorted_by_count_sorted extensions) as Hs.
      rewrite <- (take_drop 10 (sorted_by_count extensions)) in Hs.
      exact (StronglySorted_app_1_elem_of _ _ _ x y Hs Hx Hy).
Qed.

Lemma write_file_spec fs name content fs' :
  write_file fs name content = Some fs' ->
  name <> [] /\
  fs' = <[path_str (path_of_str name) := NFile (Some content)]> fs /\
  forall n, fs !! path_str (path_of_str name) = Some n -> n <> NDir.
Proof.
  unfold write_file. intros Hw.
  destruct (last name) as [c|] eqn:Hlast; [|discriminate].
  assert (Hne : name <> []) by (intros ->; discriminate).
  assert (Hnd : lookup_path fs (path_of_str name) <> Some NDir)
    by (intros Hd; rewrite Hd in Hw; discriminate).
  assert (Hfs : fs' = <[path_str (path_of_str name) := NFile (Some content)]> fs).
  { destruct (lookup_path fs (path_of_str name)) as [[|?]|];
      [discriminate| |];
      (destruct (lookup_path fs (parent (path_of_str name))) as [[|?]|]; try discriminate;
       destruct (c =? c_slash); [discriminate|]; now injection Hw as <-). }
  split; [exact Hne|]. split; [exact Hfs|].
  intros n Hn ->. apply Hnd. unfold lookup_path.
  destruct (p_parts (path_of_str name)); [reflexivity|exact Hn].
Qed.

(** X14. What the lister does to the file system: it removes nothing
    and turns no directory into a file; it changes at most the entry at
    [output_file]; and when it answers [files written], the file there
    holds the dump of the full result, whose [count] and file list are
    those of the summary. *)
Theorem lister_writes_only_the_output_file `{JsonLib} tree fs repo_root include_globs
    exclude_globs max_files output_file :
  let files := _run_files tree repo_root include_globs exclude_globs max_files in
  let full :=
    JObj [(u "files", JArr (map JStr files));
          (u "extensions",
           JObj (map (fun kv => (fst kv, JInt (snd kv))) (extension_stats files)));
          (u "count", JInt (Z.of_nat (length files)))] in
  let out := _run tree fs repo_root include_globs exclude_globs max_files output_file in
  GeneratorSpec.kinds_kept fs out.1 /\
  (forall key,
     (forall name, output_file = Some name -> key <> path_str (path_of_str name)) ->
     out.1 !! key = fs !! key) /\
  (out = (fs, full) \/
   exists name,
     output_file = Some name /\ name <> [] /\
     out.1 !! path_str (path_of_str name) = Some (NFile (Some (json_dumps full))) /\
     out.2 = JObj [(u "message", JStr (u "files written"));
                   (u "output_file", JStr name);
                   (u "count", JInt (Z.of_nat (length files)));
                   (u "ext_top",
                    JArr (map (fun kv => JArr [JStr (fst kv); JInt (snd kv)])
                            (take 10 (sorted_by_count (extension_stats files)))))]).
Proof.
  cbn zeta. unfold _run.
  set (files := _run_files tree repo_root include_globs exclude_globs max_files).
  set (full := result_json files (extension_stats files)).
  assert (Hsame : GeneratorSpec.kinds_kept fs fs /\
            (forall key : str, fs !! key = fs !! key))
    by (split; [intros k n Hk; now exists n|reflexivity]).
  destruct output_file as [[|c name]|];
    [split; [apply Hsame|split; [intros; reflexivity|now left]]| |
     split; [apply Hsame|split; [intros; reflexivity|now left]]].
  destruct (write_file fs (c :: name) (json_dumps full)) as [fs'|] eqn:Hw;
    [|split; [apply Hsame|split; [intros; reflexivity|now left]]].
  apply write_file_spec in Hw as (Hne & -> & Hnd). cbn [fst snd].
  split; [|split].
  - intros k n Hk. destruct (decide (k = path_str (path_of_str (c :: name)))) as [->|Hk'].
    + exists (NFile (Some (json_dumps full))). rewrite lookup_insert_eq.
      split; [reflexivity|]. split; [intros ->; now destruct (Hnd NDir Hk)|discriminate].
    + exists n. rewrite lookup_insert_ne by congruence. now split.
  - intros key Hkey. rewrite lookup_insert_ne; [reflexivity|].
    intros Heq. now apply (Hkey (c :: name) eq_refl).
  - right. exists (c :: name). split; [reflexivity|]. split; [exact Hne|].
    split; [apply lookup_insert_eq|reflexivity].
Qed.

End Lister.

(** X11 at work: a cap of one on three files. *)
Lemma lister_cap_witness :
  (Z.of_nat (length (ListRepositoryFilesTool._run_files (Some three_files_repo) (u "/repo")
                       None None 1)) <= 1)%Z.
Proof.
  apply (lister_cap (Some three_files_repo) (u "/repo") None None 1). lia.
Defined.

(* --------------------------------------------------------------------- *)
(** ** repo_mcp_tools.py: the reader; robust_search_repo_patterns.py: the payload *)
(* --------------------------------------------------------------------- *)

Section Reader.

(** X15. The file reader's line range: with a range given, the text
    returned is the lines from [s = max(1, start_line)] to
    [e = max(s, end_line)] of the file, joined by newlines; so a start
    below one reads from the first line, an end before the start still
    gives the start line, and a start past the last line gives the empty
    string.  A file that cannot be opened gives the empty string. *)
Theorem reader_line_range text start_line end_line :
  let lines := splitlines (universal_newlines text) in
  let s := Z.max 1 start_line in
  let e := Z.max s end_line in
  ReadRepositoryFileTool._run (Some text) (Some start_line) (Some end_line)
  = join [c_nl] (take (Z.to_nat (e - s + 1)) (drop (Z.to_nat (s - 1)) lines)) /\
  ((end_line <= start_line)%Z ->
   ReadRepositoryFileTool._run (Some text) (Some start_line) (Some end_line)
   = default [] (lines !! Z.to_nat (s - 1))) /\
  ((Z.of_nat (length lines) < start_line)%Z ->
   ReadRepositoryFileTool._run (Some text) (Some start_line) (Some end_line) = []) /\
  ReadRepositoryFileTool._run None (Some start_line) (Some end_line) = [].
Proof.
  intros lines s e.
  assert (Heq : ReadRepositoryFileTool._run (Some text) (Some start_line) (Some end_line)
                = join [c_nl] (take (Z.to_nat (e - s + 1)) (drop (Z.to_nat (s - 1)) lines))).
  { unfold ReadRepositoryFileTool._run. fold lines s e. f_equal.
    unfold py_slice, slice_index.
    destruct (Z.ltb_spec (s - 1) 0); [subst s; lia|].
    destruct (Z.ltb_spec e 0); [subst e s; lia|].
    set (n := length lines).
    destruct (Z.le_gt_cases (s - 1) (Z.of_nat n)) as [Hs|Hs].
    - replace (Z.to_nat (Z.min (s - 1) (Z.of_nat n))) with (Z.to_nat (s - 1)) by lia.
      destruct (Z.le_gt_cases e (Z.of_nat n)) as [He|He].
      + f_equal. subst e. lia.
      + rewrite !take_ge; [reflexivity|rewrite length_drop; fold n; subst e; lia
                          |rewrite length_drop; fold n; lia].
    - rewrite !drop_ge by (fold n; lia). now rewrite !take_nil. }
  split; [exact Heq|]. split; [|split; [|reflexivity]]; clearbody lines.
  - intros Hle. rewrite Heq.
    replace (Z.to_nat (e - s + 1)) with 1%nat by (subst e s; lia).
    destruct (drop (Z.to_nat (s - 1)) lines) as [|l rest] eqn:Hd.
    + rewrite lookup_ge_None_2; [reflexivity|].
      apply (f_equal length) in Hd. rewrite length_drop in Hd.
      change (length (@nil str)) with 0%nat in Hd. unfold str in *. lia.
    + assert (Hl : lines !! Z.to_nat (s - 1) = Some l).
      { rewrite <- (Nat.add_0_r (Z.to_nat (s - 1))), <- lookup_drop, Hd. reflexivity. }
      unfold str in *. rewrite Hl. reflexivity.
  - intros Hgt. rewrite Heq, drop_ge by (unfold str in *; subst s; lia).
    now rewrite take_nil.
Qed.

Lemma universal_newlines_chars s : forall c,
  c ∈ universal_newlines s -> c <> c_cr /\ (c = c_nl \/ c ∈ s).
Proof.
  assert (Hgen : forall n s, (length s <= n)%nat -> forall c,
            c ∈ universal_newlines s -> c <> c_cr /\ (c = c_nl \/ c ∈ s)).
  { clear s. induction n as [|n IH]; intros s Hlen c Hc.
    - destruct s; [now apply elem_of_nil in Hc|cbn in Hlen; lia].
    - destruct s as [|a r]; [now apply elem_of_nil in Hc|].
      cbn [universal_newlines] in Hc. cbn [length] in Hlen.
      destruct (N.eqb_spec a c_cr) as [->|Ha].
      + destruct r as [|d r'].
        * apply list_elem_of_singleton in Hc. subst c. split; [discriminate|now left].
        * destruct (N.eqb_spec d c_nl) as [->|Hd];
            apply elem_of_cons in Hc as [->|Hc]; try (split; [discriminate|now left]).
          -- destruct (IH r' ltac:(cbn [length] in Hlen; lia) c Hc) as [H1 [H2|H2]];
               (split; [exact H1|]); [now left|right; now do 2 right].
          -- destruct (IH (d :: r') ltac:(lia) c Hc) as [H1 [H2|H2]];
               (split; [exact H1|]); [now left|right; now right].
      + apply elem_of_cons in Hc as [->|Hc].
        * split; [exact Ha|right; now left].
        * destruct (IH r ltac:(lia) c Hc) as [H1 [H2|H2]];
            (split; [exact H1|]); [now left|right; now right]. }
  intros c. now apply (Hgen (length s)).
Qed.

Lemma splitlines_acc_nil acc s : splitlines_acc acc s = [] -> acc = [] /\ s = [].
Proof.
  revert acc. induction s as [|c r IH]; intros acc; cbn [splitlines_acc].
  - now destruct acc.
  - destruct (c =? c_cr).
    + destruct r as [|d r']; [discriminate|]. now destruct (d =? c_nl).
    + destruct (is_linebreak c); [discriminate|].
      intros Hs. now destruct (IH _ Hs).
Qed.

(** Lines joined again: for a text whose only line break is the
    newline, the text less one final newline. *)
Lemma join_splitlines_acc s : forall acc,
  Forall (fun c => is_linebreak c = true -> c = c_nl) s ->
  join [c_nl] (splitlines_acc acc s) = reverse acc ++ chomp s.
Proof.
  induction s as [|c r IH]; intros acc Hall; cbn [splitlines_acc].
  - destruct acc; [reflexivity|]. cbn [join chomp]. now rewrite app_nil_r.
  - apply Forall_cons in Hall as [Hc Hr].
    destruct (N.eqb_spec c c_cr) as [->|Hcr]; [now specialize (Hc eq_refl)|].
    destruct (is_linebreak c) eqn:Hb.
    + rewrite (Hc eq_refl). destruct r as [|d r'].
      * cbn [splitlines_acc join chomp]. rewrite N.eqb_refl. now rewrite app_nil_r.
      * destruct (splitlines_acc [] (d :: r')) as [|l ls] eqn:Hs;
          [now apply splitlines_acc_nil in Hs as [_ ?]|].
        change (join [c_nl] (reverse acc :: l :: ls))
          with (reverse acc ++ [c_nl] ++ join [c_nl] (l :: ls)).
        rewrite <- Hs, (IH [] Hr). reflexivity.
    + rewrite (IH (c :: acc) Hr), reverse_cons, <- app_assoc. f_equal.
      destruct r as [|d r']; [|reflexivity]. cbn [chomp app].
      destruct (N.eqb_spec c c_nl) as [->|_]; [discriminate Hb|reflexivity].
Qed.

Lemma chomp_cons c r : r <> [] -> chomp (c :: r) = c :: chomp r.
Proof. now destruct r. Qed.

Lemma chomp_newline body : chomp (body ++ [c_nl]) = body.
Proof.
  induction body as [|c r IH]; [reflexivity|].
  cbn [app]. rewrite chomp_cons by (now destruct r). now rewrite IH.
Qed.

Lemma chomp_other s : last s <> Some c_nl -> chomp s = s.
Proof.
  induction s as [|c r IH]; [reflexivity|]. intros Hl. cbn [chomp].
  destruct r as [|d r'].
  - destruct (N.eqb_spec c c_nl) as [->|_]; [now contradiction Hl|reflexivity].
  - f_equal. apply IH. exact Hl.
Qed.

(** X16. Reading from the first line on: with a start at or before line
    one and no end, on a file whose line breaks are newlines and
    carriage returns only, the reader returns what it returns without a
    range, less one final newline: the two readings of the whole file
    differ by the newline that ends it, and agree when none does. *)
Theorem reader_from_the_first_line text start_line :
  (start_line <= 1)%Z ->
  Forall (fun c => is_linebreak c = true -> c = c_nl \/ c = c_cr) text ->
  let whole := ReadRepositoryFileTool._run (Some text) None None in
  let ranged := ReadRepositoryFileTool._run (Some text) (Some start_line) None in
  (forall body, whole = body ++ [c_nl] -> ranged = body) /\
  (last whole <> Some c_nl -> ranged = whole).
Proof.
  intros Hstart Hbreaks whole ranged.
  assert (Hwhole : whole = universal_newlines text) by reflexivity.
  assert (Hranged : ranged = chomp whole).
  { rewrite Hwhole. subst ranged whole. unfold ReadRepositoryFileTool._run.
    set (lines := splitlines (universal_newlines text)).
    replace (Z.max 1 start_line) with 1%Z by lia.
    assert (Hslice : py_slice (1 - 1) (Z.of_nat (length lines)) lines = lines).
    { unfold py_slice, slice_index. change (1 - 1)%Z with 0%Z.
      change (0 <? 0)%Z with false. cbv iota.
      destruct (Z.ltb_spec (Z.of_nat (length lines)) 0); [lia|].
      rewrite Z.min_id, Nat2Z.id. rewrite Z.min_l by lia. change (Z.to_nat 0) with O.
      now rewrite Nat.sub_0_r, drop_0, firstn_all. }
    rewrite Hslice. subst lines. unfold splitlines.
    rewrite join_splitlines_acc; [reflexivity|].
    apply Forall_forall. intros c Hc Hb.
    apply universal_newlines_chars in Hc as [Hcr [Hnl|Hin]]; [exact Hnl|].
    rewrite Forall_forall in Hbreaks. destruct (Hbreaks c Hin Hb); [assumption|contradiction]. }
  split.
  - intros body Hbody. rewrite Hranged, Hbody. apply chomp_newline.
  - intros Hlast. rewrite Hranged. now apply chomp_other.
Qed.

End Reader.

Section Robust.
Import RobustSearchRepoPatternsTool.

(** X17. What [_try_parse] accepts: the configuration it returns is a
    JSON object that has both [repo_root] and [patterns]; it is the
    payload itself, or the first such object of the payload's array.  A
    payload that is an object without these keys is not accepted. *)
Theorem try_parse_gives_a_config payload cfg :
  _try_parse payload = Some cfg ->
  is_config cfg = true /\
  (json_loads payload = Some cfg \/
   exists before after,
     json_loads payload = Some (JArr (before ++ cfg :: after)) /\
     Forall (fun item => is_config item = false) before).
Proof.
  unfold _try_parse. destruct (json_loads payload) as [data|]; [|discriminate].
  destruct (is_config data) eqn:Hc.
  - intros [= <-]. split; [exact Hc|now left].
  - destruct data as [| | | | |items|]; try discriminate.
    intros Hfind. split; [exact (proj2 (find_some _ _ Hfind))|]. right.
    clear Hc. induction items as [|item items IH]; [discriminate|].
    cbn [List.find] in Hfind. destruct (is_config item) eqn:Hi.
    + injection Hfind as <-. exists [], items. split; [reflexivity|constructor].
    + destruct (IH Hfind) as (before & after & Heq & Hall).
      injection Heq as Heq. exists (item :: before), after.
      split; [now rewrite Heq|]. now constructor.
Qed.

Lemma take_while_spec p s :
  Forall (fun c => p c = true) (take_while p s) /\
  exists rest, s = take_while p s ++ rest.
Proof.
  induction s as [|c s [IHf [rest IHr]]]; cbn [take_while].
  - split; [constructor|]. now exists [].
  - destruct (p c) eqn:Hp.
    + split; [now constructor|]. exists rest. cbn. now rewrite <- IHr.
    + split; [constructor|]. now exists (c :: s).
Qed.

(** X18. The fallback's root path: when the payload has a path-like
    token, [repo_root] is a piece of the payload that holds no quote and
    no newline and starts with a slash or with a drive letter, a colon
    and two backslashes; when it has none, [repo_root] is [.]. *)
Theorem heuristic_root_is_a_token_of_the_payload payload :
  match path_search payload with
  | None => _heuristic_extract payload
            = JObj [(u "repo_root", JStr (u "."));
                    (u "patterns", JArr (map JStr default_patterns))]
  | Some root =>
    _heuristic_extract payload
    = JObj [(u "repo_root", JStr root); (u "patterns", JArr (map JStr default_patterns))] /\
    (exists before after, payload = before ++ root ++ after) /\
    (c_quote ∉ root) /\ (c_nl ∉ root) /\
    (startswith [c_slash] root = true \/
     exists l, is_ascii_letter l = true /\
       startswith [l; c_colon; c_backslash; c_backslash] root = true)
  end.
Proof.
  unfold _heuristic_extract.
  destruct (path_search payload) as [root|] eqn:Hs; [|reflexivity].
  split; [reflexivity|].
  revert Hs. induction payload as [|c rest IH]; [discriminate|].
  cbn [path_search].
  destruct (drive_token (c :: rest)) as [m|] eqn:Hd.
  - intros [= <-]. unfold drive_token in Hd.
    destruct rest as [|c2 [|b1 [|b2 r]]]; try discriminate.
    destruct (is_ascii_letter c && (c2 =? c_colon) && (b1 =? c_backslash)
              && (b2 =? c_backslash)) eqn:Hpre; [|discriminate].
    destruct (take_while not_quote_nl r) as [|x run] eqn:Hrun; [discriminate|].
    injection Hd as <-.
    apply andb_true_iff in Hpre as [Hpre Hb2]. apply andb_true_iff in Hpre as [Hpre Hb1].
    apply andb_true_iff in Hpre as [Hl Hc2].
    apply N.eqb_eq in Hc2, Hb1, Hb2. subst c2 b1 b2.
    destruct (take_while_spec not_quote_nl r) as [Hall [after Hr]]. rewrite Hrun in Hall, Hr.
    assert (Hno : forall a, a = c_quote \/ a = c_nl ->
              a ∉ c :: c_colon :: c_backslash :: c_backslash :: x :: run).
    { intros a Ha Hin. repeat (apply elem_of_cons in Hin as [->|Hin]).
      - destruct Ha as [?|?]; subst; discriminate.
      - destruct Ha; discriminate.
      - destruct Ha; discriminate.
      - destruct Ha; discriminate.
      - rewrite Forall_forall in Hall. specialize (Hall _ (list_elem_of_here _ _)).
        unfold not_quote_nl in Hall. destruct Ha as [->| ->]; discriminate.
      - rewrite Forall_forall in Hall. specialize (Hall a (list_elem_of_further _ _ _ Hin)).
        unfold not_quote_nl in Hall. apply negb_true_iff, orb_false_iff in Hall as [H1 H2].
        apply N.eqb_neq in H1, H2. destruct Ha; contradiction. }
    split; [exists [], after; cbn; now rewrite Hr|].
    split; [apply Hno; now left|]. split; [apply Hno; now right|].
    right. exists c. split; [exact Hl|]. cbn. now rewrite !N.eqb_refl.
  - destruct (slash_token (c :: rest)) as [m|] eqn:Hsl.
    + intros [= <-]. unfold slash_token in Hsl.
      destruct (N.eqb_spec c c_slash) as [->|]; [|discriminate].
      set (p := fun c => not_quote_nl c && negb (isspace c)) in *.
      destruct (take_while p rest) as [|x run] eqn:Hrun; [discriminate|].
      injection Hsl as <-.
      destruct (take_while_spec p rest) as [Hall [after Hr]]. rewrite Hrun in Hall, Hr.
      assert (Hno : forall a, a = c_quote \/ a = c_nl -> a ∉ c_slash :: x :: run).
      { intros a Ha Hin. apply elem_of_cons in Hin as [->|Hin].
        - destruct Ha; discriminate.
        - rewrite Forall_forall in Hall. specialize (Hall a Hin).
          unfold p, not_quote_nl in Hall. apply andb_true_iff in Hall as [Hall _].
          apply negb_true_iff, orb_false_iff in Hall as [H1 H2].
          apply N.eqb_neq in H1, H2. destruct Ha; contradiction. }
      split; [exists [], after; cbn; now rewrite Hr|].
      split; [apply Hno; now left|]. split; [apply Hno; now right|].
      left. reflexivity.
    + intros Hs. destruct (IH Hs) as ((before & after & Heq) & Hq & Hn & Hstart).
      split; [exists (c :: before), after; cbn; now rewrite Heq|].
      split; [exact Hq|]. split; [exact Hn|exact Hstart].
Qed.

End Robust.

(** X15 at work: an end before the start gives the start line. *)
Lemma reader_line_range_witness :
  ReadRepositoryFileTool._run (Some three_lines) (Some 2%Z) (Some 1%Z) = u "two".
Proof.
  etransitivity.
  - apply (proj1 (proj2 (reader_line_range three_lines 2 1))). lia.
  - vm_compute. reflexivity.
Defined.

(** X16 at work: three lines and a final newline. *)
Lemma reader_from_the_first_line_witness :
  ReadRepositoryFileTool._run (Some (three_lines ++ [c_nl])) (Some 0%Z) None
  = three_lines.
Proof.
  apply (proj1 (reader_from_the_first_line (three_lines ++ [c_nl]) 0
                  ltac:(lia)
                  ltac:(apply (bool_decide_unpack _); vm_compute; exact I))).
  vm_compute. reflexivity.
Defined.

(** X17 at work: a payload that is a configuration. *)
Lemma try_parse_gives_a_config_witness :
  RobustSearchRepoPatternsTool.is_config
    (JObj [(u "repo_root", JStr (u "/r")); (u "patterns", JArr [JStr (u "a")])]) = true.
Proof.
  apply (try_parse_gives_a_config config_payload
           (JObj [(u "repo_root", JStr (u "/r")); (u "patterns", JArr [JStr (u "a")])])).
  vm_compute. reflexivity.
Defined.

(* --------------------------------------------------------------------- *)
(** ** user_histories/tools.py: the generator *)
(* --------------------------------------------------------------------- *)

Section Generator.
Context `{PyLib}.
Import GenerateGherkinStoriesTool GeneratorSpec.

Lemma detect_persona_in s : _detect_persona s ∈ personas.
Proof.
  unfold _detect_persona, personas.
  repeat match goal with |- context [if ?b then _ else _] => destruct b end;
    cbn [map]; auto using list_elem_of_here, list_elem_of_further.
Qed.

Lemma append_rule_keys persona br groups :
  map fst (append_rule persona br groups)
  = if bool_decide (persona ∈ map fst groups) then map fst groups
    else map fst groups ++ [persona].
Proof.
  induction groups as [|[p rules] rest IH]; cbn [append_rule map fst].
  - reflexivity.
  - unfold str_eqb. destruct (bool_decide_reflect (p = persona)) as [Hp|Hp].
    + subst p. cbn [map fst]. now rewrite bool_decide_eq_true_2 by constructor.
    + cbn [map fst]. rewrite IH.
      destruct (bool_decide_reflect (persona ∈ map fst rest)) as [Hin|Hin].
      * now rewrite bool_decide_eq_true_2 by now constructor.
      * rewrite bool_decide_eq_false_2; [reflexivity|].
        intros Hc. apply elem_of_cons in Hc as [->|Hc]; [now apply Hp|now apply Hin].
Qed.

Lemma append_rule_NoDup persona br groups :
  NoDup (map fst groups) -> NoDup (map fst (append_rule persona br groups)).
Proof.
  intros Hnd. rewrite append_rule_keys.
  destruct (bool_decide_reflect (persona ∈ map fst groups)) as [Hin|Hin]; [exact Hnd|].
  apply NoDup_app. split; [exact Hnd|]. split; [|apply NoDup_singleton].
  intros x Hx Hx'. apply list_elem_of_singleton in Hx'. now subst x.
Qed.

Lemma append_rule_perm persona br groups :
  concat (map snd (append_rule persona br groups)) ≡ₚ br :: concat (map snd groups).
Proof.
  induction groups as [|[p rules] rest IH]; cbn [append_rule map snd concat].
  - now rewrite app_nil_r.
  - destruct (str_eqb p persona); cbn [map snd concat].
    + rewrite <- app_assoc. cbn. now rewrite <- Permutation_middle.
    + rewrite IH. now rewrite <- Permutation_middle.
Qed.

Lemma append_rule_groups (P Q : str -> list json -> Prop) persona br groups :
  Q persona [br] ->
  (forall rules, P persona rules -> Q persona (rules ++ [br])) ->
  (forall p rules, P p rules -> Q p rules) ->
  Forall (fun g => P (fst g) (snd g)) groups ->
  Forall (fun g => Q (fst g) (snd g)) (append_rule persona br groups).
Proof.
  intros Hnew Hadd Hkeep. induction 1 as [|[p rules] rest Hg Hrest IH]; cbn [append_rule].
  - now repeat constructor.
  - unfold str_eqb. destruct (bool_decide_reflect (p = persona)) as [Hp|Hp].
    + subst p. constructor; [now apply Hadd|].
      eapply Forall_impl; [exact Hrest|]. intros g. apply Hkeep.
    + constructor; [now apply Hkeep|exact IH].
Qed.

(** What holds of the groups while the rules [done] have gone through
    the loop. *)
Lemma group_rules_invariant brs : forall groups done final,
  group_rules brs groups = Ret final ->
  NoDup (map fst groups) ->
  concat (map snd groups) ≡ₚ done ->
  Forall (fun g => snd g ≠ [] /\ sublist (snd g) done /\
                   Forall (fun br => rule_persona br = Some (fst g)) (snd g)) groups ->
  NoDup (map fst final) /\
  concat (map snd final) ≡ₚ done ++ brs /\
  Forall (fun g => snd g ≠ [] /\ sublist (snd g) (done ++ brs) /\
                   Forall (fun br => rule_persona br = Some (fst g)) (snd g)) final.
Proof.
  induction brs as [|br rest IH]; intros groups done final Hrun Hnd Hperm Hall.
  - injection Hrun as <-. rewrite app_nil_r. auto.
  - cbn [group_rules] in Hrun.
    destruct (get br "rule" (JStr [])) as [rule_text|e] eqn:Hget; [|discriminate].
    cbn in Hrun. destruct rule_text as [| | | |s| |]; try discriminate.
    assert (Hp : rule_persona br = Some (_detect_persona s))
      by (unfold rule_persona; now rewrite Hget).
    replace (done ++ br :: rest) with ((done ++ [br]) ++ rest)
      by now rewrite <- app_assoc.
    apply (IH _ _ _ Hrun).
    + now apply append_rule_NoDup.
    + rewrite append_rule_perm, Hperm. apply Permutation_cons_append.
    + apply (append_rule_groups
               (fun p rules => rules ≠ [] /\ sublist rules done /\
                               Forall (fun br => rule_persona br = Some p) rules)
               (fun p rules => rules ≠ [] /\ sublist rules (done ++ [br]) /\
                               Forall (fun br => rule_persona br = Some p) rules)).
      * split; [discriminate|]. split; [|now repeat constructor].
        apply sublist_inserts_l. reflexivity.
      * intros rules (_ & Hsub & Hf). split; [now destruct rules|].
        split; [now apply sublist_app|].
        apply Forall_app; split; [exact Hf|now repeat constructor].
      * intros p rules (Hne & Hsub & Hf).
        split; [exact Hne|]. split; [|exact Hf].
        now apply sublist_inserts_r.
      * exact Hall.
Qed.

(** X19. The grouping of a module's rules by persona: every rule is in
    exactly one group, the group of the persona found in its text; no
    persona has two groups and no group is empty; inside a group the
    rules keep the order they have in the module; so a module gives at
    most four files. *)
Theorem rules_are_partitioned_by_persona business_rules groups :
  group_rules business_rules [] = Ret groups ->
  NoDup (map fst groups) /\
  concat (map snd groups) ≡ₚ business_rules /\
  Forall (fun g => snd g ≠ [] /\ sublist (snd g) business_rules /\
                   Forall (fun br => rule_persona br = Some (fst g)) (snd g)) groups /\
  (length groups <= 4)%nat.
Proof.
  intros Hrun.
  destruct (group_rules_invariant business_rules [] [] groups Hrun)
    as (Hnd & Hperm & Hall); [constructor|reflexivity|constructor|].
  cbn [app] in Hperm, Hall. repeat split; try assumption.
  rewrite <- (length_map fst groups).
  change 4%nat with (length personas).
  apply submseteq_length, NoDup_submseteq; [exact Hnd|].
  intros k Hk. apply list_elem_of_fmap in Hk as ([k' rules] & -> & Hg).
  rewrite Forall_forall in Hall. destruct (Hall _ Hg) as (Hne & _ & Hf). cbn in *.
  destruct rules as [|br rules]; [contradiction|].
  apply Forall_cons in Hf as [Hbr _]. unfold rule_persona in Hbr.
  destruct (get br "rule" (JStr [])) as [[| | | |s| |]|]; try discriminate.
  injection Hbr as <-. apply detect_persona_in.
Qed.

Lemma elem_of_concat {A} (x : A) (ls : list (list A)) :
  x ∈ concat ls -> exists l, x ∈ l /\ l ∈ ls.
Proof.
  induction ls as [|l ls IH]; cbn [concat]; [now intros ?%elem_of_nil|].
  intros [Hx|Hx]%elem_of_app.
  - exists l. split; [exact Hx|constructor].
  - destruct (IH Hx) as (l' & Hl & Hin). exists l'. split; [exact Hl|now constructor].
Qed.

Lemma lstrip_subset s c : c ∈ lstrip s -> c ∈ s.
Proof.
  induction s as [|a s IH]; cbn [lstrip]; [easy|].
  destruct (isspace a); [|easy]. intros Hc. right. now apply IH.
Qed.

Lemma strip_subset s c : c ∈ strip s -> c ∈ s.
Proof.
  unfold strip, rstrip. intros Hc. rewrite elem_of_reverse in Hc.
  apply lstrip_subset in Hc. rewrite elem_of_reverse in Hc. now apply lstrip_subset.
Qed.

Lemma filename_char_plain c :
  filename_char c = true -> c ≠ c_slash /\ c ≠ c_dot.
Proof.
  unfold filename_char, isalnum_char. intros Hc.
  split; intros ->; cbn in Hc; discriminate.
Qed.

Lemma split_acc_plain sep s : forall acc,
  sep ∉ s -> split_acc sep acc s = [reverse acc ++ s].
Proof.
  induction s as [|c s IH]; intros acc Hs; cbn [split_acc].
  - now rewrite app_nil_r.
  - destruct (N.eqb_spec c sep) as [->|Hc]; [exfalso; apply Hs; constructor|].
    rewrite IH by (intros Hin; apply Hs; now constructor).
    now rewrite reverse_cons, <- app_assoc.
Qed.

(** X20. A sanitized module name is never empty and holds only letters,
    digits, hyphens and underscores, whatever the name in the analysis
    is; so the name of the file written for it is one path component:
    it cannot lead out of the directory of its persona. *)
Theorem sanitized_name_is_one_component name safe :
  _sanitize_filename name = Ret safe ->
  safe ≠ [] /\
  Forall (fun c => filename_char c = true) safe /\
  path_of_str (safe ++ u ".md") = Path [] [safe ++ u ".md"].
Proof.
  intros Hrun.
  assert (Hsafe : safe ≠ [] /\ Forall (fun c => filename_char c = true) safe).
  { unfold _sanitize_filename in Hrun.
    destruct (name_items name) as [items|e]; [|discriminate].
    cbn [mbind result_bind] in Hrun.
    match type of Hrun with context [strip ?k] => set (kept := k) in Hrun end.
    assert (Hkept : forall c, c ∈ kept -> filename_char c = true \/ c = c_space).
    { intros c Hc. subst kept. apply elem_of_concat in Hc as (item & Hc & Hitem).
      apply list_elem_of_filter in Hitem as [Hkeep _].
      unfold keep_item in Hkeep. apply orb_true_iff in Hkeep as [Halnum|Hin].
      - left. unfold isalnum in Halnum. apply andb_true_iff in Halnum as [_ Hall].
        rewrite forallb_forall in Hall. unfold filename_char.
        rewrite (Hall c) by now apply list_elem_of_In. reflexivity.
      - apply bool_decide_eq_true_1 in Hin.
        repeat (apply elem_of_cons in Hin as [->|Hin]);
          [right|left|left|now apply elem_of_nil in Hin];
          apply list_elem_of_singleton in Hc; subst c; reflexivity. }
    destruct (replace_char c_space c_underscore (strip kept)) as [|c r] eqn:Hr.
    - injection Hrun as <-. split; [discriminate|].
      replace (u "module") with [109; 111; 100; 117; 108; 101]
        by (vm_compute; reflexivity).
      repeat constructor.
    - injection Hrun as <-. split; [discriminate|]. rewrite <- Hr.
      unfold replace_char. apply Forall_forall. intros x Hx.
      apply list_elem_of_fmap in Hx as (y & -> & Hy).
      destruct (N.eqb_spec y c_space) as [_|Hne]; [reflexivity|].
      destruct (Hkept y (strip_subset _ _ Hy)); [assumption|contradiction]. }
  destruct Hsafe as [Hne Hall]. split; [exact Hne|]. split; [exact Hall|].
  assert (Hns : c_slash ∉ safe ++ u ".md").
  { intros Hin. apply elem_of_app in Hin as [Hin|Hin].
    - rewrite Forall_forall in Hall. now destruct (filename_char_plain _ (Hall _ Hin)).
    - revert Hin. replace (u ".md") with [46; 109; 100] by (vm_compute; reflexivity).
      intros Hin. repeat (apply elem_of_cons in Hin as [Hin|Hin]; [discriminate|]).
      now apply elem_of_nil in Hin. }
  unfold path_of_str, split_on. rewrite split_acc_plain by exact Hns.
  destruct safe as [|c r]; [contradiction|]. apply Forall_cons in Hall as [Hc _].
  destruct (filename_char_plain _ Hc) as [Hslash Hdot].
  cbn [app leading_slashes reverse]. rewrite (proj2 (N.eqb_neq c c_slash) Hslash).
  f_equal. rewrite filter_cons_True; [reflexivity|].
  split; [discriminate|]. intros [= -> _]. now apply Hdot.
Qed.

Lemma kinds_kept_refl fs : kinds_kept fs fs.
Proof. intros k n Hk. now exists n. Qed.

Lemma kinds_kept_trans fs1 fs2 fs3 :
  kinds_kept fs1 fs2 -> kinds_kept fs2 fs3 -> kinds_kept fs1 fs3.
Proof.
  intros H12 H23 k n Hk. destruct (H12 k n Hk) as (n2 & Hk2 & Hn2).
  destruct (H23 k n2 Hk2) as (n3 & Hk3 & Hn3). exists n3. split; [exact Hk3|].
  now rewrite Hn2.
Qed.

Lemma is_file_at_kept fs fs' k :
  kinds_kept fs fs' -> is_file_at fs k -> is_file_at fs' k.
Proof.
  intros Hkept [text Hk]. destruct (Hkept k _ Hk) as ([|text'] & Hk' & Hn).
  - discriminate (proj2 Hn eq_refl).
  - now exists text'.
Qed.

Lemma kinds_kept_insert_dir fs0 m q :
  p_parts q ≠ [] -> is_file fs0 q = false ->
  kinds_kept fs0 m -> kinds_kept fs0 (<[path_str q := NDir]> m).
Proof.
  intros Hparts Hfile Hkept k n Hk.
  destruct (decide (k = path_str q)) as [->|Hne].
  - exists NDir. rewrite lookup_insert_eq. split; [reflexivity|].
    unfold is_file, lookup_path in Hfile. destruct (p_parts q); [contradiction|].
    rewrite Hk in Hfile. now destruct n.
  - rewrite lookup_insert_ne by congruence. now apply Hkept.
Qed.

Lemma mkdir_parents_kinds fs p : kinds_kept fs (mkdir_parents fs p).1.
Proof.
  unfold mkdir_parents. destruct (existsb (is_file fs) (ancestors p)) eqn:Hex.
  - apply kinds_kept_refl.
  - cbn [fst].
    assert (Hall : Forall (fun q => p_parts q ≠ [] /\ is_file fs q = false) (ancestors p)).
    { apply Forall_forall. intros q Hq. split.
      - unfold ancestors in Hq. apply list_elem_of_fmap in Hq as (n & -> & Hn).
        apply list_elem_of_In, in_seq in Hn. cbn [p_parts].
        destruct (p_parts p); [cbn in Hn; lia|]. destruct n; [lia|discriminate].
      - destruct (is_file fs q) eqn:Hf; [|reflexivity].
        assert (existsb (is_file fs) (ancestors p) = true)
          by (apply existsb_exists; exists q; split; [now apply list_elem_of_In|exact Hf]).
        congruence. }
    revert Hall. generalize (ancestors p). intros l Hall.
    assert (Hgen : forall m, kinds_kept fs m ->
              kinds_kept fs (foldl (fun m q => <[path_str q := NDir]> m) m l)).
    { induction Hall as [|q l [Hq1 Hq2] _ IH]; intros m Hm; [exact Hm|].
      cbn [foldl]. apply IH. now apply kinds_kept_insert_dir. }
    apply Hgen, kinds_kept_refl.
Qed.

Lemma write_text_kinds fs p content : kinds_kept fs (write_text fs p content).1.
Proof.
  unfold write_text.
  assert (Hins : forall node text, lookup_path fs p = node -> node ≠ Some NDir ->
            kinds_kept fs (<[path_str p := NFile text]> fs)).
  { intros node text Hl Hnd k n Hk.
    destruct (decide (k = path_str p)) as [->|Hne].
    - exists (NFile text). rewrite lookup_insert_eq. split; [reflexivity|].
      unfold lookup_path in Hl. destruct (p_parts p); [now subst node|].
      rewrite Hk in Hl. subst node. split; [intros ->; contradiction|discriminate].
    - exists n. rewrite lookup_insert_ne by congruence. now split. }
  destruct (lookup_path fs p) as [[|text]|] eqn:Hl;
    [apply kinds_kept_refl| |];
    (destruct (lookup_path fs (parent p)) as [[|?]|]; try apply kinds_kept_refl;
     destruct (existsb is_surrogate content); cbn [fst];
     eapply Hins; [reflexivity|discriminate|reflexivity|discriminate]).
Qed.

Lemma write_text_written fs p content fs' :
  write_text fs p content = (fs', Ret tt) -> is_file_at fs' (path_str p).
Proof.
  unfold write_text.
  destruct (lookup_path fs p) as [[|text]|];
    destruct (lookup_path fs (parent p)) as [[|?]|]; try discriminate;
    (destruct (existsb is_surrogate content); [discriminate|]);
    intros [= <-]; eexists; apply lookup_insert_eq.
Qed.

Section Writes.
Variables (output_dir : str) (group_by_persona : bool).

Lemma write_feature_kinds module_name functional_domain persona rules fs :
  let r := write_feature output_dir group_by_persona module_name functional_domain
             persona rules fs in
  kinds_kept fs r.1 /\ forall filepath, r.2 = Ret filepath -> is_file_at r.1 filepath.
Proof.
  unfold write_feature.
  destruct (feature_text _ _ _ _) as [content|e];
    [|split; [apply kinds_kept_refl|discriminate]].
  set (base_dir := if group_by_persona then _ else _).
  pose proof (mkdir_parents_kinds fs base_dir) as Hmk.
  destruct (mkdir_parents fs base_dir) as [fs1 [[]|e]]; cbn [fst] in Hmk;
    [|split; [exact Hmk|discriminate]].
  destruct (_sanitize_filename module_name) as [safe|e];
    [|split; [exact Hmk|discriminate]].
  set (filepath := path_div base_dir _).
  pose proof (write_text_kinds fs1 filepath content) as Hwr.
  pose proof (write_text_written fs1 filepath content) as Hfile.
  destruct (write_text fs1 filepath content) as [fs2 [[]|e]]; cbn [fst snd] in *.
  - split; [now apply kinds_kept_trans with fs1|].
    intros fp [= <-]. now apply Hfile.
  - split; [now apply kinds_kept_trans with fs1|discriminate].
Qed.

Lemma write_groups_kinds module_name functional_domain groups : forall fs written,
  let r := write_groups output_dir group_by_persona module_name functional_domain
             groups fs written in
  kinds_kept fs r.1 /\
  forall written', r.2 = Ret written' ->
    Forall (is_file_at fs) written -> Forall (is_file_at r.1) written'.
Proof.
  induction groups as [|[persona rules] rest IH]; intros fs written; cbn [write_groups].
  - split; [apply kinds_kept_refl|]. now intros w [= <-].
  - destruct (write_feature_kinds module_name functional_domain persona rules fs)
      as [Hk Hf].
    destruct (write_feature _ _ _ _ _ _ _) as [fs' [filepath|e]]; cbn [fst snd] in *;
      [|split; [exact Hk|discriminate]].
    destruct (IH fs' (written ++ [filepath])) as [Hk' Hf'].
    split; [now apply kinds_kept_trans with fs'|].
    intros written' Hret Hall. apply (Hf' _ Hret). apply Forall_app. split.
    + eapply Forall_impl; [exact Hall|]. intros w. now apply is_file_at_kept.
    + repeat constructor. now apply Hf.
Qed.

Lemma write_module_kinds module fs written :
  let r := write_module output_dir group_by_persona module fs written in
  kinds_kept fs r.1 /\
  forall written', r.2 = Ret written' ->
    Forall (is_file_at fs) written -> Forall (is_file_at r.1) written'.
Proof.
  unfold write_module.
  destruct (_ ← get module "name" (JStr (u "Module")); _) as [[[mn fd] groups]|e].
  - apply write_groups_kinds.
  - split; [apply kinds_kept_refl|discriminate].
Qed.

Lemma write_modules_kinds modules : forall fs written,
  let r := write_modules output_dir group_by_persona modules fs written in
  kinds_kept fs r.1 /\
  forall written', r.2 = Ret written' ->
    Forall (is_file_at fs) written -> Forall (is_file_at r.1) written'.
Proof.
  induction modules as [|module rest IH]; intros fs written; cbn [write_modules].
  - split; [apply kinds_kept_refl|]. now intros w [= <-].
  - destruct (write_module_kinds module fs written) as [Hk Hf].
    destruct (write_module _ _ _ _ _) as [fs' [written1|e]]; cbn [fst snd] in *;
      [|split; [exact Hk|discriminate]].
    destruct (IH fs' written1) as [Hk' Hf'].
    split; [now apply kinds_kept_trans with fs'|].
    intros written' Hret Hall. apply (Hf' _ Hret). now apply Hf.
Qed.

Lemma write_modules_no_rules modules : forall fs written,
  forallb no_rules modules = true ->
  write_modules output_dir group_by_persona modules fs written = (fs, Ret written).
Proof.
  induction modules as [|module rest IH]; intros fs written Hall; [reflexivity|].
  cbn [forallb] in Hall. apply andb_true_iff in Hall as [Hm Hrest].
  cbn [write_modules].
  assert (Hw : write_module output_dir group_by_persona module fs written
               = (fs, Ret written)).
  { unfold write_module, no_rules in *. destruct module as [| | | | | |ms]; try discriminate.
    cbn [get mbind result_bind].
    destruct (obj_get (u "business_rules") ms) as [[| | | | |[|? ?]|]|];
      try discriminate; reflexivity. }
  rewrite Hw. now apply IH.
Qed.

End Writes.

(** X21. The generator never removes anything and never turns a file
    into a directory or a directory into a file: whatever the analysis
    and however the run ends, what was in the file system is still
    there, as the same kind of thing. *)
Theorem generator_keeps_files_and_directories fs analysis_path output_dir
    group_by_persona strict_mode :
  kinds_kept fs (_run fs analysis_path output_dir group_by_persona strict_mode).1.
Proof.
  unfold _run. destruct (load_analysis fs analysis_path) as [analysis|];
    [|apply kinds_kept_refl].
  destruct (_ ← get analysis "modules" (JArr []); _) as [modules|e];
    [|apply kinds_kept_refl].
  destruct (write_modules_kinds output_dir group_by_persona modules fs []) as [Hk _].
  now destruct (write_modules _ _ _ _ _) as [fs' [written|e]].
Qed.

(** X22. Every path the generator reports as written is a regular file
    when it returns. *)
Theorem written_paths_are_files fs analysis_path output_dir group_by_persona
    strict_mode fs' v :
  _run fs analysis_path output_dir group_by_persona strict_mode = (fs', Ret v) ->
  exists written more,
    v = JObj ((u "written", JArr (map JStr written)) :: more) /\
    Forall (is_file_at fs') written.
Proof.
  unfold _run. destruct (load_analysis fs analysis_path) as [analysis|].
  - destruct (_ ← get analysis "modules" (JArr []); _) as [modules|e]; [|discriminate].
    destruct (write_modules_kinds output_dir group_by_persona modules fs []) as [_ Hf].
    destruct (write_modules _ _ _ _ _) as [fs1 [written|e]]; [|discriminate].
    intros [= <- <-]. exists written, []. split; [reflexivity|].
    now apply Hf.
  - intros [= <- <-]. exists [], [(u "error",
      JStr (u "analysis.json não encontrado ou inválido em " ++ analysis_path))].
    split; [reflexivity|constructor].
Qed.

(** X23. The shape of the analysis: one that parses but is not an
    object makes the generator raise AttributeError, with nothing
    written; an object whose modules have no business rules (or that has
    no module) gives an empty [written] list and leaves the file system
    as it was. *)
Theorem analysis_without_rules_writes_nothing fs analysis_path output_dir
    group_by_persona strict_mode analysis :
  load_analysis fs analysis_path = Some analysis ->
  match analysis with
  | JObj ms =>
    forall modules,
      default (JArr []) (obj_get (u "modules") ms) = JArr modules ->
      forallb no_rules modules = true ->
      _run fs analysis_path output_dir group_by_persona strict_mode
      = (fs, Ret (JObj [(u "written", JArr [])]))
  | _ =>
    _run fs analysis_path output_dir group_by_persona strict_mode
    = (fs, Raise AttributeError)
  end.
Proof.
  intros Hload. unfold _run. rewrite Hload.
  destruct analysis as [| | | | | |ms]; try reflexivity.
  intros modules Hm Hall. cbn [get mbind result_bind]. rewrite Hm. cbn [iterate].
  now rewrite write_modules_no_rules.
Qed.

End Generator.

(** X19 at work: four rules of three personas; the first rule names
    the administrator and the player and goes to the administrator. *)
Lemma rules_are_partitioned_by_persona_witness :
  NoDup (map fst four_rules_groups) /\
  concat (map snd four_rules_groups) ≡ₚ four_rules /\
  Forall (fun g => snd g ≠ [] /\ sublist (snd g) four_rules /\
                   Forall (fun br => GeneratorSpec.rule_persona (H := plain_lib) br
                                     = Some (fst g)) (snd g)) four_rules_groups /\
  (length four_rules_groups <= 4)%nat.
Proof.
  apply (rules_are_partitioned_by_persona (H := plain_lib) four_rules four_rules_groups).
  vm_compute. reflexivity.
Defined.

(** X20 at work: a name with a blank and a slash. *)
Lemma sanitized_name_is_one_component_witness :
  path_of_str (u "User_Auth" ++ u ".md") = Path [] [u "User_Auth" ++ u ".md"].
Proof.
  apply (sanitized_name_is_one_component (H := plain_lib) (JStr (u "User/ Auth"))
           (u "User_Auth")).
  vm_compute. reflexivity.
Defined.

(** X22 at work: the file of the scenario test. *)
Lemma written_paths_are_files_witness :
  exists written more,
    JObj [(u "written", JArr [JStr (u "/out/Usuário/Auth.md")])]
    = JObj ((u "written", JArr (map JStr written)) :: more) /\
    Forall (GeneratorSpec.is_file_at
              (GenerateGherkinStoriesTool._run (H := plain_lib) GherkinSpec.auth_fs
                 (u "/work/analysis.json") (u "/out") true true).1) written.
Proof.
  apply (written_paths_are_files (H := plain_lib) GherkinSpec.auth_fs
           (u "/work/analysis.json") (u "/out") true true).
  vm_compute. reflexivity.
Defined.

(** X23 at work: an analysis of two modules without rules, and one
    that is a list. *)
Lemma analysis_without_rules_writes_nothing_witness :
  GenerateGherkinStoriesTool._run (H := plain_lib) no_rules_fs
    (u "/work/analysis.json") (u "/out") true true
  = (no_rules_fs, Ret (JObj [(u "written", JArr [])])) /\
  GenerateGherkinStoriesTool._run (H := plain_lib) list_analysis_fs
    (u "/work/analysis.json") (u "/out") true true
  = (list_analysis_fs, Raise AttributeError).
Proof.
  split.
  - exact (analysis_without_rules_writes_nothing (H := plain_lib) no_rules_fs
             (u "/work/analysis.json") (u "/out") true true
             (JObj [(u "modules",
                     JArr [JObj [(u "name", JStr (u "A"))];
                           JObj [(u "name", JStr (u "B"));
                                 (u "business_rules", JArr [])]])])
             ltac:(vm_compute; reflexivity)
             [JObj [(u "name", JStr (u "A"))];
              JObj [(u "name", JStr (u "B")); (u "business_rules", JArr [])]]
             ltac:(vm_compute; reflexivity) ltac:(vm_compute; reflexivity)).
  - exact (analysis_without_rules_writes_nothing (H := plain_lib) list_analysis_fs
             (u "/work/analysis.json") (u "/out") true true
             (JArr [JInt 1; JInt 2]) ltac:(vm_compute; reflexivity)).
Defined.

(* --------------------------------------------------------------------- *)
(** ** Paths, the file tools, and the records of the specialised scanners *)
(* --------------------------------------------------------------------- *)

Section Paths.

Lemma split_acc_cut sep a rest : forall acc,
  sep ∉ a ->
  split_acc sep acc (a ++ sep :: rest) = (reverse acc ++ a) :: split_acc sep [] rest.
Proof.
  induction a as [|c a IH]; intros acc Ha; cbn [app split_acc].
  - now rewrite N.eqb_refl, app_nil_r.
  - destruct (N.eqb_spec c sep) as [->|_]; [exfalso; apply Ha; constructor|].
    rewrite IH by (intros Hin; apply Ha; now constructor).
    now rewrite reverse_cons, <- app_assoc.
Qed.

Lemma split_on_join sep part parts :
  Forall (fun p => sep ∉ p) (part :: parts) ->
  split_on sep (join [sep] (part :: parts)) = part :: parts.
Proof.
  unfold split_on. revert part. induction parts as [|q parts IH]; intros part Hall.
  - cbn [join]. apply Forall_cons in Hall as [Hp _]. now rewrite split_acc_plain.
  - apply Forall_cons in Hall as [Hp Hall].
    change (join [sep] (part :: q :: parts)) with (part ++ sep :: join [sep] (q :: parts)).
    rewrite split_acc_cut by exact Hp. now rewrite IH.
Qed.

Lemma split_acc_sep_free sep s : forall acc,
  sep ∉ acc -> Forall (fun p => sep ∉ p) (split_acc sep acc s).
Proof.
  induction s as [|c s IH]; intros acc Hacc; cbn [split_acc].
  - repeat constructor. now rewrite elem_of_reverse.
  - destruct (N.eqb_spec c sep) as [->|Hc].
    + constructor; [now rewrite elem_of_reverse|]. apply IH. apply not_elem_of_nil.
    + apply IH. intros [?|?]%elem_of_cons; [congruence|contradiction].
Qed.

(** The paths [Path(s)] builds: a root of at most two slashes, and parts
    that are not empty, not [.] and hold no slash. *)
Lemma path_of_str_parts s :
  Forall (fun p => p ≠ [] /\ p ≠ [c_dot] /\ c_slash ∉ p) (p_parts (path_of_str s)) /\
  p_root (path_of_str s) ∈ [[]; [c_slash]; [c_slash; c_slash]].
Proof.
  unfold path_of_str. cbn [p_parts p_root]. split.
  - apply Forall_forall. intros p Hp. apply list_elem_of_filter in Hp as [[H1 H2] Hin].
    split; [exact H1|]. split; [exact H2|].
    pose proof (split_acc_sep_free c_slash s [] (not_elem_of_nil _)) as Hall.
    rewrite Forall_forall in Hall. now apply Hall.
  - destruct (leading_slashes s) as [|[|[|n]]]; set_solver.
Qed.

Lemma leading_slashes_join part parts :
  part ≠ [] -> c_slash ∉ part -> leading_slashes (join [c_slash] (part :: parts)) = O.
Proof.
  intros Hne Hns. destruct part as [|c part]; [contradiction|].
  assert (Hc : c ≠ c_slash) by (intros ->; apply Hns; constructor).
  destruct parts; cbn [join app leading_slashes]; now rewrite (proj2 (N.eqb_neq _ _) Hc).
Qed.

Lemma path_round_trip p :
  Forall (fun q => q ≠ [] /\ q ≠ [c_dot] /\ c_slash ∉ q) (p_parts p) ->
  p_root p ∈ [[]; [c_slash]; [c_slash; c_slash]] ->
  path_of_str (path_str p) = p.
Proof.
  destruct p as [root parts]. cbn [p_parts p_root]. intros Hparts Hroot.
  assert (Hfilter : filter (fun q : str => q ≠ [] ∧ q ≠ [c_dot]) parts = parts).
  { clear Hroot. induction Hparts as [|q parts (H1 & H2 & _) _ IH]; [reflexivity|].
    rewrite filter_cons_True by (split; assumption). now rewrite IH. }
  assert (Hfree : Forall (fun q => c_slash ∉ q) parts)
    by (eapply Forall_impl; [exact Hparts|]; now intros q (_ & _ & ?)).
  assert (Hsplit : filter (fun q : str => q ≠ [] ∧ q ≠ [c_dot])
                     (split_on c_slash (join [c_slash] parts)) = parts).
  { destruct parts as [|part parts]; [reflexivity|].
    now rewrite split_on_join. }
  assert (Hlead : leading_slashes (join [c_slash] parts) = O).
  { destruct parts as [|part parts]; [reflexivity|].
    apply Forall_cons in Hparts as [(H1 & _ & H3) _]. now apply leading_slashes_join. }
  unfold path_str, path_of_str. cbn [p_root p_parts].
  repeat (apply elem_of_cons in Hroot as [->|Hroot]); [| | |now apply elem_of_nil in Hroot].
  - destruct parts as [|part parts]; [reflexivity|].
    cbn [app]. rewrite Hlead. f_equal. exact Hsplit.
  - cbn [app leading_slashes]. rewrite N.eqb_refl, Hlead. f_equal.
    unfold split_on in *. cbn [split_acc]. rewrite N.eqb_refl.
    rewrite reverse_nil. now rewrite filter_cons_False by (intros [Hq _]; now apply Hq).
  - cbn [app leading_slashes]. rewrite !N.eqb_refl, Hlead. f_equal.
    unfold split_on in *. cbn [split_acc]. rewrite !N.eqb_refl.
    rewrite !reverse_nil.
    now rewrite !filter_cons_False by (intros [Hq _]; now apply Hq).
Qed.

Lemma path_div_parts a b :
  Forall (fun q => q ≠ [] /\ q ≠ [c_dot] /\ c_slash ∉ q) (p_parts a) ->
  p_root a ∈ [[]; [c_slash]; [c_slash; c_slash]] ->
  Forall (fun q => q ≠ [] /\ q ≠ [c_dot] /\ c_slash ∉ q) (p_parts b) ->
  p_root b ∈ [[]; [c_slash]; [c_slash; c_slash]] ->
  Forall (fun q => q ≠ [] /\ q ≠ [c_dot] /\ c_slash ∉ q) (p_parts (path_div a b)) /\
  p_root (path_div a b) ∈ [[]; [c_slash]; [c_slash; c_slash]].
Proof.
  intros Ha Hra Hb Hrb. unfold path_div. destruct (p_root b) eqn:Hr.
  - cbn [p_parts p_root]. split; [now apply Forall_app|exact Hra].
  - rewrite <- Hr in Hrb. now split.
Qed.

End Paths.

Section FileTools.

(** X24. Writing and reading back: when the markdown writer returns a
    path, the file at that path holds the content given, and reading it,
    as the JSON reader called on the path returned does, gives the
    content back with [\r\n] and [\r] turned into [\n]: unchanged when
    it has no carriage return, JSON or not. *)
Theorem written_markdown_reads_back fs output_dir filename content fs' written :
  WriteMarkdownTool._run fs output_dir filename content = (fs', Ret written) ->
  fs' !! written = Some (NFile (Some content)) /\
  read_text fs' (path_of_str written) = Some (universal_newlines content) /\
  ReadAnalysisJSONTool._run fs' written = universal_newlines content /\
  (c_cr ∉ content -> ReadAnalysisJSONTool._run fs' written = content).
Proof.
  unfold WriteMarkdownTool._run.
  destruct (mkdir_parents fs (path_of_str output_dir)) as [fs1 [[]|e]]; [|discriminate].
  set (p := path_div (path_of_str output_dir) (path_of_str filename)).
  destruct (write_text fs1 p content) as [fs2 [[]|e]] eqn:Hw; [|discriminate].
  intros [= <- <-].
  assert (Hp : path_of_str (path_str p) = p).
  { destruct (path_of_str_parts output_dir), (path_of_str_parts filename).
    destruct (path_div_parts (path_of_str output_dir) (path_of_str filename)); try assumption.
    now apply path_round_trip. }
  assert (Hparts : p_parts p ≠ []).
  { intros Hnil. unfold write_text, lookup_path in Hw. rewrite Hnil in Hw. discriminate. }
  assert (Hfs : fs2 = <[path_str p := NFile (Some content)]> fs1).
  { unfold write_text in Hw.
    destruct (lookup_path fs1 p) as [[|?]|]; try discriminate;
      (destruct (lookup_path fs1 (parent p)) as [[|?]|]; try discriminate;
       destruct (existsb is_surrogate content); [discriminate|];
       now injection Hw as <-). }
  assert (Hfile : fs2 !! path_str p = Some (NFile (Some content)))
    by (now rewrite Hfs, lookup_insert_eq).
  assert (Hread : read_text fs2 p = Some (universal_newlines content)).
  { unfold read_text, lookup_path. destruct (p_parts p); [contradiction|].
    now rewrite Hfile. }
  assert (Hrun : ReadAnalysisJSONTool._run fs2 (path_str p) = universal_newlines content).
  { unfold ReadAnalysisJSONTool._run. rewrite Hp. unfold path_exists. rewrite Hread.
    unfold read_text in Hread.
    destruct (lookup_path fs2 p) as [n|]; [|discriminate].
    now rewrite bool_decide_eq_true_2 by (now exists n). }
  split; [exact Hfile|]. rewrite Hp. split; [exact Hread|]. split; [exact Hrun|].
  intros Hcr. rewrite Hrun. clear -Hcr.
  induction content as [|c r IH]; [reflexivity|]. cbn [universal_newlines].
  destruct (N.eqb_spec c c_cr) as [->|_].
  - exfalso. apply Hcr. constructor.
  - f_equal. apply IH. intros Hin. apply Hcr. now constructor.
Qed.

End FileTools.

Section Scanners.
Context `{PyLib}.
Import SearchSpec.

Lemma endpoint_scan_lines_spec abs_path lines : forall idx e,
  e ∈ EndpointScannerTool.scan_lines abs_path idx lines ->
  exists i line m,
    lines !! i = Some line /\
    EndpointScannerTool.category e ∈ EndpointScannerTool.categories /\
    m ∈ finditer (EndpointScannerTool.category e) line /\
    e = EndpointScannerTool.Evidence abs_path
          (DbSchemaScannerTool.line_range (idx + Z.of_nat i) (idx + Z.of_nat i))
          (EndpointScannerTool.category e) (EndpointScannerTool.match_value m) (strip line).
Proof.
  induction lines as [|line rest IH]; intros idx e He;
    cbn [EndpointScannerTool.scan_lines] in He; [now apply elem_of_nil in He|].
  apply elem_of_app in He as [He|He].
  - unfold EndpointScannerTool.scan_line in He.
    apply list_elem_of_In, in_flat_map in He as (key & Hkey & He).
    unfold EndpointScannerTool.scan_pattern in He.
    apply in_map_iff in He as (m & <- & Hm). cbn [EndpointScannerTool.category].
    exists O, line, m. rewrite Z.add_0_r.
    repeat split; [now apply list_elem_of_In|now apply list_elem_of_In].
  - destruct (IH _ _ He) as (i & l & m & Hl & Hc & Hm & Heq).
    exists (S i), l, m. repeat split; try assumption.
    replace (idx + Z.of_nat (S i))%Z with (idx + 1 + Z.of_nat i)%Z by lia. exact Heq.
Qed.

(** X25. What an endpoint record holds: it comes from one line of one
    file that passed the filter and could be read; it cites that line
    alone, under the path the file was opened by; its category is one of
    the table's and its value is taken from a match of that category in
    the line; its snippet is the line, stripped. *)
Theorem endpoint_record_cites_one_line tree repo_root include_globs exclude_globs e :
  e ∈ EndpointScannerTool.endpoint_matches tree repo_root include_globs exclude_globs ->
  exists c text i line m,
    c ∈ candidates tree repo_root (or_default include_globs [])
          (or_default exclude_globs []) /\
    snd c = Some text /\
    readlines text !! i = Some line /\
    EndpointScannerTool.category e ∈ EndpointScannerTool.categories /\
    m ∈ finditer (EndpointScannerTool.category e) line /\
    e = EndpointScannerTool.Evidence (fst c)
          (DbSchemaScannerTool.line_range (Z.of_nat i + 1) (Z.of_nat i + 1))
          (EndpointScannerTool.category e) (EndpointScannerTool.match_value m) (strip line).
Proof.
  unfold EndpointScannerTool.endpoint_matches, candidates. intros He.
  apply list_elem_of_In, in_flat_map in He as (t & Ht & He).
  unfold EndpointScannerTool.scan_step in He.
  apply in_flat_map in He as ([name file] & Hf & He). cbn [fst snd] in He.
  destruct (file_selected_incl_first _ _ _) eqn:Hsel; [|contradiction].
  destruct file as [text|]; [|contradiction].
  apply list_elem_of_In, endpoint_scan_lines_spec in He
    as (i & line & m & Hl & Hc & Hm & Heq).
  eexists (_, Some text), text, i, line, m. cbn [fst snd].
  split; [|repeat split; try assumption;
           replace (Z.of_nat i + 1)%Z with (1 + Z.of_nat i)%Z by lia; exact Heq].
  apply list_elem_of_In, in_flat_map. exists t. split; [exact Ht|].
  apply list_elem_of_In. unfold step_candidates. apply list_elem_of_omap.
  exists (name, Some text). split; [now apply list_elem_of_In|]. cbn [fst snd].
  rewrite file_selected_orders in Hsel. now rewrite Hsel.
Qed.

Lemma count_newlines_app a b :
  count_newlines (a ++ b) = (count_newlines a + count_newlines b)%Z.
Proof. unfold count_newlines, str. rewrite filter_app, length_app. lia. Qed.

Lemma count_newlines_window (content : str) (i j : nat) :
  (i <= j)%nat ->
  count_newlines (take (j - i) (drop i content))
  = (count_newlines (take j content) - count_newlines (take i content))%Z.
Proof.
  intros Hij.
  assert (Hsplit : take j content = take i content ++ take (j - i) (drop i content)).
  { rewrite <- (take_drop i (take j content)) at 1.
    rewrite take_take, Nat.min_l by exact Hij. f_equal.
    rewrite take_drop_commute. f_equal. f_equal. lia. }
  rewrite Hsplit, count_newlines_app. lia.
Qed.

(** X26. The line range of a schema record.  The snippet starts up to
    160 characters before the match and ends up to 160 after it, but the
    range reported starts at the line of the match: it has the length of
    the snippet and is shifted down by the line breaks of the lead-in.
    With [line_of k] the line of the character at offset [k]: the range
    is from [line_of start] to [line_of (end + 160)] plus
    [line_of start - line_of (start - 160)]. *)
Theorem schema_line_range_is_shifted abs_path content key m :
  (0 <= m_start m <= m_end m)%Z ->
  (m_end m <= Z.of_nat (length content))%Z ->
  let line_of (k : nat) := (count_newlines (take k content) + 1)%Z in
  let a := Z.to_nat (m_start m) in
  let b := Z.to_nat (m_end m) in
  DbSchemaScannerTool.line_numbers (DbSchemaScannerTool.make_evidence abs_path content key m)
  = DbSchemaScannerTool.line_range (line_of a)
      (line_of (b + 160)%nat + (line_of a - line_of (a - 160)%nat)) /\
  DbSchemaScannerTool.code_snippet (DbSchemaScannerTool.make_evidence abs_path content key m)
  = strip (take (b + 160 - (a - 160)) (drop (a - 160) content)).
Proof.
  intros Hse Hlen line_of a b.
  unfold DbSchemaScannerTool.make_evidence.
  cbn [DbSchemaScannerTool.line_numbers DbSchemaScannerTool.code_snippet].
  assert (Hpre : py_slice 0 (m_start m) content = take a content).
  { unfold py_slice, slice_index. unfold str in *.
    destruct (Z.ltb_spec (m_start m) 0); [lia|]. cbn [Z.ltb Z.compare].
    rewrite Z.min_l by lia. rewrite Z.min_l by lia.
    change (Z.to_nat 0) with O. now rewrite Nat.sub_0_r, drop_0. }
  assert (Hwin : py_slice (Z.max 0 (m_start m - 160)) (m_end m + 160) content
                 = take (b + 160 - (a - 160)) (drop (a - 160) content)).
  { unfold py_slice, slice_index. unfold str in *.
    destruct (Z.ltb_spec (Z.max 0 (m_start m - 160)) 0); [lia|].
    destruct (Z.ltb_spec (m_end m + 160) 0); [lia|].
    replace (Z.to_nat (Z.min (Z.max 0 (m_start m - 160)) (Z.of_nat (length content))))
      with (a - 160)%nat by (subst a; lia).
    destruct (Z.le_gt_cases (m_end m + 160) (Z.of_nat (length content))) as [Hb|Hb].
    - f_equal. subst a b. lia.
    - rewrite !take_ge; [reflexivity| |]; rewrite length_drop; subst a b; lia. }
  rewrite Hpre, Hwin. split; [|reflexivity]. f_equal.
  rewrite count_newlines_window by (subst a b; lia). subst line_of. cbn beta. lia.
Qed.

End Scanners.

(** X24 at work: a content with a carriage return comes back with a
    newline in its place. *)
Lemma written_markdown_reads_back_witness :
  ReadAnalysisJSONTool._run
    (WriteMarkdownTool._run ∅ (u "out") (u "story.md")
       (u "# Story" ++ [c_cr; c_nl] ++ u "text")).1
    (u "out/story.md")
  = u "# Story" ++ [c_nl] ++ u "text".
Proof.
  etransitivity.
  - refine (proj1 (proj2 (proj2
      (written_markdown_reads_back ∅ (u "out") (u "story.md")
         (u "# Story" ++ [c_cr; c_nl] ++ u "text") _ (u "out/story.md") _)))).
    vm_compute. reflexivity.
  - vm_compute. reflexivity.
Defined.

(** X25 at work: the URL of [url_repo]. *)
Lemma endpoint_record_cites_one_line_witness :
  exists c text i line m,
    c ∈ SearchSpec.candidates (Some url_repo) (u "/repo") [] [] /\
    snd c = Some text /\
    readlines text !! i = Some line /\
    u "http_url" ∈ EndpointScannerTool.categories /\
    m ∈ finditer (PyLib := url_lib) (u "http_url") line /\
    EndpointScannerTool.Evidence (u "/repo/src/api.js") (u "L1-1") (u "http_url")
      (Some (u "http://a.b/c")) (u "see http://a.b/c")
    = EndpointScannerTool.Evidence (fst c)
        (DbSchemaScannerTool.line_range (Z.of_nat i + 1) (Z.of_nat i + 1))
        (u "http_url") (EndpointScannerTool.match_value m) (strip line).
Proof.
  apply (endpoint_record_cites_one_line (H := url_lib) (Some url_repo) (u "/repo") None None
           (EndpointScannerTool.Evidence (u "/repo/src/api.js") (u "L1-1") (u "http_url")
              (Some (u "http://a.b/c")) (u "see http://a.b/c"))).
  vm_compute. constructor.
Defined.

(** X26 at work: a match on the second and last line of a file is
    reported as lines 2 to 3. *)
Lemma schema_line_range_is_shifted_witness :
  DbSchemaScannerTool.line_numbers
    (DbSchemaScannerTool.make_evidence (u "/repo/schema.sql") schema_text
       (u "sql_create_table") schema_match)
  = u "L2-3".
Proof.
  etransitivity.
  - apply (proj1 (schema_line_range_is_shifted (u "/repo/schema.sql") schema_text
                    (u "sql_create_table") schema_match
                    ltac:(cbn [m_start m_end schema_match]; lia)
                    ltac:(vm_compute; discriminate))).
  - vm_compute. reflexivity.
Defined.

(* --------------------------------------------------------------------- *)
(** ** chunk_tools.py *)
(* --------------------------------------------------------------------- *)

Section Chunks.
Import ReadFileChunkTool.

(** The loop once the start line is reached. *)
Lemma read_lines_taken start_line end_line lines : forall idx content actual_end,
  (start_line <= idx)%Z ->
  let taken := take (Z.to_nat (end_line - idx + 1)) lines in
  read_lines start_line end_line idx lines content actual_end
  = (content ++ concat taken,
     match taken with
     | [] => actual_end
     | _ => (idx - 1 + Z.of_nat (length taken))%Z
     end).
Proof.
  induction lines as [|line rest IH]; intros idx content actual_end Hidx taken;
    cbn [read_lines].
  - subst taken. rewrite take_nil. cbn [concat]. now rewrite app_nil_r.
  - destruct (Z.ltb_spec idx start_line) as [Hlt|_]; [lia|].
    destruct (Z.ltb_spec end_line idx) as [Hend|Hend].
    + subst taken. replace (Z.to_nat (end_line - idx + 1)) with O by lia.
      cbn [take concat]. now rewrite app_nil_r.
    + subst taken. replace (Z.to_nat (end_line - idx + 1))
        with (S (Z.to_nat (end_line - (idx + 1) + 1))) by lia.
      cbn [take concat length]. rewrite IH by lia. cbn zeta.
      rewrite <- app_assoc. f_equal.
      destruct (take _ rest); cbn [length]; lia.
Qed.

(** The whole loop, from a line at or before the start line. *)
Lemma read_lines_spec start_line end_line lines : forall idx content actual_end,
  (idx <= start_line)%Z ->
  let taken := take (Z.to_nat (end_line - start_line + 1))
                 (drop (Z.to_nat (start_line - idx)) lines) in
  read_lines start_line end_line idx lines content actual_end
  = (content ++ concat taken,
     match taken with
     | [] => actual_end
     | _ => (start_line - 1 + Z.of_nat (length taken))%Z
     end).
Proof.
  induction lines as [|line rest IH]; intros idx content actual_end Hidx taken.
  - subst taken. rewrite drop_nil, take_nil. cbn [read_lines concat].
    now rewrite app_nil_r.
  - destruct (Z.eq_dec idx start_line) as [->|Hne].
    + subst taken. rewrite Z.sub_diag. cbn [Z.to_nat drop].
      apply read_lines_taken. lia.
    + cbn [read_lines]. destruct (Z.ltb_spec idx start_line) as [_|Hge]; [|lia].
      subst taken. replace (Z.to_nat (start_line - idx))
        with (S (Z.to_nat (start_line - (idx + 1)))) by lia.
      cbn [drop]. apply IH. lia.
Qed.

Lemma length_lstrip s : (length (lstrip s) <= length s)%nat.
Proof.
  induction s as [|c s IH]; cbn [lstrip]; [lia|].
  destruct (isspace c); cbn [length]; lia.
Qed.

Lemma length_strip s : (length (strip s) <= length s)%nat.
Proof.
  unfold strip, rstrip. rewrite length_reverse.
  etransitivity; [apply length_lstrip|]. rewrite length_reverse. apply length_lstrip.
Qed.

Lemma concat_lines_acc s : forall acc, concat (lines_acc acc s) = reverse acc ++ s.
Proof.
  induction s as [|c s IH]; intros acc; cbn [lines_acc].
  - destruct acc; [reflexivity|]. cbn [concat]. now rewrite !app_nil_r.
  - destruct (N.eqb_spec c c_nl) as [->|_].
    + cbn [concat]. rewrite IH, reverse_cons, reverse_nil, <- app_assoc. reflexivity.
    + rewrite IH, reverse_cons, <- app_assoc. reflexivity.
Qed.

(** What [_run] gives for a file that opens. *)
Lemma run_on_text text file_path start_line num_lines max_chars :
  let s := Z.max 1 start_line in
  let taken := take (Z.to_nat num_lines) (drop (Z.to_nat (s - 1)) (readlines text)) in
  _run (Some text) file_path start_line num_lines max_chars
  = Chunk file_path s (s - 1 + Z.of_nat (length taken))
      (strip match max_chars with
             | Some n =>
               if (n <? Z.of_nat (length (concat taken)))%Z
               then py_slice 0 n (concat taken) else concat taken
             | None => concat taken
             end).
Proof.
  intros s taken. unfold _run.
  assert (Hs : (if (start_line <? 1)%Z then 1%Z else start_line) = s)
    by (subst s; destruct (Z.ltb_spec start_line 1); lia).
  rewrite Hs.
  rewrite (read_lines_spec s (s + num_lines - 1) (readlines text) 1 [] (s - 1))
    by (subst s; lia).
  cbn zeta. replace (Z.to_nat (s + num_lines - 1 - s + 1)) with (Z.to_nat num_lines) by lia.
  fold taken. cbn [app]. f_equal.
  destruct taken; cbn [length]; lia.
Qed.

(** X27. The chunk reader: the lines read are [num_lines] lines of the
    file from line [max(1, start_line)] on, as many as the file has; the
    end line reported is the start line less one plus the number of
    lines read, and it is the same whatever [max_chars] cuts from the
    snippet; a file that cannot be opened gives an empty snippet that
    ends before its start. *)
Theorem chunk_holds_the_lines text file_path start_line num_lines max_chars :
  let s := Z.max 1 start_line in
  let taken := take (Z.to_nat num_lines) (drop (Z.to_nat (s - 1)) (readlines text)) in
  line_start (_run (Some text) file_path start_line num_lines max_chars) = s /\
  line_end (_run (Some text) file_path start_line num_lines max_chars)
  = (s - 1 + Z.of_nat (length taken))%Z /\
  code_snippet (_run (Some text) file_path start_line num_lines None)
  = strip (concat taken) /\
  _run None file_path start_line num_lines max_chars = Chunk file_path s (s - 1) [].
Proof.
  intros s taken. rewrite !run_on_text. fold s taken.
  cbn [line_start line_end code_snippet].
  split; [reflexivity|]. split; [reflexivity|]. split; [reflexivity|].
  unfold _run.
  assert (Hs : (if (start_line <? 1)%Z then 1%Z else start_line) = s)
    by (subst s; destruct (Z.ltb_spec start_line 1); lia).
  rewrite Hs. f_equal. destruct max_chars as [n|]; [|reflexivity].
  clear Hs. destruct (n <? _)%Z; [|reflexivity].
  unfold py_slice, slice_index. cbn [length]. now rewrite drop_nil, take_nil.
Qed.

(** X28. With [max_chars] not negative, the snippet of a chunk is at
    most [max_chars] characters long. *)
Theorem chunk_snippet_is_capped file file_path start_line num_lines n :
  (0 <= n)%Z ->
  (Z.of_nat (length (code_snippet (_run file file_path start_line num_lines (Some n))))
   <= n)%Z.
Proof.
  intros Hn. unfold _run.
  destruct (match file with Some _ => _ | None => _ end) as [content actual_end].
  cbn [code_snippet].
  set (cut := if (n <? Z.of_nat (length content))%Z then py_slice 0 n content else content).
  assert (Hcut : (length cut <= Z.to_nat n)%nat).
  { subst cut. destruct (Z.ltb_spec n (Z.of_nat (length content))) as [Hlt|Hge].
    - unfold py_slice. rewrite length_take. unfold slice_index.
      destruct (Z.ltb_spec n 0); [lia|]. unfold str in *. lia.
    - unfold str in *. lia. }
  pose proof (length_strip cut) as Hle. unfold str in *. lia.
Qed.

(** X29. Reading all the lines the file-info tool counts, from line
    one and without a cap, gives the whole text of the file, stripped,
    and the end line is the line count. *)
Theorem counted_lines_give_the_whole_file text file_path :
  _run (Some text) file_path 1 (GetFileInfoTool.line_count text) None
  = Chunk file_path 1 (GetFileInfoTool.line_count text)
      (strip (universal_newlines text)).
Proof.
  rewrite run_on_text. unfold GetFileInfoTool.line_count.
  change (Z.max 1 1) with 1%Z. rewrite Nat2Z.id.
  change (Z.to_nat (1 - 1)) with O. rewrite drop_0, firstn_all.
  unfold readlines at 2. rewrite concat_lines_acc. reflexivity.
Qed.

End Chunks.

(** X28 at work: a cap of three characters. *)
Lemma chunk_snippet_is_capped_witness :
  (Z.of_nat (length (ReadFileChunkTool.code_snippet
     (ReadFileChunkTool._run (Some three_lines) (u "/repo/a.txt") 1 2 (Some 3%Z)))) <= 3)%Z.
Proof.
  apply (chunk_snippet_is_capped (Some three_lines) (u "/repo/a.txt") 1 2 3). lia.
Defined.

